(** * Aktuella Brott: synchronisation and caching engine

    A shallow embedding of the parts of [js/app.js], the data sync manager
    and the service worker [sw.js] that decide when data is fetched, how it
    is processed and stored, and which of network and cache answers a
    request.

    Conventions.
    - JavaScript strings are [string] (their UTF-8 bytes); the literals are
      copied from the source files byte for byte.
    - Integer Numbers (timestamps, delays, levels) are [Z]; [NaN] is [None]
      of an [option Z].
    - [Date.now()] is read from an explicit clock argument; a call that reads
      the clock at several places (at its start, while it processes an answer,
      at a write, at a read) gets a reading for each place.
    - A property lookup [obj[key]] finds the own properties of [obj] and the
      members that every object literal inherits from [Object.prototype].
    - Functions of the JavaScript runtime whose tables are not part of the
      program ([toLowerCase], [trim], [Date] parsing) are fields of the class
      [JsRuntime]; [example_runtime] is an instance that agrees with them on
      the ASCII text of the worked examples. *)

From Stdlib Require Import ZArith Lia Bool Ascii String List Sorting.Sorted.
From stdpp Require Import base gmap sets list strings pretty.

Local Open Scope string_scope.
Local Open Scope list_scope.
Local Open Scope Z_scope.

(** ** Strings *)

Module Str.

(** [s.includes(sub)] *)
Fixpoint includes (s sub : string) : bool :=
  String.prefix sub s ||
  match s with
  | EmptyString => false
  | String _ rest => includes rest sub
  end.

(** [keywords.some(k => s.includes(k))] *)
Definition includes_any (s : string) (keywords : list string) : bool :=
  existsb (includes s) keywords.

(** The characters of [s], as a list. *)
Fixpoint chars (s : string) : list ascii :=
  match s with
  | EmptyString => []
  | String c rest => c :: chars rest
  end.

Fixpoint filter_chars (keep : ascii -> bool) (s : string) : string :=
  match s with
  | EmptyString => EmptyString
  | String c rest =>
      if keep c then String c (filter_chars keep rest)
      else filter_chars keep rest
  end.

Definition is_upper (c : ascii) : bool :=
  let n := nat_of_ascii c in (65 <=? n)%nat && (n <=? 90)%nat.

Definition lower_char (c : ascii) : ascii :=
  if is_upper c then ascii_of_nat (nat_of_ascii c + 32) else c.

Fixpoint ascii_lower (s : string) : string :=
  match s with
  | EmptyString => EmptyString
  | String c rest => String (lower_char c) (ascii_lower rest)
  end.

Definition is_space (c : ascii) : bool :=
  let n := nat_of_ascii c in
  (n =? 32)%nat || ((9 <=? n)%nat && (n <=? 13)%nat).

Fixpoint drop_spaces (s : string) : string :=
  match s with
  | EmptyString => EmptyString
  | String c rest => if is_space c then drop_spaces rest else s
  end.

Fixpoint rev_string (s : string) (acc : string) : string :=
  match s with
  | EmptyString => acc
  | String c rest => rev_string rest (String c acc)
  end.

Definition ascii_trim (s : string) : string :=
  rev_string (drop_spaces (rev_string (drop_spaces s) "")) "".

(** [s.split(sep)] for a one-character separator. *)
Fixpoint split_on (sep : ascii) (s : string) (cur : string) : list string :=
  match s with
  | EmptyString => [rev_string cur ""]
  | String c rest =>
      if Ascii.eqb c sep then rev_string cur "" :: split_on sep rest ""
      else split_on sep rest (String c cur)
  end.

Definition split (sep : ascii) (s : string) : list string := split_on sep s "".

End Str.

(** ** The JavaScript runtime *)

Class JsRuntime := {
  (** [String.prototype.toLowerCase] *)
  toLowerCase : string -> string;
  (** [String.prototype.trim] *)
  trim : string -> string;
  (** [new Date(s).getTime()]; [None] is [NaN] *)
  date_getTime : string -> option Z;
}.

(** Truthiness of a string-valued property that may be absent. *)
Definition truthy (v : option string) : bool :=
  match v with
  | Some s => negb (String.eqb s "")
  | None => false
  end.

(** [v || d] for a string-valued property [v] and a string [d]. *)
Definition or_else (v : option string) (d : string) : string :=
  match v with
  | Some s => if String.eqb s "" then d else s
  | None => d
  end.

(** A property of a record of the remote collections that the collection
    documents as a string: it is absent ([undefined]), [null], or a
    string. *)
Inductive Field :=
| Absent
| Null
| Text (s : string).

(** The string of a field, when it has one. Under [||], [?.] and the test
    of truthiness [null] and [undefined] behave alike. *)
Definition field_text (v : Field) : option string :=
  match v with
  | Text s => Some s
  | _ => None
  end.

(** A template literal prints [undefined] and [null] by their names. *)
Definition print_field (v : Field) : string :=
  match v with
  | Absent => "undefined"
  | Null => "null"
  | Text s => s
  end.

(** [new Date(v).getTime()]: [undefined] is an invalid date, [null] is the
    epoch. *)
Definition field_getTime `{JsRuntime} (v : Field) : option Z :=
  match v with
  | Absent => None
  | Null => Some 0
  | Text s => date_getTime s
  end.

(** ** Property lookup *)

(** The names of the members of [Object.prototype]. Their values are
    functions; that of [__proto__] is [Object.prototype] itself. All of them
    are truthy and none of them is a string. *)
Definition Object_prototype : list string :=
  [ "constructor"; "__defineGetter__"; "__defineSetter__"; "hasOwnProperty";
    "__lookupGetter__"; "__lookupSetter__"; "isPrototypeOf";
    "propertyIsEnumerable"; "toString"; "valueOf"; "__proto__";
    "toLocaleString" ].

(** What [obj[key]] finds in an object literal when it is not [undefined]:
    a value of the literal, or the member of [Object.prototype] of that
    name. *)
Inductive Found (A : Type) :=
| Own (v : A)
| Inherited (name : string).
Arguments Own {A} v.
Arguments Inherited {A} name.

(** [obj[key]] over the object's own properties. *)
Fixpoint own_property {A} (obj : list (string * A)) (key : string) : option A :=
  match obj with
  | [] => None
  | (k, v) :: rest => if String.eqb k key then Some v else own_property rest key
  end.

(** [obj[key]]; [None] is [undefined]. *)
Definition js_get {A} (obj : list (string * A)) (key : string) : option (Found A) :=
  match own_property obj key with
  | Some v => Some (Own v)
  | None =>
      if existsb (String.eqb key) Object_prototype then Some (Inherited key)
      else None
  end.

(** ** Utils.sanitizeHTML (js/app.js) *)

(** The values [sanitizeHTML] can be called with. [JOther repr] is any other
    truthy value (a non-zero number, [true], an object); [repr] is what
    [ToString] makes of it when it is assigned to [textContent]. *)
Inductive JsValue :=
| JUndefined
| JNull
| JFalse
| JZero
| JNaN
| JString (s : string)
| JOther (repr : string).

Definition js_truthy (v : JsValue) : bool :=
  match v with
  | JString s => negb (String.eqb s "")
  | JOther _ => true
  | _ => false
  end.

Definition js_toString (v : JsValue) : string :=
  match v with
  | JUndefined => "undefined"
  | JNull => "null"
  | JFalse => "false"
  | JZero => "0"
  | JNaN => "NaN"
  | JString s => s
  | JOther repr => repr
  end.

Module Utils.

(** Reading [innerHTML] of an element whose only child is a text node:
    the HTML fragment serialisation escapes the ampersand, the angle
    brackets and the no-break space (U+00A0, bytes C2 A0). *)
Fixpoint innerHTML (text : string) : string :=
  match text with
  | EmptyString => EmptyString
  | String c rest =>
      if Ascii.eqb c "&" then "&amp;" +:+ innerHTML rest
      else if Ascii.eqb c "<" then "&lt;" +:+ innerHTML rest
      else if Ascii.eqb c ">" then "&gt;" +:+ innerHTML rest
      else
        match rest with
        | String c' rest' =>
            if Ascii.eqb c (ascii_of_nat 194) && Ascii.eqb c' (ascii_of_nat 160)
            then "&nbsp;" +:+ innerHTML rest'
            else String c (innerHTML rest)
        | EmptyString => String c EmptyString
        end
  end.

Definition is_angle (c : ascii) : bool := Ascii.eqb c "<" || Ascii.eqb c ">".

(** [.replace(/[<>]/g, '')] *)
Definition strip_angles (s : string) : string :=
  Str.filter_chars (fun c => negb (is_angle c)) s.

Definition sanitizeHTML (str : JsValue) : string :=
  if negb (js_truthy str) then ""
  else strip_angles (innerHTML (js_toString str)).

End Utils.

(** ** Severity *)

Record Severity := {
  level : Z;
  priority : string;
  color : string;
}.

Module DataSyncSeverity.

Definition severityMap : list (string * Severity) :=
  [ ("Olycka", {| level := 3; priority := "high"; color := "#dc2626" |});
    ("Brand", {| level := 4; priority := "critical"; color := "#b91c1c" |});
    ("R√•n", {| level := 4; priority := "critical"; color := "#991b1b" |});
    ("V√•ld", {| level := 4; priority := "critical"; color := "#7f1d1d" |});
    ("Skottlossning", {| level := 5; priority := "critical"; color := "#450a0a" |});
    ("Trafikolycka", {| level := 2; priority := "medium"; color := "#ea580c" |});
    ("Misshandel", {| level := 3; priority := "high"; color := "#c2410c" |});
    ("St√∂ld", {| level := 2; priority := "medium"; color := "#a3a3a3" |});
    ("default", {| level := 1; priority := "low"; color := "#6b7280" |}) ].

Definition severity_default : Severity :=
  {| level := 1; priority := "low"; color := "#6b7280" |}.

Definition criticalKeywords : list string :=
  ["skott"; "d√∂d"; "livsfara"; "explosion"; "gisslan"].

Definition highKeywords : list string :=
  ["v√•ld"; "kniv"; "hot"; "misshandel"].

(** [severityMap[type] || severityMap.default]: the entry of the type, the
    member of [Object.prototype] that the type names, or the default. *)
Definition table_severity (type : string) : Found Severity :=
  match js_get severityMap type with
  | Some found => found
  | None => Own severity_default
  end.

(** [.level] of what [calculateSeverity] returns; a member of
    [Object.prototype] has no [level]. *)
Definition severity_level (r : Found Severity) : option Z :=
  match r with
  | Own s => Some (level s)
  | Inherited _ => None
  end.

(** An argument under its default [= '']: only [undefined] takes the
    default. *)
Definition arg_text (v : Field) : string :=
  match v with
  | Text s => s
  | _ => ""
  end.

Section WithRuntime.
Context `{JsRuntime}.

(** [calculateSeverity(type = '', title = '')]. [None]: the call throws,
    which it does at [title.toLowerCase()] or [type.toLowerCase()] when the
    argument is [null], before any keyword is looked for. *)
Definition calculateSeverity (type title : Field) : option (Found Severity) :=
  match title, type with
  | Null, _ => None
  | _, Null => None
  | _, _ =>
      let lowerTitle := toLowerCase (arg_text title) in
      if Str.includes_any lowerTitle criticalKeywords then
        Some (Own {| level := 5; priority := "critical"; color := "#450a0a" |})
      else if Str.includes_any lowerTitle highKeywords then
        Some (Own {| level := 4; priority := "critical"; color := "#7f1d1d" |})
      else Some (table_severity (arg_text type))
  end.

End WithRuntime.

End DataSyncSeverity.

(** A runtime for worked examples. It lower-cases and trims ASCII text as
    the JavaScript functions do, and parses the ISO date strings of the
    examples by a table. *)
Definition example_dates : list (string * Z) :=
  [ ("1970-01-01T00:00:01Z", 1000);
    ("1970-01-01T00:00:02Z", 2000);
    ("1970-01-01T00:00:03Z", 3000) ].

#[export] Instance example_runtime : JsRuntime := {|
  toLowerCase := Str.ascii_lower;
  trim := Str.ascii_trim;
  date_getTime := own_property example_dates;
|}.

(** ** Raw records of the remote collections *)

Record RawLocation := {
  loc_name : Field;
  gps : Field;
}.

(** A record of the events collection. [raw_id] is its numeric [id], [None]
    when it has none; [raw_location] is [None] when the record has no
    [location] object. *)
Record RawEvent := {
  raw_id : option Z;
  raw_datetime : Field;
  raw_name : Field;
  raw_title : Field;
  raw_summary : Field;
  raw_description : Field;
  raw_type : Field;
  raw_url : Field;
  raw_location : option RawLocation;
}.

(** A record key: a number or a string. *)
Inductive Id :=
| IdNum (n : Z)
| IdStr (s : string).

(** [Array.prototype.sort(cmp)]. The sort is stable, which fixes its result
    for a consistent comparator: insertion from the right is one such sort.
    For a comparator that is not consistent (a [NaN] among the values
    compared) the standard leaves the order to the engine; [js_sort] then
    gives a rearrangement of the array, which is all that the statements
    below use of it in that case. *)
Section Sort.
Context {A : Type} (cmp : A -> A -> Z).

Fixpoint sort_insert (x : A) (l : list A) : list A :=
  match l with
  | [] => [x]
  | y :: rest => if cmp x y <=? 0 then x :: y :: rest else y :: sort_insert x rest
  end.

Fixpoint js_sort (l : list A) : list A :=
  match l with
  | [] => []
  | x :: rest => sort_insert x (js_sort rest)
  end.
End Sort.

(** ** CrimeSeveritySystem and PoliceEvent (js/app.js) *)

Record SeverityInfo := {
  si_level : Z;
  si_color : string;
  si_description : string;
  si_priority : string;
  si_matchType : option string;
}.

Module CrimeSeveritySystem.

Definition entry (lvl : Z) (col descr prio : string) : SeverityInfo :=
  {| si_level := lvl; si_color := col; si_description := descr;
     si_priority := prio; si_matchType := None |}.

Definition SEVERITY_MAPPING : list (string * SeverityInfo) :=
  [ ("Trafikbrott", entry 1 "#059669" "Trafikbrott" "low");
    ("Fortk√∂rning", entry 1 "#059669" "Fortk√∂rning" "low");
    ("Parkering", entry 1 "#22c55e" "Parkeringsbrott" "low");
    ("Ordningslagen", entry 1 "#22c55e" "Ordningslagen" "low");
    ("Skadeg√∂relse", entry 2 "#f59e0b" "Skadeg√∂relse" "medium");
    ("St√∂ld", entry 2 "#f97316" "St√∂ld" "medium");
    ("Snatteri", entry 2 "#f97316" "Snatteri" "medium");
    ("Bedr√§geri", entry 2 "#ea580c" "Bedr√§geri" "medium");
    ("Inbrott", entry 3 "#dc2626" "Inbrott" "high");
    ("Narkotikabrott", entry 3 "#dc2626" "Narkotikabrott" "high");
    ("Rattfylleri", entry 3 "#dc2626" "Rattfylleri" "high");
    ("Rattonykterhet", entry 3 "#dc2626" "Rattonykterhet" "high");
    ("R√•n", entry 4 "#991b1b" "R√•n" "critical");
    ("Misshandel", entry 4 "#991b1b" "Misshandel" "critical");
    ("V√•ldt√§kt", entry 5 "#7f1d1d" "V√•ldt√§kt" "critical");
    ("V√•ld mot tj√§nsteman", entry 4 "#991b1b" "V√•ld mot tj√§nsteman" "critical");
    ("Olaga hot", entry 3 "#dc2626" "Olaga hot" "high");
    ("Mord", entry 5 "#7f1d1d" "Mord" "critical");
    ("Dr√•p", entry 5 "#7f1d1d" "Dr√•p" "critical");
    ("Mordbrand", entry 5 "#7f1d1d" "Mordbrand" "critical");
    ("Brand", entry 4 "#991b1b" "Brand" "critical");
    ("√ñvrigt", entry 2 "#6b7280" "√ñvrigt" "medium") ].

Definition ovrigt : SeverityInfo := entry 2 "#6b7280" "√ñvrigt" "medium".

(** [this.SEVERITY_MAPPING[key]] for the keys that the code writes out. *)
Definition mapping (key : string) : SeverityInfo :=
  match own_property SEVERITY_MAPPING key with
  | Some s => s
  | None => ovrigt
  end.

Definition with_match (s : SeverityInfo) (m : string) : SeverityInfo :=
  {| si_level := si_level s; si_color := si_color s;
     si_description := si_description s; si_priority := si_priority s;
     si_matchType := Some m |}.

Definition crimeKeywords : list (string * SeverityInfo) :=
  [ ("st√∂ld", mapping "St√∂ld");
    ("stol", mapping "St√∂ld");
    ("inbrott", mapping "Inbrott");
    ("r√•n", mapping "R√•n");
    ("misshandel", mapping "Misshandel");
    ("v√•ld", mapping "Misshandel");
    ("narkotika", mapping "Narkotikabrott");
    ("trafik", mapping "Trafikbrott");
    ("brand", mapping "Brand");
    ("fylleri", mapping "Rattfylleri") ].

Section WithRuntime.
Context `{JsRuntime}.

(** The first entry of [SEVERITY_MAPPING], in insertion order, whose
    lower-cased key contains or is contained in [lowerType]. *)
Fixpoint fuzzy_match (lowerType : string) (entries : list (string * SeverityInfo))
  : option SeverityInfo :=
  match entries with
  | [] => None
  | (key, value) :: rest =>
      let lowerKey := toLowerCase key in
      if Str.includes lowerType lowerKey || Str.includes lowerKey lowerType
      then Some value
      else fuzzy_match lowerType rest
  end.

Fixpoint keyword_match (lowerType : string) (entries : list (string * SeverityInfo))
  : option SeverityInfo :=
  match entries with
  | [] => None
  | (keyword, severity) :: rest =>
      if Str.includes lowerType keyword then Some severity
      else keyword_match lowerType rest
  end.

(** [getSeverityInfo(crimeType)] for a type that is a string, [null] or
    [undefined]. The direct match [this.SEVERITY_MAPPING[crimeType]] also
    finds the members of [Object.prototype]. *)
Definition getSeverityInfo (crimeType : option string) : Found SeverityInfo :=
  if negb (truthy crimeType) then Own (mapping "√ñvrigt")
  else
    let crimeType := or_else crimeType "" in
    match js_get SEVERITY_MAPPING crimeType with
    | Some found => found
    | None =>
        let lowerType := toLowerCase crimeType in
        match fuzzy_match lowerType SEVERITY_MAPPING with
        | Some value => Own (with_match value "fuzzy")
        | None =>
            match keyword_match lowerType crimeKeywords with
            | Some severity => Own (with_match severity "keyword")
            | None => Own (with_match (mapping "√ñvrigt") "default")
            end
        end
    end.

(** [getSeverityLevel(crimeType)]; [None] is [undefined], the [level] of a
    member of [Object.prototype]. *)
Definition getSeverityLevel (crimeType : option string) : option Z :=
  match getSeverityInfo crimeType with
  | Own info => Some (si_level info)
  | Inherited _ => None
  end.

End WithRuntime.

End CrimeSeveritySystem.

(** What [parseCoordinates], [parseDateTime], [parseLocation] and
    [validateData] make of a raw record. They use floating point, [Date]
    parsing with a fall-back to the current time and [Math.random]; the
    embedding takes their results as given. [geo_timeMs] is always a number:
    [parseDateTime] replaces an invalid date by the current time. *)
Record GeoTime := {
  geo_timeMs : Z;
  geo_timestampSource : string;
  geo_city : string;
  geo_isValid : bool;
}.

Record PoliceEvent := {
  pe_rawData : RawEvent;
  pe_timeMs : Z;
  pe_timestampSource : string;
  pe_city : string;
  pe_type : string;
  pe_title : string;
  pe_description : string;
  pe_severityInfo : SeverityInfo;
  pe_priority : string;
  pe_isValid : bool;
}.

Module PoliceEventModel.

Definition typeMap : list (string * string) :=
  [ ("St√∂ld/inbrott", "Inbrott");
    ("Trafikolycka", "Trafikbrott");
    ("R√•n/st√∂ld", "R√•n");
    ("V√•ld", "Misshandel") ].

(** [typeMap[type] || type]: the normalised type, or the member of
    [Object.prototype] that the type names. *)
Definition normalizeEventType (type : string) : Found string :=
  match js_get typeMap type with
  | Some found => found
  | None => Own type
  end.

(** [a || b || c] over string-valued properties, as a value for
    [sanitizeHTML]. *)
Definition first_truthy (a b : Field) (c : string) : JsValue :=
  JString (or_else (field_text a) (or_else (field_text b) c)).

Section WithRuntime.
Context `{JsRuntime}.
Variable geotime : RawEvent -> GeoTime.

(** [new PoliceEvent(rawData)]: [parseData] then [validateData]. [None]: the
    constructor throws. It does when the type of the record names a member
    of [Object.prototype]: [this.type] is then that member, and
    [getSeverityInfo] calls [toLowerCase] on it. A normalised type that is a
    string names no member, so the second [Inherited] below is not
    reached. *)
Definition new (raw : RawEvent) : option PoliceEvent :=
  let g := geotime raw in
  match normalizeEventType
          (or_else (field_text (raw_type raw)) "Ok√§nd h√§ndelse") with
  | Inherited _ => None
  | Own type =>
      let title := Utils.sanitizeHTML (first_truthy (raw_name raw) (raw_title raw) type) in
      let description :=
        Utils.sanitizeHTML (first_truthy (raw_summary raw) (raw_description raw) "") in
      match CrimeSeveritySystem.getSeverityInfo (Some type) with
      | Inherited _ => None
      | Own severityInfo =>
          Some {| pe_rawData := raw;
                  pe_timeMs := geo_timeMs g;
                  pe_timestampSource := geo_timestampSource g;
                  pe_city := geo_city g;
                  pe_type := type;
                  pe_title := title;
                  pe_description := description;
                  pe_severityInfo := severityInfo;
                  pe_priority := si_priority severityInfo;
                  pe_isValid := geo_isValid g |}
      end
  end.

(** The processing chain of [PoliceEventsApp.fetchPoliceEvents], applied
    to the array the endpoint returned; [None] when a constructor throws,
    which [fetchPoliceEvents] throws on. *)
Definition fetchPoliceEvents (rawData : list RawEvent) : option (list PoliceEvent) :=
  events ← mapM new rawData;
  Some (firstn 500
          (js_sort (fun a b => pe_timeMs b - pe_timeMs a)
             (List.filter pe_isValid events))).

End WithRuntime.

End PoliceEventModel.

(** ** DataStorage (js/app.js): the IndexedDB object stores *)

(** [lat] and [lng] of a processed event: the trimmed text of a coordinate,
    or the number [0] when it is missing. *)
Inductive Coord :=
| CoordText (s : string)
| CoordZero.

Definition coord_toString (c : Coord) : string :=
  match c with
  | CoordText s => s
  | CoordZero => "0"
  end.

Record StoredEvent := {
  se_id : Id;
  se_timeMs : option Z;
  se_timestamp : Field;
  se_type : string;
  se_title : string;
  se_description : string;
  se_city : string;
  se_address : string;
  se_lat : Coord;
  se_lng : Coord;
  se_exactLocation : bool;
  se_severityInfo : Severity;
  se_severityLevel : Z;
  se_url : Field;
  se_cached : Z;
}.

Record Quality := {
  q_score : Z;
  q_grade : string;
  q_issues : list string;
}.

Record SyncMetadata := {
  sm_syncTime : Z;
  sm_priority : string;
  sm_version : Z;
  sm_source : string;
  sm_quality : Quality;
}.

Record Station := {
  st_id : Id;
  st_name : option string;
  st_address : option string;
  st_phone : option string;
  st_email : option string;
  st_lat : string;
  st_lng : string;
  st_services : list string;
  st_lastUpdated : Z;
}.

Record StoredStation := {
  ss_station : Station;
  ss_syncMetadata : option SyncMetadata;
  ss_cached : Z;
}.

Record Idb := {
  events_store : list StoredEvent;
  stations_store : list StoredStation;
}.

Definition DAY : Z := 24 * 60 * 60 * 1000.

Module CONFIG.
Definition API_EVENTS : string := "https://polisen.se/api/events".
Definition API_STATIONS : string := "https://polisen.se/api/policestations".
Definition RSS_SOURCES : list string :=
  [ "https://polisen.se/aktuellt/rss/";
    "https://api.allorigins.win/get?url=https%3A%2F%2Fpolisen.se%2Faktuellt%2Frss%2F";
    "https://polisen.se/aktuellt/handelser/rss/" ].
Definition DB_VERSION : Z := 2.
Definition CACHE_DURATION_EVENTS : Z := 2 * 60 * 60 * 1000.
Definition CACHE_DURATION_STATIONS : Z := 24 * 60 * 60 * 1000.
End CONFIG.

(** A record made by [DataSyncManager.processEventData]. Its [severityInfo]
    is a severity record; [processEventData] gives no [ProcessedEvent] for a
    raw record whose [severityInfo] would be a member of
    [Object.prototype]. *)
Record ProcessedEvent := {
  ev_id : Id;
  ev_timestamp : Field;
  ev_timeMs : option Z;
  ev_title : string;
  ev_description : string;
  ev_type : string;
  ev_city : string;
  ev_address : string;
  ev_lat : Coord;
  ev_lng : Coord;
  ev_exactLocation : bool;
  ev_url : Field;
  ev_severityInfo : Severity;
  ev_rawData : RawEvent;
  ev_synced : Z;
}.

(** Order of IndexedDB keys: numbers before strings. *)
Definition id_ltb (a b : Id) : bool :=
  match a, b with
  | IdNum x, IdNum y => x <? y
  | IdNum _, IdStr _ => true
  | IdStr _, IdNum _ => false
  | IdStr x, IdStr y => String.ltb x y
  end.

Definition id_eqb (a b : Id) : bool :=
  match a, b with
  | IdNum x, IdNum y => x =? y
  | IdStr x, IdStr y => String.eqb x y
  | _, _ => false
  end.

(** [store.put(record)] on an object store with a key path: the records
    are held in key order and a record with the same key is replaced. *)
Fixpoint idb_put {A} (key : A -> Id) (r : A) (store : list A) : list A :=
  match store with
  | [] => [r]
  | x :: rest =>
      if id_ltb (key r) (key x) then r :: x :: rest
      else if id_eqb (key r) (key x) then r :: rest
      else x :: idb_put key r rest
  end.

(** [array.slice(0, limit)] *)
Definition slice0 {A} (limit : Z) (l : list A) : list A :=
  if 0 <=? limit then firstn (Z.to_nat limit) l
  else firstn (length l - Z.to_nat (- limit)) l.

(** [b.timeMs - a.timeMs] as the sort sees it: [NaN] counts as [0]. *)
Definition time_desc (a b : option Z) : Z :=
  match a, b with
  | Some x, Some y => y - x
  | _, _ => 0
  end.

Record GetOptions := {
  maxAge : Z;
  limit : Z;
  severityLevel : option Z;
  city : option string;
  exactLocation : option bool;
}.

Module DataStorage.

(** [getEvents(options = {})] with its defaults. *)
Definition default_options : GetOptions :=
  {| maxAge := CONFIG.CACHE_DURATION_EVENTS; limit := 1000;
     severityLevel := None; city := None; exactLocation := None |}.

Definition event_record (now : Z) (event : ProcessedEvent) : StoredEvent :=
  {| se_id := ev_id event;
     se_timeMs := ev_timeMs event;
     se_timestamp := ev_timestamp event;
     se_type := ev_type event;
     se_title := ev_title event;
     se_description := ev_description event;
     se_city := ev_city event;
     se_address := ev_address event;
     se_lat := ev_lat event;
     se_lng := ev_lng event;
     se_exactLocation := ev_exactLocation event;
     se_severityInfo := ev_severityInfo event;
     se_severityLevel := level (ev_severityInfo event);
     se_url := ev_url event;
     se_cached := now |}.

Definition saveEvents (now : Z) (events : list ProcessedEvent) (db : Idb) : Idb :=
  {| events_store :=
       fold_left (fun store event => idb_put se_id (event_record now event) store)
         events (events_store db);
     stations_store := stations_store db |}.

Definition saveStations (now : Z) (stations : list (Station * SyncMetadata)) (db : Idb)
  : Idb :=
  {| events_store := events_store db;
     stations_store :=
       fold_left
         (fun store station =>
            idb_put (fun r => st_id (ss_station r))
              {| ss_station := fst station;
                 ss_syncMetadata := Some (snd station);
                 ss_cached := now |} store)
         stations (stations_store db) |}.

Section WithRuntime.
Context `{JsRuntime}.

Definition event_passes (cutoff : Z) (o : GetOptions) (event : StoredEvent) : bool :=
  if se_cached event <? cutoff then false
  else if match severityLevel o with
          | Some l => negb (l =? 0) && negb (se_severityLevel event =? l)
          | None => false
          end then false
  else if match city o with
          | Some c =>
              negb (String.eqb c "") &&
              negb (Str.includes (toLowerCase (se_city event)) (toLowerCase c))
          | None => false
          end then false
  else if match exactLocation o with
          | Some b => negb (Bool.eqb (se_exactLocation event) b)
          | None => false
          end then false
  else true.

Definition getEvents (now : Z) (o : GetOptions) (db : Idb) : list StoredEvent :=
  let cutoff := now - maxAge o in
  slice0 (limit o)
    (js_sort (fun a b => time_desc (se_timeMs a) (se_timeMs b))
       (List.filter (event_passes cutoff o) (events_store db))).

End WithRuntime.

(** [getStations(maxAge = CONFIG.STORAGE.CACHE_DURATION.STATIONS)] *)
Definition getStations (now : Z) (maxAge : Z) (db : Idb) : list StoredStation :=
  let cutoff := now - maxAge in
  List.filter (fun station => cutoff <=? ss_cached station) (stations_store db).

(** The test of [cleanup] on one record:
    [record.cached && record.cached < cutoffTime]. *)
Definition expired (cutoffTime : Z) (cached : Z) : bool :=
  negb (cached =? 0) && (cached <? cutoffTime).

Definition cleanup_store {A} (cached : A -> Z) (cutoffTime : Z) (store : list A)
  : list A * Z :=
  (List.filter (fun r => negb (expired cutoffTime (cached r))) store,
   Z.of_nat (length (List.filter (fun r => expired cutoffTime (cached r)) store))).

(** [cleanup()]: the swept stores and the number of records deleted from
    each. *)
Definition cleanup (now : Z) (db : Idb) : Idb * list Z :=
  let cutoffTime := now - 7 * 24 * 60 * 60 * 1000 in
  let ev := cleanup_store se_cached cutoffTime (events_store db) in
  let st := cleanup_store ss_cached cutoffTime (stations_store db) in
  ({| events_store := fst ev; stations_store := fst st |}, [snd ev; snd st]).

End DataStorage.

(** ** DataSyncManager *)

Inductive EntityType := events | stations | rss.

(** The property name of a type in [syncConfig] and its key in
    [lastSyncTimestamps]. *)
Definition type_key (type : EntityType) : string :=
  match type with
  | events => "events"
  | stations => "stations"
  | rss => "rss"
  end.

Record SyncConfig := {
  interval : Z;
  passiveInterval : Z;
  deltaSync : bool;
  cfg_priority : string;
}.

Record RetryConfig := {
  maxRetries : Z;
  baseDelay : Z;
  maxDelay : Z;
}.

Record Options := {
  opt_priority : option string;
  showLoader : bool;
  force : bool;
  retry : option Z;
}.

(** A pending [setTimeout] of [scheduleRetry]: its delay and what its
    callback closes over. *)
Record RetryTimer := {
  rt_delay : Z;
  rt_type : EntityType;
  rt_options : Options;
  rt_attempt : Z;
}.

Record RawStation := {
  rs_id : option Z;
  rs_name : option string;
  rs_address : option string;
  rs_phone : option string;
  rs_email : option string;
  rs_location : option (string * string);
  rs_services : option (list string);
}.

Record RssItem := {
  rss_id : string;
  rss_title : string;
  rss_description : string;
  rss_pubDate : option Z;
  rss_source : string;
}.

(** An element of the array that [syncDataType] resolves to. *)
Inductive Item :=
| ItemEvent (e : ProcessedEvent)
| ItemStation (s : Station)
| ItemRss (r : RssItem)
| ItemStoredEvent (e : StoredEvent)
| ItemStoredStation (s : StoredStation).

Inductive Outcome :=
| Returned (data : list Item)
| Threw.

(** What one sync fetched, before it is stored. *)
Inductive Fetched :=
| FetchedEvents (l : list ProcessedEvent)
| FetchedStations (l : list Station)
| FetchedRss (l : list RssItem).

Definition fetched_items (d : Fetched) : list Item :=
  match d with
  | FetchedEvents l => map ItemEvent l
  | FetchedStations l => map ItemStation l
  | FetchedRss l => map ItemRss l
  end.

(** The manager and what it shares with the page: the connectivity flag,
    the map of last sync times, the pending retry timers in the order they
    were set, the IndexedDB stores ([None] when [DataStorage] is not
    defined on the page) and the log of the remote reads that were started,
    latest first. [requests] has one entry, the URL, for every call of
    [Utils.fetchWithRetry] and for every [fetch] of a feed; one call of
    [Utils.fetchWithRetry] sends up to three requests of its own
    ([Retry.fetchWithRetry] below), which the log does not tell apart. *)
Record World := {
  isOnline : bool;
  lastSyncTimestamps : gmap string Z;
  timers : list RetryTimer;
  storage : option Idb;
  requests : list string;
}.

(** What the environment answers during one call: the readings of the
    clock, whether the loading indicator exists in the document, the outcome
    of each remote read ([None]: the request, its retries or the parsing
    failed) and whether IndexedDB transactions succeed. [now] is the reading
    [const now = Date.now()] of [syncDataType]; the later readings of the
    call are [now_process] (while the answer is processed: [synced],
    [lastUpdated] and the default date of a feed item), [now_write] (in
    [DataStorage.saveEvents] and [saveStations]) and [now_read] (in
    [DataStorage.getEvents] and [getStations]). *)
Record Env := {
  now : Z;
  now_process : Z;
  now_write : Z;
  now_read : Z;
  dom_ok : bool;
  http_events : option (list RawEvent);
  http_stations : option (list RawStation);
  http_rss : string -> option string;
  idb_read_ok : bool;
  idb_write_ok : bool;
}.

(** Methods of the sync manager that match regular expressions: they are
    taken as given. [parseRSSContent] takes the clock (its default for a
    missing date), the content, the source and its index. *)
Class SyncHelpers := {
  extractCity : string -> string;
  parseRSSContent : Z -> string -> string -> Z -> list RssItem;
}.

(** String concatenation and template literals print an absent property as
    [undefined]. *)
Definition print_prop (v : option string) : string :=
  match v with
  | Some s => s
  | None => "undefined"
  end.

(** [location?.gps?.split(',')[i]?.trim() || 0] *)
Definition gps_part `{JsRuntime} (location : option RawLocation) (i : nat) : Coord :=
  match location with
  | Some loc =>
      match gps loc with
      | Text g =>
          match nth_error (Str.split "," g) i with
          | Some part =>
              let t := trim part in
              if String.eqb t "" then CoordZero else CoordText t
          | None => CoordZero
          end
      | _ => CoordZero
      end
  | None => CoordZero
  end.

Module DataSyncManager.

Definition retryConfig : RetryConfig :=
  {| maxRetries := 3; baseDelay := 1000; maxDelay := 30000 |}.

Definition syncConfig (type : EntityType) : SyncConfig :=
  match type with
  | events =>
      {| interval := 5 * 60 * 1000; passiveInterval := 15 * 60 * 1000;
         deltaSync := true; cfg_priority := "high" |}
  | stations =>
      {| interval := 6 * 60 * 60 * 1000; passiveInterval := 24 * 60 * 60 * 1000;
         deltaSync := false; cfg_priority := "low" |}
  | rss =>
      {| interval := 10 * 60 * 1000; passiveInterval := 30 * 60 * 1000;
         deltaSync := true; cfg_priority := "medium" |}
  end.

(** The interval [schedulePeriodicSync] gives the timer of a type:
    [document.hidden ? config.passiveInterval : config.interval]. *)
Definition scheduled_interval (hidden : bool) (type : EntityType) : Z :=
  if hidden then passiveInterval (syncConfig type) else interval (syncConfig type).

Definition default_call : Options :=
  {| opt_priority := None; showLoader := false; force := false; retry := None |}.

(** [{ ...options, retry: attempt }] *)
Definition with_retry (options : Options) (attempt : Z) : Options :=
  {| opt_priority := opt_priority options; showLoader := showLoader options;
     force := force options; retry := Some attempt |}.

(** The composite key of [deduplicateEvents]:
    [`${event.timestamp}-${event.title}-${event.lat}-${event.lng}`]. *)
Definition dedup_key (event : ProcessedEvent) : string :=
  print_field (ev_timestamp event) +:+ "-" +:+ ev_title event +:+ "-" +:+
  coord_toString (ev_lat event) +:+ "-" +:+ coord_toString (ev_lng event).

(** [events.filter(...)] with the map [seen] threaded through the calls
    of the predicate. *)
Fixpoint dedup_from (seen : gset string) (events : list ProcessedEvent)
  : list ProcessedEvent :=
  match events with
  | [] => []
  | event :: rest =>
      let key := dedup_key event in
      if decide (key ∈ seen) then dedup_from seen rest
      else event :: dedup_from ({[key]} ∪ seen) rest
  end.

Definition deduplicateEvents (events : list ProcessedEvent) : list ProcessedEvent :=
  dedup_from ∅ events.

Definition assessDataQuality (title description : option string) (exact : bool)
    (type timestamp : option string) : Quality :=
  let c1 := truthy title && negb (String.eqb (print_prop title) "Ok√§nd h√§ndelse") in
  let c2 := truthy description in
  let c3 := exact in
  let c4 := truthy type && negb (String.eqb (print_prop type) "√ñvrigt") in
  let c5 := truthy timestamp in
  let score :=
    (if c1 then 20 else 0) + (if c2 then 15 else 0) + (if c3 then 25 else 0) +
    (if c4 then 20 else 0) + (if c5 then 20 else 0) in
  {| q_score := score;
     q_grade := if 80 <=? score then "A" else if 60 <=? score then "B"
                else if 40 <=? score then "C" else "D";
     q_issues :=
       (if c1 then [] else ["missing_title"]) ++
       (if c2 then [] else ["missing_description"]) ++
       (if c3 then [] else ["approximate_location"]) ++
       (if c4 then [] else ["missing_type"]) ++
       (if c5 then [] else ["missing_timestamp"]) |}.

(** The delay of [scheduleRetry(type, options, attempt = 1)]. Every call of
    the code passes an [attempt] of at least 1; for a smaller one the delay
    of the code is a fraction of [baseDelay], which [Z] does not hold. *)
Definition retry_delay (attempt : Z) : Z :=
  Z.min (baseDelay retryConfig * 2 ^ (attempt - 1)) (maxDelay retryConfig).

Definition scheduleRetry (type : EntityType) (options : Options) (attempt : Z)
    (w : World) : World :=
  if attempt >? maxRetries retryConfig then w
  else
    {| isOnline := isOnline w;
       lastSyncTimestamps := lastSyncTimestamps w;
       timers := timers w ++
         [{| rt_delay := retry_delay attempt; rt_type := type;
             rt_options := options; rt_attempt := attempt |}];
       storage := storage w;
       requests := requests w |}.

Definition log_request (url : string) (w : World) : World :=
  {| isOnline := isOnline w;
     lastSyncTimestamps := lastSyncTimestamps w;
     timers := timers w;
     storage := storage w;
     requests := url :: requests w |}.

Definition set_timestamp (type : EntityType) (t : Z) (w : World) : World :=
  {| isOnline := isOnline w;
     lastSyncTimestamps := <[type_key type := t]> (lastSyncTimestamps w);
     timers := timers w;
     storage := storage w;
     requests := requests w |}.

Definition set_storage (db : Idb) (w : World) : World :=
  {| isOnline := isOnline w;
     lastSyncTimestamps := lastSyncTimestamps w;
     timers := timers w;
     storage := Some db;
     requests := requests w |}.

(** [this.lastSyncTimestamps.get(type) || 0] *)
Definition lastSync (type : EntityType) (w : World) : Z :=
  default 0 (lastSyncTimestamps w !! type_key type).

Section WithPage.
Context `{JsRuntime} `{SyncHelpers}.

(** [processEventData(rawEvent)]; [synced] is its reading of the clock.
    [None]: the call throws, or its result is not a [ProcessedEvent].
    - It throws for a record without a truthy [id]: [Utils.generateId] is
      not defined anywhere in the program, so the call of it is a
      [TypeError].
    - It throws when [calculateSeverity] does, for a [null] type or name.
    - For a type that names a member of [Object.prototype] the
      [severityInfo] of the record is that member, not a severity record;
      the embedding does not follow such a record. *)
Definition processEventData (synced : Z) (rawEvent : RawEvent) : option ProcessedEvent :=
  let location_name :=
    or_else (match raw_location rawEvent with
             | Some loc => field_text (loc_name loc)
             | None => None
             end) "" in
  match raw_id rawEvent with
  | None => None
  | Some i =>
      if i =? 0 then None
      else
        match DataSyncSeverity.calculateSeverity (raw_type rawEvent)
                (raw_name rawEvent) with
        | Some (Own severityInfo) =>
            Some {| ev_id := IdNum i;
                    ev_timestamp := raw_datetime rawEvent;
                    ev_timeMs := field_getTime (raw_datetime rawEvent);
                    ev_title :=
                      or_else (field_text (raw_name rawEvent)) "Ok√§nd h√§ndelse";
                    ev_description := or_else (field_text (raw_summary rawEvent)) "";
                    ev_type := or_else (field_text (raw_type rawEvent)) "√ñvrigt";
                    ev_city := extractCity location_name;
                    ev_address := location_name;
                    ev_lat := gps_part (raw_location rawEvent) 0;
                    ev_lng := gps_part (raw_location rawEvent) 1;
                    ev_exactLocation :=
                      truthy (match raw_location rawEvent with
                              | Some loc => field_text (gps loc)
                              | None => None
                              end);
                    ev_url := raw_url rawEvent;
                    ev_severityInfo := severityInfo;
                    ev_rawData := rawEvent;
                    ev_synced := synced |}
        | _ => None
        end
  end.

(** The filter of a delta sync:
    [new Date(event.datetime).getTime() > sinceTimestamp]. *)
Definition newer_than (sinceTimestamp : Z) (event : RawEvent) : bool :=
  match field_getTime (raw_datetime event) with
  | Some eventTime => sinceTimestamp <? eventTime
  | None => false
  end.

(** [syncEvents(sinceTimestamp = 0)]: [None] when the request, the parsing
    of its answer or the processing of a record throws. *)
Definition syncEvents (e : Env) (sinceTimestamp : Z) (w : World)
  : World * option (list ProcessedEvent) :=
  let w := log_request CONFIG.API_EVENTS w in
  match http_events e with
  | None => (w, None)
  | Some rawEvents =>
      let filteredEvents :=
        if 0 <? sinceTimestamp then List.filter (newer_than sinceTimestamp) rawEvents
        else rawEvents in
      (w, deduplicateEvents <$> mapM (processEventData (now_process e)) filteredEvents)
  end.

(** One station of [syncStations]; [None]: a station without a truthy [id]
    makes the call of [Utils.generateId] throw. *)
Definition processStation (lastUpdated : Z) (station : RawStation) : option Station :=
  match rs_id station with
  | None => None
  | Some i =>
      if i =? 0 then None
      else
        Some {| st_id := IdNum i;
                st_name := rs_name station;
                st_address := rs_address station;
                st_phone := rs_phone station;
                st_email := rs_email station;
                st_lat := match rs_location station with
                          | Some (la, _) => la
                          | None => "0"
                          end;
                st_lng := match rs_location station with
                          | Some (_, lo) => lo
                          | None => "0"
                          end;
                st_services := match rs_services station with
                               | Some l => l
                               | None => []
                               end;
                st_lastUpdated := lastUpdated |}
  end.

Definition syncStations (e : Env) (w : World) : World * option (list Station) :=
  let w := log_request CONFIG.API_STATIONS w in
  match http_stations e with
  | None => (w, None)
  | Some rawStations => (w, mapM (processStation (now_process e)) rawStations)
  end.

(** [syncRSSFeeds()]: every source is requested; a source that fails
    contributes no item. *)
Fixpoint feeds (e : Env) (sources : list string) (index : Z) : list RssItem :=
  match sources with
  | [] => []
  | source :: rest =>
      match http_rss e source with
      | Some content => parseRSSContent (now_process e) content source index
      | None => []
      end ++ feeds e rest (index + 1)
  end.

Definition syncRSSFeeds (e : Env) (w : World) : World * list RssItem :=
  (fold_left (fun w source => log_request source w) CONFIG.RSS_SOURCES w,
   feeds e CONFIG.RSS_SOURCES 0).

(** [getCachedData(type)] *)
Definition getCachedData (e : Env) (type : EntityType) (w : World) : list Item :=
  match storage w with
  | None => []
  | Some db =>
      if negb (idb_read_ok e) then []
      else
        match type with
        | events =>
            map ItemStoredEvent
              (DataStorage.getEvents (now_read e) DataStorage.default_options db)
        | stations =>
            map ItemStoredStation
              (DataStorage.getStations (now_read e) CONFIG.CACHE_DURATION_STATIONS db)
        | rss => []
        end
  end.

Definition station_metadata (syncTime : Z) (prio : string) : SyncMetadata :=
  {| sm_syncTime := syncTime; sm_priority := prio; sm_version := CONFIG.DB_VERSION;
     sm_source := "api";
     sm_quality := assessDataQuality None None false None None |}.

(** [saveDataWithMetadata(type, data, metadata)]: [None] when the write
    throws. [DataStorage.saveEvents] copies the fields it names, so the
    metadata of an event is not stored. *)
Definition saveDataWithMetadata (e : Env) (data : Fetched) (syncTime : Z)
    (prio : string) (w : World) : option World :=
  match storage w with
  | None => Some w
  | Some db =>
      match data with
      | FetchedEvents l =>
          if idb_write_ok e
          then Some (set_storage (DataStorage.saveEvents (now_write e) l db) w)
          else None
      | FetchedStations l =>
          if idb_write_ok e
          then Some (set_storage
                       (DataStorage.saveStations (now_write e)
                          (map (fun s => (s, station_metadata syncTime prio)) l) db) w)
          else None
      | FetchedRss _ => Some w
      end
  end.

(** The [switch] of [syncDataType]: [None] when the branch throws. *)
Definition fetch_type (e : Env) (type : EntityType) (lastSync : Z) (w : World)
  : World * option Fetched :=
  match type with
  | events =>
      let r := syncEvents e (if deltaSync (syncConfig type) then lastSync else 0) w in
      (fst r, FetchedEvents <$> snd r)
  | stations =>
      let r := syncStations e w in
      (fst r, FetchedStations <$> snd r)
  | rss =>
      let r := syncRSSFeeds e w in
      (fst r, Some (FetchedRss (snd r)))
  end.

(** [syncDataType(type, options = {})] *)
Definition syncDataType (e : Env) (type : EntityType) (options : Options) (w : World)
  : World * Outcome :=
  if negb (isOnline w) && negb (force options) then
    (w, Returned (getCachedData e type w))
  else
    let config := syncConfig type in
    let lastSync := lastSync type w in
    let now := now e in
    if negb (force options) && (now - lastSync <? interval config) then
      (w, Returned (getCachedData e type w))
    else if showLoader options && negb (dom_ok e) then
      (w, Threw)
    else
      let catch (w : World) : World * Outcome :=
        let w := scheduleRetry type options 1 w in
        (w, Returned (getCachedData e type w)) in
      match fetch_type e type lastSync w with
      | (w, Some data) =>
          let w := set_timestamp type now w in
          match saveDataWithMetadata e data now
                  (default "normal" (opt_priority options)) w with
          | Some w => (w, Returned (fetched_items data))
          | None => catch w
          end
      | (w, None) => catch w
      end.

(** [syncDataType] is an [async] function: a call that got past its checks
    starts its remote read and waits for it; until the read has settled
    other calls may run. [InFlight] is such a waiting call: its arguments
    and the constants [lastSync] and [now] that it read before the
    [await]. *)
Record InFlight := {
  fl_type : EntityType;
  fl_options : Options;
  fl_lastSync : Z;
  fl_now : Z;
}.

(** [syncDataType] up to the [await] of its remote read: the call has
    returned or thrown, or it has started the read and waits. *)
Definition syncDataType_start (e : Env) (type : EntityType) (options : Options)
    (w : World) : World * (Outcome + InFlight) :=
  if negb (isOnline w) && negb (force options) then
    (w, inl (Returned (getCachedData e type w)))
  else
    let config := syncConfig type in
    let lastSync := lastSync type w in
    let now := now e in
    if negb (force options) && (now - lastSync <? interval config) then
      (w, inl (Returned (getCachedData e type w)))
    else if showLoader options && negb (dom_ok e) then
      (w, inl Threw)
    else
      (fst (fetch_type e type lastSync w),
       inr {| fl_type := type; fl_options := options;
              fl_lastSync := lastSync; fl_now := now |}).

(** [syncDataType] from the settled read to its end, in the world as the
    other calls have left it; [e] is what the environment answers to this
    call. The read has given the data that [fetch_type] returns or has
    thrown; the call sets the last sync time to the [now] it read at its
    start. *)
Definition syncDataType_settle (e : Env) (call : InFlight) (w : World)
  : World * Outcome :=
  let type := fl_type call in
  let options := fl_options call in
  let catch (w : World) : World * Outcome :=
    let w := scheduleRetry type options 1 w in
    (w, Returned (getCachedData e type w)) in
  match snd (fetch_type e type (fl_lastSync call) w) with
  | Some data =>
      let w := set_timestamp type (fl_now call) w in
      match saveDataWithMetadata e data (fl_now call)
              (default "normal" (opt_priority options)) w with
      | Some w => (w, Returned (fetched_items data))
      | None => catch w
      end
  | None => catch w
  end.

(** The callback of the timer that [scheduleRetry] sets. *)
Definition retry_callback (e : Env) (t : RetryTimer) (w : World) : World :=
  match syncDataType e (rt_type t) (with_retry (rt_options t) (rt_attempt t)) w with
  | (w, Returned _) => w
  | (w, Threw) => scheduleRetry (rt_type t) (rt_options t) (rt_attempt t + 1) w
  end.

(** The oldest pending timer fires. *)
Definition fire_timer (e : Env) (w : World) : World :=
  match timers w with
  | [] => w
  | t :: rest =>
      retry_callback e t
        {| isOnline := isOnline w;
           lastSyncTimestamps := lastSyncTimestamps w;
           timers := rest;
           storage := storage w;
           requests := requests w |}
  end.

End WithPage.

End DataSyncManager.

(** ** The service worker (sw.js)

    The embedding follows the first script of [sw.js], version 1.2 of the
    caches. *)

Record Request := {
  method : string;
  url : string;
  accept : option string;
}.

Record Response := {
  status : Z;
  statusText : string;
  headers : gmap string string;
  body : string;
}.

(** [Number.parseInt] of a header value. *)
Module ParseInt.

Definition digit (radix : Z) (c : ascii) : option Z :=
  let n := Z.of_nat (nat_of_ascii c) in
  let d :=
    if (48 <=? n) && (n <=? 57) then Some (n - 48)
    else if (97 <=? n) && (n <=? 122) then Some (n - 87)
    else if (65 <=? n) && (n <=? 90) then Some (n - 55)
    else None in
  match d with
  | Some v => if v <? radix then Some v else None
  | None => None
  end.

(** The value of the longest prefix of digits; [acc] is [None] until a
    digit has been read. *)
Fixpoint digits (radix : Z) (s : string) (acc : option Z) : option Z :=
  match s with
  | EmptyString => acc
  | String c rest =>
      match digit radix c with
      | Some d => digits radix rest (Some (default 0 acc * radix + d))
      | None => acc
      end
  end.

Definition unsigned (s : string) : option Z :=
  match s with
  | String "0" (String "x" rest) => digits 16 rest None
  | String "0" (String "X" rest) => digits 16 rest None
  | _ => digits 10 s None
  end.

Definition parseInt (s : string) : option Z :=
  match Str.drop_spaces s with
  | String "-" rest => Z.opp <$> unsigned rest
  | String "+" rest => unsigned rest
  | t => unsigned t
  end.

End ParseInt.

Record Caches := {
  static_cache : gmap string Response;
  data_cache : gmap string Response;
}.

Module ServiceWorker.

Definition API_ENDPOINTS : list string := ["polisen.se/api/"; "allorigins.win/get"].

Definition CACHE_DURATION_STATIC : Z := 7 * 24 * 60 * 60 * 1000.
Definition CACHE_DURATION_API_DATA : Z := 30 * 60 * 1000.
Definition CACHE_DURATION_RSS_FEED : Z := 60 * 60 * 1000.

Definition isApiRequest (url : string) : bool :=
  existsb (fun endpoint => Str.includes url endpoint) API_ENDPOINTS.

(** [new Response(r.body, { status, statusText,
    headers: { ...Object.fromEntries(r.headers), [name]: value } })] *)
Definition with_header (name value : string) (r : Response) : Response :=
  {| status := status r; statusText := statusText r;
     headers := <[name := value]> (headers r); body := body r |}.

(** [parseInt(response.headers.get('sw-cache-timestamp') || '0')] *)
Definition cache_timestamp (r : Response) : option Z :=
  ParseInt.parseInt
    (or_else (headers r !! "sw-cache-timestamp") "0").

(** [age > ttl] for [age = Date.now() - cacheTimestamp]; a comparison
    with [NaN] is false. *)
Definition age_gt (now : Z) (r : Response) (ttl : Z) : bool :=
  match cache_timestamp r with
  | Some t => ttl <? now - t
  | None => false
  end.

Definition age_lt (now : Z) (r : Response) (ttl : Z) : bool :=
  match cache_timestamp r with
  | Some t => now - t <? ttl
  | None => false
  end.

Section WithPage.
(** The text of [createOfflineHTML()]. *)
Variable createOfflineHTML : string.

(** [createOfflineFallback(request)]: [None] when it throws, which it
    does on reading [includes] of a missing [accept] header. A response
    made of a string without [Content-Type] gets the one of plain text. *)
Definition createOfflineFallback (request : Request) : option Response :=
  if isApiRequest (url request) then
    Some {| status := 200; statusText := "OK (Offline)";
            headers := {[ "Content-Type" := "application/json";
                          "sw-cache-status" := "offline-fallback" ]};
            body := "[]" |}
  else
    match accept request with
    | None => None
    | Some a =>
        if Str.includes a "text/html" then
          Some {| status := 200; statusText := "OK (Offline)";
                  headers := {[ "Content-Type" := "text/html";
                                "sw-cache-status" := "offline-fallback" ]};
                  body := createOfflineHTML |}
        else
          Some {| status := 503; statusText := "Service Unavailable (Offline)";
                  headers := {[ "content-type" := "text/plain;charset=UTF-8";
                                "sw-cache-status" := "offline-fallback" ]};
                  body := "Offline - Innehåll ej tillgängligt" |}
    end.

(** [networkFirstStrategy(request)]. [net] is what [fetch] gives: a
    response, or [None] when it rejects. The result is the data cache
    afterwards and the response, [None] when the promise rejects. *)
Definition networkFirstStrategy (now : Z) (net : option Response)
    (request : Request) (c : Caches) : Caches * option Response :=
  let catch :=
    match data_cache c !! url request with
    | Some cachedResponse =>
        (c, Some (with_header "sw-cache-status"
                    (if age_gt now cachedResponse CACHE_DURATION_API_DATA
                     then "cache-stale" else "cache-fresh")
                    cachedResponse))
    | None => (c, createOfflineFallback request)
    end in
  match net with
  | Some networkResponse =>
      if status networkResponse =? 200 then
        ({| static_cache := static_cache c;
            data_cache := <[url request := networkResponse]> (data_cache c) |},
         Some (with_header "sw-cache-timestamp" (pretty now)
                 (with_header "sw-cache-status" "network-fresh" networkResponse)))
      else catch
  | None => catch
  end.


(** [cacheFirstStrategy(request)]; [online] is [navigator.onLine]. *)
Definition cacheFirstStrategy (now : Z) (online : bool) (net : option Response)
    (request : Request) (c : Caches) : Caches * option Response :=
  let cachedResponse := static_cache c !! url request in
  let network :=
    match net with
    | None => (c, createOfflineFallback request)
    | Some networkResponse =>
        if status networkResponse =? 200 then
          ({| static_cache :=
                <[url request :=
                    with_header "sw-cache-timestamp" (pretty now) networkResponse]>
                  (static_cache c);
              data_cache := data_cache c |},
           Some (with_header "sw-cache-status" "network-fresh" networkResponse))
        else
          match cachedResponse with
          | Some r => (c, Some (with_header "sw-cache-status" "cache-fallback" r))
          | None => (c, createOfflineFallback request)
          end
    end in
  match cachedResponse with
  | Some r =>
      if age_lt now r CACHE_DURATION_STATIC || negb online
      then (c, Some (with_header "sw-cache-status" "cache-hit" r))
      else network
  | None => network
  end.

(** The [fetch] listener: [None] when it leaves the request to the
    browser. *)
Definition on_fetch (now : Z) (online : bool) (net : option Response)
    (request : Request) (c : Caches) : option (Caches * option Response) :=
  if negb (String.eqb (method request) "GET") ||
     String.prefix "chrome-extension:" (url request)
  then None
  else if isApiRequest (url request)
  then Some (networkFirstStrategy now net request c)
  else Some (cacheFirstStrategy now online net request c).

End WithPage.

(** [cleanupExpiredCaches()]: the caches afterwards and [cleanedCount]. *)
Definition cleanupExpiredCaches (now : Z) (c : Caches) : Caches * Z :=
  let old (r : Response) : bool := age_gt now r (7 * 24 * 60 * 60 * 1000) in
  ({| static_cache := static_cache c;
      data_cache := filter (fun kv => old (snd kv) = false) (data_cache c) |},
   Z.of_nat (size (filter (fun kv => old (snd kv) = true) (data_cache c)))).

End ServiceWorker.

(** * Predicates of the statements *)

(** [s] contains the character [c]. *)
Definition has_char (c : ascii) (s : string) : bool :=
  existsb (Ascii.eqb c) (Str.chars s).

(** [event] has the composite key [k]. *)
Definition has_key (k : string) (event : ProcessedEvent) : bool :=
  String.eqb (DataSyncManager.dedup_key event) k.

(** The records of a list are in descending order of [timeMs]. *)
Definition descending {A} (timeMs : A -> Z) (l : list A) : Prop :=
  StronglySorted (fun a b => timeMs b <= timeMs a) l.

(** Every record of the stores carries the time stamp [cached] that
    [saveEvents] and [saveStations] give it from a clock that is not at the
    epoch. *)
Definition stamped (db : Idb) : Prop :=
  (forall r, In r (events_store db) -> se_cached r <> 0) /\
  (forall r, In r (stations_store db) -> ss_cached r <> 0).

(** The retention ceiling of [cleanup]. *)
Definition RETENTION : Z := 7 * 24 * 60 * 60 * 1000.

(** A record written at [cached] is older than [age] at [now]. *)
Definition older_than (now cached age : Z) : Prop := age < now - cached.

(** The timer of a first retry. *)
Definition first_retry (type : EntityType) (options : Options) : RetryTimer :=
  {| rt_delay := 1000; rt_type := type; rt_options := options; rt_attempt := 1 |}.

(** The delays of the timers pending in a world. *)
Definition pending_delays (w : World) : list Z := map rt_delay (timers w).

(** The attempts of the timers pending in a world. *)
Definition pending_attempts (w : World) : list Z := map rt_attempt (timers w).

(** Two worlds agree on everything but the log of requests. *)
Definition same_state (w w' : World) : Prop :=
  isOnline w' = isOnline w /\ lastSyncTimestamps w' = lastSyncTimestamps w /\
  timers w' = timers w /\ storage w' = storage w.

(** The label of a response. *)
Definition cache_status (r : Response) : option string :=
  headers r !! "sw-cache-status".

(** [fetch] did not give a response with status 200. *)
Definition network_failed (net : option Response) : Prop :=
  match net with
  | Some r => status r <> 200
  | None => True
  end.

(** A sequence of calls of [syncDataType] that run one after the other,
    each with what the environment answers during it: a call has settled
    before the next one starts. The manager has no guard against a second
    call while one is in flight; calls that overlap at their [await]s are
    not runs of this kind: they are sequences of
    [DataSyncManager.syncDataType_start] and
    [DataSyncManager.syncDataType_settle]. *)
Fixpoint run `{JsRuntime} `{SyncHelpers} (calls : list (Env * EntityType * Options))
    (w : World) : World :=
  match calls with
  | [] => w
  | (e, type, options) :: rest =>
      run rest (fst (DataSyncManager.syncDataType e type options w))
  end.

(** The clock readings of the calls do not go backwards, starting from
    [t]. *)
Fixpoint clock_from (t : Z) (calls : list (Env * EntityType * Options)) : Prop :=
  match calls with
  | [] => True
  | (e, _, _) :: rest => t <= now e /\ clock_from (now e) rest
  end.

(** * Worked inputs *)

(** A clock reading: 2023-11-14T22:13:20Z. *)
Definition example_now : Z := 1700000000000.

Definition example_stored (id cached : Z) : StoredEvent :=
  {| se_id := IdNum id; se_timeMs := Some cached; se_timestamp := Absent;
     se_type := "Brand"; se_title := "Brand, Stockholm"; se_description := "";
     se_city := "Stockholm"; se_address := "Stockholm";
     se_lat := CoordText "59.329324"; se_lng := CoordText "18.068581";
     se_exactLocation := true;
     se_severityInfo := {| level := 4; priority := "critical"; color := "#b91c1c" |};
     se_severityLevel := 4; se_url := Absent; se_cached := cached |}.

(** A store with an event cached eight days before [example_now] and one
    cached an hour before it. *)
Definition example_db : Idb :=
  {| events_store :=
       [ example_stored 1 (example_now - 8 * DAY);
         example_stored 2 (example_now - 60 * 60 * 1000) ];
     stations_store := [] |}.

#[export] Instance example_helpers : SyncHelpers := {|
  extractCity := fun s => s;
  parseRSSContent := fun _ _ _ _ => [];
|}.

Definition example_raw (id : Z) (datetime name type : string) : RawEvent :=
  {| raw_id := Some id; raw_datetime := Text datetime; raw_name := Text name;
     raw_title := Absent; raw_summary := Absent; raw_description := Absent;
     raw_type := Text type; raw_url := Absent;
     raw_location := Some {| loc_name := Text "Stockholm";
                             gps := Text "59.329324,18.068581" |} |}.

Definition raw_older : RawEvent :=
  example_raw 1 "1970-01-01T00:00:01Z" "Trafikolycka, Stockholm" "Trafikolycka".

Definition raw_newer : RawEvent :=
  example_raw 2 "1970-01-01T00:00:02Z" "Brand, Stockholm" "Brand".

(** An online manager that has not synced yet, on a page with an empty
    store. *)
Definition world_online : World :=
  {| isOnline := true; lastSyncTimestamps := ∅; timers := [];
     storage := Some {| events_store := []; stations_store := [] |};
     requests := [] |}.


(** The manager is offline; the page holds the worked store. *)
Definition world_offline : World :=
  {| isOnline := false; lastSyncTimestamps := ∅; timers := [];
     storage := Some example_db; requests := [] |}.

(** The manager is online and synced the events ten minutes ago. *)
Definition world_recent : World :=
  {| isOnline := true;
     lastSyncTimestamps := {[ "events" := example_now - 10 * 60 * 1000 ]};
     timers := [];
     storage := Some {| events_store := []; stations_store := [] |};
     requests := [] |}.

(** The manager is online and synced the events an hour ago. *)
Definition world_stale : World :=
  {| isOnline := true;
     lastSyncTimestamps := {[ "events" := example_now - 60 * 60 * 1000 ]};
     timers := [];
     storage := Some {| events_store := []; stations_store := [] |};
     requests := [] |}.

(** The endpoint answers, and the IndexedDB transaction of the write
    fails. *)
Definition env_write_fails : Env :=
  {| now := example_now; now_process := example_now; now_write := example_now;
     now_read := example_now; dom_ok := true;
     http_events := Some [raw_older; raw_newer];
     http_stations := Some [];
     http_rss := fun _ => None;
     idb_read_ok := true; idb_write_ok := false |}.

(** Everything works, at the clock reading [t]. *)
Definition env_healthy (t : Z) : Env :=
  {| now := t; now_process := t; now_write := t; now_read := t; dom_ok := true;
     http_events := Some [raw_older; raw_newer];
     http_stations := Some [];
     http_rss := fun _ => None;
     idb_read_ok := true; idb_write_ok := true |}.

(** The network is down, at the clock reading [t]. *)
Definition env_down (t : Z) : Env :=
  {| now := t; now_process := t; now_write := t; now_read := t; dom_ok := true;
     http_events := None;
     http_stations := None;
     http_rss := fun _ => None;
     idb_read_ok := true; idb_write_ok := true |}.

(** The world after a sync of the events, an hour after the last one, whose
    write to the store failed. *)
Definition world_failed_save : World :=
  fst (DataSyncManager.syncDataType env_write_fails events
         DataSyncManager.default_call world_stale).

(** Consecutive failures: a sync of the events with the network down, then
    its retry timers firing one after the other with the network still
    down. *)
Fixpoint world_failure (n : nat) : World :=
  match n with
  | O =>
      fst (DataSyncManager.syncDataType (env_down example_now) events
             DataSyncManager.default_call world_stale)
  | S m =>
      DataSyncManager.fire_timer (env_down (example_now + 1000 * Z.of_nat n))
        (world_failure m)
  end.

Definition api_request : Request :=
  {| method := "GET"; url := "https://polisen.se/api/events";
     accept := Some "application/json" |}.

Definition ok_response : Response :=
  {| status := 200; statusText := "OK";
     headers := {[ "content-type" := "application/json" ]};
     body := "[{}]" |}.

Definition empty_caches : Caches := {| static_cache := ∅; data_cache := ∅ |}.

(** * More of Utils (js/app.js) *)

(** What one [fetch] inside [fetchWithRetry] gives: a response, or an error
    (the network failed, or the request was aborted after 15 seconds). *)
Inductive FetchAttempt :=
| AttemptResponse (r : Response)
| AttemptError (message : string).

(** [response.ok] *)
Definition response_ok (r : Response) : bool :=
  (200 <=? status r) && (status r <=? 299).

(** What a call of [fetchWithRetry] did: the response it returned or the
    error it threw ([None] is [undefined], thrown when the loop did not run),
    the number of requests it made and the delays it waited, in order. *)
Record FetchRun := {
  fr_result : Response + option string;
  fr_attempts : nat;
  fr_delays : list Z;
}.

Module Retry.

(** The error of an attempt: the one [fetch] threw, or the one thrown for a
    response that is not [ok]. *)
Definition attempt_error (a : FetchAttempt) : option string :=
  match a with
  | AttemptResponse r =>
      if response_ok r then None
      else Some ("HTTP " +:+ pretty (status r) +:+ ": " +:+ statusText r)
  | AttemptError message => Some message
  end.

(** [Math.min(1000 * Math.pow(2, i) + Math.random() * 1000, 10000)] as the
    timer takes it, in whole milliseconds; [jitter] is the integer part of
    [Math.random() * 1000]. *)
Definition backoff (i : nat) (jitter : Z) : Z :=
  Z.min (1000 * 2 ^ Z.of_nat i + jitter) 10000.

(** The loop [for (let i = 0; i < maxRetries; i++)] from [i] on, with
    [remaining = maxRetries - i]. [outcome i] is what the request of round
    [i] gives and [jitter i] the random part of the wait after it. *)
Fixpoint loop (outcome : nat -> FetchAttempt) (jitter : nat -> Z)
    (remaining i : nat) (lastError : option string) : FetchRun :=
  match remaining with
  | O => {| fr_result := inr lastError; fr_attempts := 0; fr_delays := [] |}
  | S remaining' =>
      match outcome i, attempt_error (outcome i) with
      | AttemptResponse r, None =>
          {| fr_result := inl r; fr_attempts := 1; fr_delays := [] |}
      | _, error =>
          let rest := loop outcome jitter remaining' (S i) error in
          {| fr_result := fr_result rest;
             fr_attempts := S (fr_attempts rest);
             fr_delays :=
               match remaining' with
               | O => fr_delays rest
               | S _ => backoff i (jitter i) :: fr_delays rest
               end |}
      end
  end.

(** [fetchWithRetry(url, options = {}, maxRetries = 3)] *)
Definition fetchWithRetry (outcome : nat -> FetchAttempt) (jitter : nat -> Z)
    (maxRetries : nat) : FetchRun :=
  loop outcome jitter maxRetries 0 None.

(** The function that [throttle(func, delay)] returns, called at the clock
    reading [now]: whether [func] runs, and [lastCall] afterwards. *)
Definition throttled (delay now lastCall : Z) : bool * Z :=
  if delay <=? now - lastCall then (true, now) else (false, lastCall).

(** The clock readings at which [func] ran, for calls of the throttled
    function at the readings [calls]. *)
Fixpoint throttle_runs (delay lastCall : Z) (calls : list Z) : list Z :=
  match calls with
  | [] => []
  | now :: rest =>
      if fst (throttled delay now lastCall)
      then now :: throttle_runs delay (snd (throttled delay now lastCall)) rest
      else throttle_runs delay (snd (throttled delay now lastCall)) rest
  end.

End Retry.

Module StableId.

(** [ToInt32]: the value modulo 2^32, as a signed 32-bit integer. *)
Definition toInt32 (x : Z) : Z :=
  let m := x mod 2 ^ 32 in
  if m <? 2 ^ 31 then m else m - 2 ^ 32.

(** One round of the loop of [generateStableId]:
    [hash = ((hash << 5) - hash) + char; hash = hash & hash]. *)
Definition hash_step (hash char : Z) : Z :=
  toInt32 (toInt32 (hash * 32) - hash + char).

(** The hash of a string, given by its code units [str.charCodeAt(i)]. *)
Definition hash_codes (codes : list Z) : Z := fold_left hash_step codes 0.

Definition digit36 (d : Z) : ascii :=
  if d <? 10 then ascii_of_nat (Z.to_nat (48 + d))
  else ascii_of_nat (Z.to_nat (87 + d)).

Fixpoint base36_go (fuel : nat) (n : Z) (acc : string) : string :=
  match fuel with
  | O => acc
  | S fuel' =>
      let acc' := String (digit36 (n mod 36)) acc in
      if n / 36 =? 0 then acc' else base36_go fuel' (n / 36) acc'
  end.

(** [n.toString(36)] for an integer [0 <= n < 36^7], which covers the
    absolute value of a 32-bit integer. *)
Definition toString36 (n : Z) : string := base36_go 7 n "".

(** [generateStableId(obj)] from the code units of
    [JSON.stringify(obj, Object.keys(obj).sort())] and the clock:
    [`id_${Math.abs(hash).toString(36)}_${Date.now()}`]. *)
Definition generateStableId (codes : list Z) (now : Z) : string :=
  "id_" +:+ toString36 (Z.abs (hash_codes codes)) +:+ "_" +:+ pretty now.

(** The polynomial in 31 of the code units, the first one weighing most. *)
Fixpoint poly31 (acc : Z) (codes : list Z) : Z :=
  match codes with
  | [] => acc
  | c :: rest => poly31 (31 * acc + c) rest
  end.

End StableId.

(** Consecutive readings of [l] are at least [delay] apart, the first one
    from [prev]. *)
Fixpoint spaced (delay prev : Z) (l : list Z) : Prop :=
  match l with
  | [] => True
  | t :: rest => delay <= t - prev /\ spaced delay t rest
  end.

(** Every attempt before round [k] fails. *)
Definition fails_before (outcome : nat -> FetchAttempt) (k : nat) : Prop :=
  forall j, (j < k)%nat -> Retry.attempt_error (outcome j) <> None.

(** The random part of every wait is within a second. *)
Definition jitter_ok (jitter : nat -> Z) : Prop :=
  forall i, 0 <= jitter i < 1000.

(** Worked outcomes: the first two requests fail, the third is answered. *)
Definition outcome_third_ok (i : nat) : FetchAttempt :=
  match i with
  | 0%nat => AttemptError "Failed to fetch"
  | 1%nat =>
      AttemptResponse {| status := 503; statusText := "Service Unavailable";
                         headers := ∅; body := "" |}
  | _ => AttemptResponse ok_response
  end.

(** Worked outcomes: every request fails. *)
Definition outcome_down (i : nat) : FetchAttempt := AttemptError "Failed to fetch".

Definition jitter_half (i : nat) : Z := 500.

(** * Predicates on the object stores *)

Definition id_lt (a b : Id) : Prop := id_ltb a b = true.

(** The records of an object store are in strictly ascending order of
    their keys, as IndexedDB holds them. *)
Definition keys_sorted {A} (key : A -> Id) (store : list A) : Prop :=
  StronglySorted (fun x y => id_lt (key x) (key y)) store.

(** The empty database. *)
Definition empty_db : Idb := {| events_store := []; stations_store := [] |}.

(** A processed event of the worked examples, with the id [id]. *)
Definition example_event (id : Z) (title : string) : ProcessedEvent :=
  {| ev_id := IdNum id; ev_timestamp := Text "1970-01-01T00:00:01Z";
     ev_timeMs := Some 1000; ev_title := title; ev_description := "";
     ev_type := "Brand"; ev_city := "Stockholm"; ev_address := "Stockholm";
     ev_lat := CoordText "59.329324"; ev_lng := CoordText "18.068581";
     ev_exactLocation := true; ev_url := Absent;
     ev_severityInfo := {| level := 4; priority := "critical"; color := "#b91c1c" |};
     ev_rawData := raw_older; ev_synced := example_now |}.

(** A store after a first write of the event with id 7. *)
Definition db_first_write : Idb :=
  DataStorage.saveEvents (example_now - 1000) [example_event 7 "first"] empty_db.

(** Every stored event has a numeric [timeMs]. *)
Definition times_numeric (db : Idb) : Prop :=
  forall r, In r (events_store db) -> se_timeMs r <> None.

(** [timeMs] of a stored event, [0] standing for [NaN]. *)
Definition stored_time (r : StoredEvent) : Z := default 0 (se_timeMs r).

(** The optional filters of [getEvents], on one record. *)
Definition matches_filters `{JsRuntime} (o : GetOptions) (r : StoredEvent) : Prop :=
  match severityLevel o with
  | Some l => l = 0 \/ se_severityLevel r = l
  | None => True
  end /\
  match city o with
  | Some c => c = "" \/ Str.includes (toLowerCase (se_city r)) (toLowerCase c) = true
  | None => True
  end /\
  match exactLocation o with
  | Some b => se_exactLocation r = b
  | None => True
  end.

(** Options of a read: critical events with an exact location, at most
    ten. *)
Definition example_options : GetOptions :=
  {| maxAge := CONFIG.CACHE_DURATION_EVENTS; limit := 10;
     severityLevel := Some 4; city := Some "stock"; exactLocation := Some true |}.

(** * Predicates on calls of the sync manager *)

(** The remote reads that a sync of a type starts, by their URLs, latest
    first: one read ([Utils.fetchWithRetry]) of the endpoint of the events
    or of the stations, one [fetch] for each feed. *)
Definition endpoint_urls (type : EntityType) : list string :=
  match type with
  | events => [CONFIG.API_EVENTS]
  | stations => [CONFIG.API_STATIONS]
  | rss => rev CONFIG.RSS_SOURCES
  end.

(** A call of [syncDataType] gets past its checks: it is forced, or the
    manager is online and the last sync is an interval ago; and the loading
    indicator, when asked for, is there. *)
Definition reaches_network (e : Env) (type : EntityType) (options : Options)
    (w : World) : Prop :=
  (force options = true \/
   (isOnline w = true /\
    interval (DataSyncManager.syncConfig type) <=
      now e - DataSyncManager.lastSync type w)) /\
  (showLoader options = false \/ dom_ok e = true).

(** The points that [assessDataQuality] gives for the check whose failure
    it lists as [issue]. *)
Definition issue_weight (issue : string) : Z :=
  if String.eqb issue "missing_title" then 20
  else if String.eqb issue "missing_description" then 15
  else if String.eqb issue "approximate_location" then 25
  else if String.eqb issue "missing_type" then 20
  else if String.eqb issue "missing_timestamp" then 20
  else 0.

Definition issues_weight (issues : list string) : Z :=
  fold_right (fun issue acc => issue_weight issue + acc) 0 issues.

(** A forced call, as [syncAll('immediate')] makes it. *)
Definition forced_call : Options :=
  {| opt_priority := Some "immediate"; showLoader := false; force := true;
     retry := None |}.

(** Two calls for the events: one with the network down, and a forced one a
    second later that succeeds. *)
Definition example_calls : list (Env * EntityType * Options) :=
  [ (env_down example_now, events, DataSyncManager.default_call);
    (env_healthy (example_now + 1000), events, forced_call) ].

(** * The timers of the sync manager *)

(** The periodic timers: the map [syncIntervals] of the manager (type to
    interval id), the intervals that run in the browser (id to the type
    their callback syncs and their period) and the id that the next
    [setInterval] returns. *)
Record Scheduler := {
  syncIntervals : gmap string Z;
  live : gmap Z (EntityType * Z);
  next_id : Z;
}.

Module Periodic.

(** [schedulePeriodicSync(type)]; [hidden] is [document.hidden]. *)
Definition schedulePeriodicSync (hidden : bool) (type : EntityType) (s : Scheduler)
  : Scheduler :=
  let interval := DataSyncManager.scheduled_interval hidden type in
  let cleared :=
    match syncIntervals s !! type_key type with
    | Some old => delete old (live s)
    | None => live s
    end in
  let intervalId := next_id s in
  {| syncIntervals := <[type_key type := intervalId]> (syncIntervals s);
     live := <[intervalId := (type, interval)]> cleared;
     next_id := intervalId + 1 |}.

(** [startPeriodicSync()]: [Object.keys(this.syncConfig).forEach(...)]. *)
Definition startPeriodicSync (hidden : bool) (s : Scheduler) : Scheduler :=
  fold_left (fun s type => schedulePeriodicSync hidden type s) [events; stations; rss] s.

(** [pauseSync()]: every recorded interval is cleared, then the map. *)
Definition pauseSync (s : Scheduler) : Scheduler :=
  {| syncIntervals := ∅;
     live := fold_right (fun entry running => delete (snd entry) running) (live s)
               (map_to_list (syncIntervals s));
     next_id := next_id s |}.

(** What the handlers of the manager do to the timers: [initialize],
    [resumeSync], [switchToActiveMode] and [switchToPassiveMode] start the
    periodic syncs with the visibility of that moment; the [offline]
    handler pauses. *)
Inductive Op :=
| Start (hidden : bool)
| Pause.

Definition step (s : Scheduler) (op : Op) : Scheduler :=
  match op with
  | Start hidden => startPeriodicSync hidden s
  | Pause => pauseSync s
  end.

(** The manager when it is constructed. *)
Definition initial : Scheduler := {| syncIntervals := ∅; live := ∅; next_id := 1 |}.

Definition after (ops : list Op) : Scheduler := fold_left step ops initial.

End Periodic.

(** Every running interval is recorded in [syncIntervals] under the type it
    syncs, recorded ids are below the next id, and no id is recorded
    twice. *)
Definition timers_recorded (s : Scheduler) : Prop :=
  (forall id v, live s !! id = Some v ->
                syncIntervals s !! type_key (fst v) = Some id) /\
  (forall k id, syncIntervals s !! k = Some id -> id < next_id s) /\
  (forall k k' id, syncIntervals s !! k = Some id -> syncIntervals s !! k' = Some id ->
                   k = k').

(** * More of the service worker (sw.js) *)

Module BackgroundSync.

Definition apiUrls : list string :=
  [ "https://polisen.se/api/events"; "https://polisen.se/api/policestations" ].

(** One turn of the loop of [syncPoliceData]: [fetch] is rejected
    ([None]), or answers at time [now]; an answer that is [ok] is put under
    the URL with its [sw-cache-timestamp]. *)
Definition sync_url (fetch : string -> Z * option Response) (c : Caches)
    (url : string) : Caches :=
  match fetch url with
  | (now, Some response) =>
      if response_ok response then
        {| static_cache := static_cache c;
           data_cache :=
             <[url := ServiceWorker.with_header "sw-cache-timestamp" (pretty now)
                        response]> (data_cache c) |}
      else c
  | (_, None) => c
  end.

(** [syncPoliceData()] *)
Definition syncPoliceData (fetch : string -> Z * option Response) (c : Caches)
  : Caches :=
  fold_left (sync_url fetch) apiUrls c.

End BackgroundSync.

(** A decimal numeral. *)
Definition is_decimal (c : ascii) : bool :=
  let n := nat_of_ascii c in ((48 <=? n) && (n <=? 57))%nat.

Fixpoint all_decimal (s : string) : bool :=
  match s with
  | EmptyString => true
  | String c rest => is_decimal c && all_decimal rest
  end.

Definition static_request : Request :=
  {| method := "GET"; url := "https://aktuellabrott.se/css/styles.css";
     accept := Some "text/css" |}.

Definition example_fetch (url : string) : Z * option Response :=
  (example_now, Some ok_response).

(** * PoliceStation.categorizeServices (js/app.js) *)

Inductive Category := Emergency | Administrative | Specialized | Public.

Record Categories := {
  emergency : list string;
  administrative : list string;
  specialized : list string;
  public : list string;
}.

Module PoliceStationServices.

Definition serviceMapping : list (Category * list string) :=
  [ (Emergency, ["akut"; "jourhavande"; "larmcentral"; "beredskap"]);
    (Administrative, ["pass"; "tillst√•nd"; "anm√§lan"; "administration"]);
    (Specialized, ["trafikpolis"; "kriminalpolis"; "narkotika"; "ekonomisk"]);
    (Public, ["reception"; "allm√§n"; "bes√∂k"; "information"]) ].

(** [categories[category].push(service)] *)
Definition push (category : Category) (service : string) (categories : Categories)
  : Categories :=
  match category with
  | Emergency =>
      {| emergency := emergency categories ++ [service];
         administrative := administrative categories;
         specialized := specialized categories; public := public categories |}
  | Administrative =>
      {| emergency := emergency categories;
         administrative := administrative categories ++ [service];
         specialized := specialized categories; public := public categories |}
  | Specialized =>
      {| emergency := emergency categories;
         administrative := administrative categories;
         specialized := specialized categories ++ [service];
         public := public categories |}
  | Public =>
      {| emergency := emergency categories;
         administrative := administrative categories;
         specialized := specialized categories;
         public := public categories ++ [service] |}
  end.

Definition get (category : Category) (categories : Categories) : list string :=
  match category with
  | Emergency => emergency categories
  | Administrative => administrative categories
  | Specialized => specialized categories
  | Public => public categories
  end.

Section WithRuntime.
Context `{JsRuntime}.

(** The loop over [Object.entries(serviceMapping)] for one service: the
    first category with a keyword that the lower-cased service contains,
    [None] when the loop ends with [categorized] still false. *)
Fixpoint first_category (lowerService : string)
    (entries : list (Category * list string)) : option Category :=
  match entries with
  | [] => None
  | (category, keywords) :: rest =>
      if existsb (fun keyword => Str.includes lowerService keyword) keywords
      then Some category
      else first_category lowerService rest
  end.

(** The category that the body of [forEach] pushes [service] to. *)
Definition place (service : string) : Category :=
  match first_category (toLowerCase service) serviceMapping with
  | Some category => category
  | None => Public
  end.

Definition categorizeServices (services : list string) : Categories :=
  fold_left (fun categories service => push (place service) service categories)
    services
    {| emergency := []; administrative := []; specialized := []; public := [] |}.

End WithRuntime.

End PoliceStationServices.

Definition category_eqb (a b : Category) : bool :=
  match a, b with
  | Emergency, Emergency | Administrative, Administrative
  | Specialized, Specialized | Public, Public => true
  | _, _ => false
  end.

(** * Further predicates and worked inputs *)



(** A record cached at [cached] is within the window of a read at [now]
    with the maximal age [age]: the read drops a record with
    [cached < now - age]. *)
Definition cached_within (now age cached : Z) : bool := now - age <=? cached.





(** A raw record whose name and summary carry markup. *)
Definition raw_markup : RawEvent :=
  {| raw_id := Some 3; raw_datetime := Text "1970-01-01T00:00:03Z";
     raw_name := Text "<b>Brand</b>"; raw_title := Absent;
     raw_summary := Text "<img src=x>"; raw_description := Absent;
     raw_type := Text "Brand"; raw_url := Absent; raw_location := None |}.

(** The parsing of coordinates, dates and locations of the worked
    examples: every record is valid, at the time of its [id] in seconds. *)
Definition example_geotime (raw : RawEvent) : GeoTime :=
  {| geo_timeMs := 1000 * default 0 (raw_id raw); geo_timestampSource := "parsed";
     geo_city := "Stockholm"; geo_isValid := true |}.

(** Options of a read that reaches back thirty days. *)
Definition month_options : GetOptions :=
  {| maxAge := 30 * DAY; limit := 10;
     severityLevel := None; city := None; exactLocation := None |}.

(** * Properties *)

(** ** Strings *)

Lemma has_char_filter keep c s :
  keep c = false -> has_char c (Str.filter_chars keep s) = false.
Proof.
  intros Hc. induction s as [|a s IH]; simpl; [reflexivity|].
  destruct (keep a) eqn:Ha; [|exact IH].
  unfold has_char in *. simpl. rewrite IH, orb_false_r.
  destruct (Ascii.eqb_spec c a) as [->|]; [congruence|reflexivity].
Qed.

Lemma strip_angles_clean s :
  has_char "<" (Utils.strip_angles s) = false /\
  has_char ">" (Utils.strip_angles s) = false.
Proof. split; apply has_char_filter; reflexivity. Qed.

Lemma sanitizeHTML_clean v :
  has_char "<" (Utils.sanitizeHTML v) = false /\
  has_char ">" (Utils.sanitizeHTML v) = false.
Proof.
  unfold Utils.sanitizeHTML. destruct (negb (js_truthy v)).
  - split; reflexivity.
  - apply strip_angles_clean.
Qed.

Lemma includes_any_In s keywords k :
  In k keywords -> Str.includes s k = true -> Str.includes_any s keywords = true.
Proof.
  intros Hin Hk. unfold Str.includes_any. apply existsb_exists. eauto.
Qed.

(** ** Property lookup and the severity tables *)

Lemma js_get_cases {A} (obj : list (string * A)) (key : string) :
  (exists v, own_property obj key = Some v /\ js_get obj key = Some (Own v)) \/
  (own_property obj key = None /\ In key Object_prototype /\
   js_get obj key = Some (Inherited key)) \/
  (own_property obj key = None /\ ~ In key Object_prototype /\ js_get obj key = None).
Proof.
  unfold js_get. destruct (own_property obj key) as [v|]; [left; eauto|].
  right. destruct (existsb (String.eqb key) Object_prototype) eqn:He.
  - left. split; [reflexivity|]. split; [|reflexivity].
    apply existsb_exists in He as (k & Hin & Hk). apply String.eqb_eq in Hk.
    subst k. exact Hin.
  - right. split; [reflexivity|]. split; [|reflexivity].
    intros Hin. assert (existsb (String.eqb key) Object_prototype = true) as Ht.
    { apply existsb_exists. exists key. split; [exact Hin|apply String.eqb_refl]. }
    congruence.
Qed.

(** The levels of the table of [calculateSeverity] lie between 1 and 5. *)
Lemma severityMap_levels k s :
  own_property DataSyncSeverity.severityMap k = Some s -> 1 <= level s <= 5.
Proof.
  unfold DataSyncSeverity.severityMap. cbn [own_property].
  repeat (match goal with
          | |- context [String.eqb ?a k] => destruct (String.eqb a k)
          end; [intros [= <-]; cbn [level]; lia|]).
  discriminate.
Qed.

(** The table gives level 5 to one type only. *)
Lemma table_level_five type :
  DataSyncSeverity.severity_level (DataSyncSeverity.table_severity type) = Some 5 <->
  type = "Skottlossning".
Proof.
  unfold DataSyncSeverity.table_severity, js_get, DataSyncSeverity.severityMap.
  cbn [own_property].
  repeat (match goal with
          | |- context [String.eqb ?a type] =>
              destruct (String.eqb_spec a type) as [<-|?];
                [cbn; split; [intros Hx|intros Hx]; congruence|]
          end).
  destruct (existsb (String.eqb type) Object_prototype); cbn;
    split; intros Hx; congruence.
Qed.

(** ** Deduplication *)

Section Dedup.
Import DataSyncManager.

Lemma dedup_from_keys seen l event :
  event ∈ dedup_from seen l -> (dedup_key event ∉ seen) /\ (event ∈ l).
Proof.
  revert seen. induction l as [|x l IH]; intros seen; simpl.
  - intros Hin. inversion Hin.
  - destruct (decide (dedup_key x ∈ seen)) as [Hx|Hx].
    + intros Hin. destruct (IH _ Hin) as [Hk Hl]. split; [exact Hk|right; exact Hl].
    + rewrite elem_of_cons. intros [->|Hin]; [split; [exact Hx|left]|].
      destruct (IH _ Hin) as [Hk Hl]. split; [|right; exact Hl].
      intros Hs. apply Hk, elem_of_union. right. exact Hs.
Qed.



Lemma dedup_from_find_seen seen l k :
  k ∈ seen -> find (has_key k) (dedup_from seen l) = None.
Proof.
  intros Hk. destruct (find _ _) as [event|] eqn:Hf; [|reflexivity].
  apply find_some in Hf as [Hin Hkey].
  apply list_elem_of_In, dedup_from_keys in Hin as [Hn _].
  unfold has_key in Hkey. apply String.eqb_eq in Hkey. congruence.
Qed.


(** Without duplicates among the keys nothing is dropped. *)
Lemma dedup_from_all seen l :
  NoDup (map dedup_key l) -> (forall x, In x l -> dedup_key x ∉ seen) ->
  dedup_from seen l = l.
Proof.
  revert seen. induction l as [|x l IH]; intros seen Hnd Hs; simpl; [reflexivity|].
  apply NoDup_cons in Hnd as [Hx Hnd].
  destruct (decide (dedup_key x ∈ seen)) as [Hin|_].
  - exfalso. apply (Hs x); [left; reflexivity|exact Hin].
  - f_equal. apply IH; [exact Hnd|].
    intros y Hy. rewrite elem_of_union, elem_of_singleton. intros [Heq|Hin].
    + apply Hx. apply list_elem_of_fmap. exists y. split; [congruence|].
      apply list_elem_of_In. exact Hy.
    + apply (Hs y); [right; exact Hy|exact Hin].
Qed.

End Dedup.











(** ** Sanitised text *)

Lemma getSeverityInfo_own `{JsRuntime} (type : string) :
  existsb (String.eqb type) Object_prototype = false ->
  exists info, CrimeSeveritySystem.getSeverityInfo (Some type) = Own info.
Proof.
  intros Hp. unfold CrimeSeveritySystem.getSeverityInfo.
  destruct (negb (truthy (Some type))) eqn:Ht; [eexists; reflexivity|].
  assert (or_else (Some type) "" = type) as ->.
  { unfold truthy in Ht. unfold or_else. destruct (String.eqb type ""); [discriminate|].
    reflexivity. }
  unfold js_get. rewrite Hp.
  destruct (own_property CrimeSeveritySystem.SEVERITY_MAPPING type);
    [eexists; reflexivity|].
  destruct (CrimeSeveritySystem.fuzzy_match _ _); [eexists; reflexivity|].
  destruct (CrimeSeveritySystem.keyword_match _ _); eexists; reflexivity.
Qed.

(** The constructor of [PoliceEvent] throws exactly for the types that name
    a member of [Object.prototype]; otherwise the title and the description
    of the event come out of [sanitizeHTML]. *)
Lemma new_cases `{JsRuntime} (geotime : RawEvent -> GeoTime) (raw : RawEvent) :
  match PoliceEventModel.new geotime raw with
  | Some event =>
      (exists v, pe_title event = Utils.sanitizeHTML v) /\
      (exists v, pe_description event = Utils.sanitizeHTML v) /\
      ~ In (or_else (field_text (raw_type raw)) "Ok√§nd h√§ndelse") Object_prototype
  | None => In (or_else (field_text (raw_type raw)) "Ok√§nd h√§ndelse") Object_prototype
  end.
Proof.
  unfold PoliceEventModel.new, PoliceEventModel.normalizeEventType.
  set (type := or_else (field_text (raw_type raw)) "Ok√§nd h√§ndelse").
  destruct (js_get_cases PoliceEventModel.typeMap type)
    as [(v & Hown & ->)|[(_ & Hin & ->)|(_ & Hnot & ->)]].
  - assert (Hv : existsb (String.eqb v) Object_prototype = false /\
                 ~ In type Object_prototype).
    { revert Hown. unfold PoliceEventModel.typeMap. cbn [own_property].
      repeat (match goal with
              | |- context [String.eqb ?a type] =>
                  destruct (String.eqb_spec a type) as [<-|?];
                    [intros [= <-]; split; [reflexivity|];
                     intros Hin; vm_compute in Hin; intuition discriminate|]
              end).
      discriminate. }
    destruct Hv as [Hv Hnot].
    destruct (getSeverityInfo_own v Hv) as [info ->].
    split; [eexists; reflexivity|]. split; [eexists; reflexivity|exact Hnot].
  - exact Hin.
  - assert (Hv : existsb (String.eqb type) Object_prototype = false).
    { destruct (existsb _ _) eqn:He; [|reflexivity].
      apply existsb_exists in He as (k & Hin & Hk). apply String.eqb_eq in Hk.
      subst k. contradiction. }
    destruct (getSeverityInfo_own type Hv) as [info ->].
    split; [eexists; reflexivity|]. split; [eexists; reflexivity|exact Hnot].
Qed.

(** C10, as the code has it: [Utils.sanitizeHTML] returns a string without
    angle brackets, and the empty string for [null], [undefined] and the
    empty string; so the title and the description of every [PoliceEvent]
    that the constructor builds are free of them. The constructor builds an
    event unless the type of the record names a member of
    [Object.prototype]. *)
Theorem sanitizeHTML_no_markup `{JsRuntime} (geotime : RawEvent -> GeoTime)
    (v : JsValue) (raw : RawEvent) :
  (has_char "<" (Utils.sanitizeHTML v) = false /\
   has_char ">" (Utils.sanitizeHTML v) = false) /\
  (Utils.sanitizeHTML JNull = "" /\ Utils.sanitizeHTML JUndefined = "" /\
   Utils.sanitizeHTML (JString "") = "") /\
  match PoliceEventModel.new geotime raw with
  | Some event =>
      has_char "<" (pe_title event) = false /\
      has_char ">" (pe_title event) = false /\
      has_char "<" (pe_description event) = false /\
      has_char ">" (pe_description event) = false
  | None => In (or_else (field_text (raw_type raw)) "Ok√§nd h√§ndelse") Object_prototype
  end.
Proof.
  split; [apply sanitizeHTML_clean|]. split; [repeat split|].
  pose proof (new_cases geotime raw) as Hnew.
  destruct (PoliceEventModel.new geotime raw) as [event|]; [|exact Hnew].
  destruct Hnew as ((vt & ->) & (vd & ->) & _).
  repeat split; apply sanitizeHTML_clean.
Qed.

(** C10, as stated, fails for the records of the sync manager:
    [processEventData] copies the name and the summary of a raw record into
    the title and the description of the processed record, markup
    included, and [syncDataType] returns and stores the record so. *)
Lemma processEventData_keeps_markup :
  exists event,
    @DataSyncManager.processEventData example_runtime example_helpers example_now
      raw_markup = Some event /\
    ev_title event = "<b>Brand</b>" /\ ev_description event = "<img src=x>" /\
    has_char "<" (ev_title event) = true /\
    has_char ">" (ev_description event) = true /\
    PoliceEventModel.first_truthy (raw_name raw_markup) (raw_title raw_markup) "Brand"
      = JString "<b>Brand</b>" /\
    Utils.sanitizeHTML (JString "<b>Brand</b>") = "&lt;b&gt;Brand&lt;/b&gt;".
Proof. eexists. repeat split; vm_compute; reflexivity. Qed.

(** ** Severity of a record *)

(** C6, as the code has it. For a title and a type that are strings or
    absent, [calculateSeverity] returns; a critical keyword in the
    lower-cased title gives level 5, the highest level of the table,
    whatever the type is; and the type is not scanned: the level is 5 only
    for such a title, or for the type [Skottlossning] of the table under a
    title without a high keyword. *)
Theorem calculateSeverity_critical_title `{JsRuntime} (type title : Field) :
  type <> Null -> title <> Null ->
  exists r,
    DataSyncSeverity.calculateSeverity type title = Some r /\
    (Str.includes_any (toLowerCase (DataSyncSeverity.arg_text title))
       DataSyncSeverity.criticalKeywords = true ->
     r = Own {| level := 5; priority := "critical"; color := "#450a0a" |}) /\
    (DataSyncSeverity.severity_level r = Some 5 <->
     Str.includes_any (toLowerCase (DataSyncSeverity.arg_text title))
       DataSyncSeverity.criticalKeywords = true \/
     (Str.includes_any (toLowerCase (DataSyncSeverity.arg_text title))
        DataSyncSeverity.highKeywords = false /\
      type = Text "Skottlossning")) /\
    (forall k s, own_property DataSyncSeverity.severityMap k = Some s -> level s <= 5).
Proof.
  intros Htype Htitle.
  assert (Hcalc : DataSyncSeverity.calculateSeverity type title =
            Some (if Str.includes_any (toLowerCase (DataSyncSeverity.arg_text title))
                       DataSyncSeverity.criticalKeywords
                  then Own {| level := 5; priority := "critical"; color := "#450a0a" |}
                  else if Str.includes_any (toLowerCase (DataSyncSeverity.arg_text title))
                            DataSyncSeverity.highKeywords
                  then Own {| level := 4; priority := "critical"; color := "#7f1d1d" |}
                  else DataSyncSeverity.table_severity (DataSyncSeverity.arg_text type))).
  { unfold DataSyncSeverity.calculateSeverity.
    destruct title; try contradiction; destruct type; try contradiction;
      cbv zeta;
      destruct (Str.includes_any _ DataSyncSeverity.criticalKeywords);
      try reflexivity;
      destruct (Str.includes_any _ DataSyncSeverity.highKeywords); reflexivity. }
  assert (Hskott : DataSyncSeverity.arg_text type = "Skottlossning" <->
                   type = Text "Skottlossning").
  { destruct type; simpl; split; intros Hx; try discriminate; try contradiction;
      congruence. }
  eexists. split; [exact Hcalc|].
  destruct (Str.includes_any _ DataSyncSeverity.criticalKeywords).
  - split; [reflexivity|]. split; [|intros k s Hk; apply (severityMap_levels k s Hk)].
    split; [left; reflexivity|reflexivity].
  - split; [discriminate|]. split; [|intros k s Hk; apply (severityMap_levels k s Hk)].
    destruct (Str.includes_any _ DataSyncSeverity.highKeywords).
    + cbn. split; [discriminate|]. intros [Hx|[Hx _]]; discriminate.
    + rewrite table_level_five, Hskott. split; [intros Hx; right; auto|].
      intros [Hx|[_ Hx]]; [discriminate|exact Hx].
Qed.

Lemma calculateSeverity_critical_title_witness :
  exists r,
    @DataSyncSeverity.calculateSeverity example_runtime (Text "Trafikolycka")
      (Text "Skottlossning i centrum") = Some r /\
    (Str.includes_any
       (@toLowerCase example_runtime
          (DataSyncSeverity.arg_text (Text "Skottlossning i centrum")))
       DataSyncSeverity.criticalKeywords = true ->
     r = Own {| level := 5; priority := "critical"; color := "#450a0a" |}) /\
    (DataSyncSeverity.severity_level r = Some 5 <->
     Str.includes_any
       (@toLowerCase example_runtime
          (DataSyncSeverity.arg_text (Text "Skottlossning i centrum")))
       DataSyncSeverity.criticalKeywords = true \/
     (Str.includes_any
        (@toLowerCase example_runtime
           (DataSyncSeverity.arg_text (Text "Skottlossning i centrum")))
        DataSyncSeverity.highKeywords = false /\
      Text "Trafikolycka" = Text "Skottlossning")) /\
    (forall k s, own_property DataSyncSeverity.severityMap k = Some s -> level s <= 5).
Proof.
  apply (@calculateSeverity_critical_title example_runtime (Text "Trafikolycka")
           (Text "Skottlossning i centrum")); discriminate.
Defined.

(** C6, as stated, fails: a type that contains "skott" under a title without
    keywords is classified by the table, which does not know the type, and
    gets the default level 1; [CrimeSeveritySystem] gives it level 2. *)
Lemma severity_ignores_keyword_in_type :
  Str.includes (@toLowerCase example_runtime "Skott mot bostad") "skott" = true /\
  @DataSyncSeverity.calculateSeverity example_runtime
    (Text "Skott mot bostad") (Text "Polisen utreder") =
    Some (Own {| level := 1; priority := "low"; color := "#6b7280" |}) /\
  @CrimeSeveritySystem.getSeverityLevel example_runtime (Some "Skott mot bostad") =
    Some 2.
Proof. repeat split. Qed.

(** ** Sorting *)

Section SortFacts.
Context {A : Type} (cmp : A -> A -> Z).

Lemma sort_insert_elem x l z :
  In z (sort_insert cmp x l) -> z = x \/ In z l.
Proof.
  induction l as [|y l IH]; simpl.
  - intros [<-|[]]. left; reflexivity.
  - destruct (cmp x y <=? 0); simpl.
    + intros [<-|Hin]; [left; reflexivity|right; exact Hin].
    + intros [<-|Hin]; [right; left; reflexivity|].
      destruct (IH Hin) as [->|Hl]; [left; reflexivity|right; right; exact Hl].
Qed.

Lemma sort_insert_perm x l : Permutation (sort_insert cmp x l) (x :: l).
Proof.
  induction l as [|y l IH]; simpl; [reflexivity|].
  destruct (cmp x y <=? 0); [reflexivity|].
  rewrite IH. apply perm_swap.
Qed.

(** The sort rearranges its argument. *)
Lemma js_sort_perm l : Permutation (js_sort cmp l) l.
Proof.
  induction l as [|x l IH]; simpl; [reflexivity|].
  rewrite sort_insert_perm, IH. reflexivity.
Qed.

End SortFacts.

Lemma firstn_In {A} (z : A) n l : In z (firstn n l) -> In z l.
Proof.
  revert n. induction l as [|y l IH]; intros [|n]; simpl; try tauto.
  intros [->|Hin]; [left; reflexivity|right; eapply IH, Hin].
Qed.

Section SortByTime.
Context {A : Type} (timeMs : A -> Z).

Local Abbreviation cmp := (fun a b : A => timeMs b - timeMs a).

Lemma sort_insert_descending x l :
  descending timeMs l -> descending timeMs (sort_insert cmp x l).
Proof.
  unfold descending. induction 1 as [|y l Hl IH Hy]; simpl.
  - constructor; constructor.
  - destruct (Z.leb_spec (timeMs y - timeMs x) 0) as [Hle|Hgt].
    + constructor; [constructor; assumption|].
      constructor; [lia|].
      rewrite List.Forall_forall in *. intros z Hz. specialize (Hy z Hz). lia.
    + constructor; [exact IH|].
      rewrite List.Forall_forall in *. intros z Hz.
      destruct (sort_insert_elem _ _ _ _ Hz) as [->|Hin]; [lia|auto].
Qed.

Lemma js_sort_descending l : descending timeMs (js_sort cmp l).
Proof.
  induction l as [|x l IH]; simpl.
  - constructor.
  - apply sort_insert_descending, IH.
Qed.

Lemma firstn_descending n l : descending timeMs l -> descending timeMs (firstn n l).
Proof.
  unfold descending. intros Hl. revert n.
  induction Hl as [|y l Hl IH Hy]; intros [|n]; simpl; try constructor.
  - apply IH.
  - rewrite List.Forall_forall in *. intros z Hz. apply Hy.
    eapply firstn_In, Hz.
Qed.

End SortByTime.


Section FetchOrder.
Context `{JsRuntime} `{SyncHelpers}.
Import DataSyncManager.







End FetchOrder.




(** On the same answer [fetchPoliceEvents] puts the newer record first. *)
Example fetchPoliceEvents_example :
  map pe_timeMs
    <$> @PoliceEventModel.fetchPoliceEvents example_runtime example_geotime
          [raw_older; raw_newer] = Some [2000; 1000].
Proof. vm_compute. reflexivity. Qed.

(** ** The persistent store *)

Lemma idb_put_In {A} (key : A -> Id) (r x : A) store :
  In x (idb_put key r store) -> x = r \/ In x store.
Proof.
  induction store as [|y store IH]; simpl.
  - intros [<-|[]]. left; reflexivity.
  - destruct (id_ltb (key r) (key y)).
    + intros [<-|Hin]; [left; reflexivity|right; exact Hin].
    + destruct (id_eqb (key r) (key y)).
      * intros [<-|Hin]; [left; reflexivity|right; right; exact Hin].
      * intros [<-|Hin]; [right; left; reflexivity|].
        destruct (IH Hin) as [->|Hs]; [left; reflexivity|right; right; exact Hs].
Qed.

Lemma fold_put_In {A B} (key : A -> Id) (f : B -> A) (l : list B) store x :
  In x (fold_left (fun s b => idb_put key (f b) s) l store) ->
  (exists b, In b l /\ x = f b) \/ In x store.
Proof.
  revert store. induction l as [|b l IH]; intros store; simpl; [tauto|].
  intros Hin. destruct (IH _ Hin) as [(b' & Hb & ->)|Hs].
  - left. exists b'. split; [right; exact Hb|reflexivity].
  - destruct (idb_put_In _ _ _ _ Hs) as [->|Hs'].
    + left. exists b. split; [left; reflexivity|reflexivity].
    + right. exact Hs'.
Qed.

(** The writes keep every record stamped. *)
Lemma saveEvents_stamped now l db :
  now <> 0 -> stamped db -> stamped (DataStorage.saveEvents now l db).
Proof.
  intros Hnow [He Hs]. split; simpl; [|exact Hs].
  intros r Hin. apply fold_put_In in Hin as [(b & _ & ->)|Hin]; [exact Hnow|auto].
Qed.

Lemma saveStations_stamped now l db :
  now <> 0 -> stamped db -> stamped (DataStorage.saveStations now l db).
Proof.
  intros Hnow [He Hs]. split; simpl; [exact He|].
  intros r Hin.
  apply (fold_put_In (fun r => st_id (ss_station r))
           (fun station => {| ss_station := fst station;
                              ss_syncMetadata := Some (snd station);
                              ss_cached := now |})) in Hin
    as [(b & _ & ->)|Hin]; [exact Hnow|auto].
Qed.

Lemma expired_older now cached :
  cached <> 0 ->
  DataStorage.expired (now - 7 * 24 * 60 * 60 * 1000) cached = true <->
  older_than now cached RETENTION.
Proof.
  intros Hc. unfold DataStorage.expired, older_than, RETENTION.
  rewrite andb_true_iff, negb_true_iff, Z.eqb_neq, Z.ltb_lt. lia.
Qed.

Lemma cleanup_store_In {A} (cached : A -> Z) now store r :
  (forall x, In x store -> cached x <> 0) ->
  In r (fst (DataStorage.cleanup_store cached (now - 7 * 24 * 60 * 60 * 1000) store)) <->
  In r store /\ ~ older_than now (cached r) RETENTION.
Proof.
  intros Hst. unfold DataStorage.cleanup_store. cbn [fst].
  rewrite filter_In, negb_true_iff. split.
  - intros [Hin Hex]. split; [exact Hin|].
    rewrite <- expired_older by auto. congruence.
  - intros [Hin Hold]. split; [exact Hin|].
    destruct (DataStorage.expired _ _) eqn:Hex; [|reflexivity].
    exfalso. apply Hold. apply expired_older; auto.
Qed.

(** Without an assumption on the stamps: the sweep deletes exactly the
    records with a non-zero stamp older than seven days. *)
Lemma cleanup_store_In_any {A} (cached : A -> Z) now store r :
  In r (fst (DataStorage.cleanup_store cached (now - 7 * 24 * 60 * 60 * 1000) store)) <->
  In r store /\ ~ (cached r <> 0 /\ older_than now (cached r) RETENTION).
Proof.
  unfold DataStorage.cleanup_store. cbn [fst].
  rewrite filter_In, negb_true_iff.
  unfold DataStorage.expired, older_than, RETENTION.
  rewrite andb_false_iff, negb_false_iff, Z.eqb_eq, Z.ltb_ge. split.
  - intros [Hin Hex]. split; [exact Hin|lia].
  - intros [Hin Hold]. split; [exact Hin|lia].
Qed.

(** The sweep of [DataStorage]: [cleanup] deletes a stored record exactly
    when it is older than seven days. A record is in a store afterwards if
    and only if it was there before and is not older than seven days. The
    sweep takes no [maxAge]. *)
Theorem cleanup_retention (now : Z) (db : Idb) :
  stamped db ->
  (forall r, In r (events_store (fst (DataStorage.cleanup now db))) <->
             In r (events_store db) /\ ~ older_than now (se_cached r) RETENTION) /\
  (forall r, In r (stations_store (fst (DataStorage.cleanup now db))) <->
             In r (stations_store db) /\ ~ older_than now (ss_cached r) RETENTION).
Proof.
  intros [He Hs]. unfold DataStorage.cleanup. cbn [fst events_store stations_store].
  split; intros r; apply cleanup_store_In; assumption.
Qed.

Lemma example_db_stamped : stamped example_db.
Proof.
  split; simpl.
  - intros r [<-|[<-|[]]]; vm_compute; discriminate.
  - intros r [].
Defined.

Lemma cleanup_retention_witness :
  stamped example_db /\
  (forall r, In r (events_store (fst (DataStorage.cleanup example_now example_db))) <->
             In r (events_store example_db) /\
             ~ older_than example_now (se_cached r) RETENTION) /\
  (forall r, In r (stations_store (fst (DataStorage.cleanup example_now example_db))) <->
             In r (stations_store example_db) /\
             ~ older_than example_now (ss_cached r) RETENTION).
Proof.
  split; [exact example_db_stamped|].
  exact (cleanup_retention example_now example_db example_db_stamped).
Defined.

(** On the worked store the sweep deletes the record of eight days ago and
    keeps the record of an hour ago. *)
Example cleanup_example :
  DataStorage.cleanup example_now example_db =
    ({| events_store := [example_stored 2 (example_now - 60 * 60 * 1000)];
        stations_store := [] |}, [1; 0]).
Proof. reflexivity. Qed.

(** ** The sync manager *)

Section SyncFacts.
Context `{JsRuntime} `{SyncHelpers}.
Import DataSyncManager.

Lemma log_requests_same_state urls w :
  same_state w (fold_left (fun w source => log_request source w) urls w).
Proof.
  revert w. induction urls as [|u urls IH]; intros w; simpl.
  - repeat split.
  - destruct (IH (log_request u w)) as (? & ? & ? & ?). repeat split; assumption.
Qed.

Lemma fetch_type_same_state e type since w :
  same_state w (fst (fetch_type e type since w)).
Proof.
  destruct type; unfold fetch_type; cbn [fst].
  - unfold syncEvents. destruct (http_events e); repeat split.
  - unfold syncStations. destruct (http_stations e); repeat split.
  - unfold syncRSSFeeds. cbn [fst]. apply log_requests_same_state.
Qed.

Lemma saveDataWithMetadata_frame e data t prio w w' :
  saveDataWithMetadata e data t prio w = Some w' ->
  isOnline w' = isOnline w /\ lastSyncTimestamps w' = lastSyncTimestamps w /\
  timers w' = timers w /\ requests w' = requests w.
Proof.
  unfold saveDataWithMetadata.
  destruct (storage w); [|intros [= <-]; repeat split].
  destruct data; [destruct (idb_write_ok e)|destruct (idb_write_ok e)|];
    intros [= <-]; repeat split.
Qed.

(** A call either throws before it changed anything, or returns; when it
    returns it has set no timer or the timer of a first retry. *)
Lemma syncDataType_timers e type options w :
  (syncDataType e type options w = (w, Threw)) \/
  (exists w' data, syncDataType e type options w = (w', Returned data) /\
     (timers w' = timers w \/ timers w' = timers w ++ [first_retry type options])).
Proof.
  unfold syncDataType.
  destruct (negb (isOnline w) && negb (force options)).
  { right. eexists _, _. split; [reflexivity|left; reflexivity]. }
  destruct (negb (force options) && _).
  { right. eexists _, _. split; [reflexivity|left; reflexivity]. }
  destruct (showLoader options && negb (dom_ok e)); [left; reflexivity|].
  right.
  pose proof (fetch_type_same_state e type (lastSync type w) w) as (_ & _ & Ht & _).
  destruct (fetch_type e type (lastSync type w) w) as [w1 [data|]]; cbn [fst] in Ht.
  - destruct (saveDataWithMetadata _ _ _ _ _) as [w2|] eqn:Hsave.
    + apply saveDataWithMetadata_frame in Hsave as (_ & _ & Ht2 & _).
      eexists _, _. split; [reflexivity|]. left. rewrite Ht2. exact Ht.
    + eexists _, _. split; [reflexivity|]. right. simpl. rewrite Ht. reflexivity.
  - eexists _, _. split; [reflexivity|]. right. simpl. rewrite Ht. reflexivity.
Qed.

(** The last sync times after a call: unchanged, or the clock of the call
    at the type of the call. *)
Lemma syncDataType_timestamps e type options w :
  let w' := fst (syncDataType e type options w) in
  lastSyncTimestamps w' = lastSyncTimestamps w \/
  lastSyncTimestamps w' = <[type_key type := now e]> (lastSyncTimestamps w).
Proof.
  unfold syncDataType.
  destruct (negb (isOnline w) && negb (force options)); [left; reflexivity|].
  destruct (negb (force options) && _); [left; reflexivity|].
  destruct (showLoader options && negb (dom_ok e)); [left; reflexivity|].
  pose proof (fetch_type_same_state e type (lastSync type w) w) as (_ & Hl & _ & _).
  destruct (fetch_type e type (lastSync type w) w) as [w1 [data|]]; cbn [fst] in Hl.
  - destruct (saveDataWithMetadata _ _ _ _ _) as [w2|] eqn:Hsave.
    + apply saveDataWithMetadata_frame in Hsave as (_ & Hl2 & _ & _).
      right. cbn [fst]. rewrite Hl2. simpl. rewrite Hl. reflexivity.
    + right. simpl. rewrite Hl. reflexivity.
  - left. simpl. exact Hl.
Qed.

(** With a clock that is not behind the last sync, a call does not move
    the last sync time of any type backwards. *)
Lemma syncDataType_monotone e type options w type' :
  lastSync type w <= now e ->
  lastSync type' w <= lastSync type' (fst (syncDataType e type options w)).
Proof.
  intros Hclock. unfold lastSync at 2.
  destruct (syncDataType_timestamps e type options w) as [->| ->].
  - reflexivity.
  - destruct (decide (type_key type = type_key type')) as [Heq|Hne].
    + rewrite Heq, lookup_insert_eq. simpl.
      assert (type = type') as <- by (destruct type, type'; simpl in Heq; congruence).
      exact Hclock.
    + rewrite lookup_insert_ne by exact Hne. reflexivity.
Qed.

(** When the remote read fails, the last sync times stay as they are. *)
Lemma syncDataType_fetch_failure e type options w :
  snd (fetch_type e type (lastSync type w) w) = None ->
  lastSyncTimestamps (fst (syncDataType e type options w)) = lastSyncTimestamps w.
Proof.
  intros Hfail. unfold syncDataType.
  destruct (negb (isOnline w) && negb (force options)); [reflexivity|].
  destruct (negb (force options) && _); [reflexivity|].
  destruct (showLoader options && negb (dom_ok e)); [reflexivity|].
  pose proof (fetch_type_same_state e type (lastSync type w) w) as (_ & Hl & _ & _).
  destruct (fetch_type e type (lastSync type w) w) as [w1 [data|]]; cbn [fst snd] in *.
  - discriminate.
  - exact Hl.
Qed.

End SyncFacts.

(** What the read of the store returns is held by the store and was cached
    within the window of the read. *)
Lemma getEvents_held `{JsRuntime} now o db r :
  In r (DataStorage.getEvents now o db) ->
  In r (events_store db) /\ now - maxAge o <= se_cached r.
Proof.
  unfold DataStorage.getEvents, slice0. intros Hin.
  assert (In r (List.filter (DataStorage.event_passes (now - maxAge o) o)
                  (events_store db))) as Hf.
  { eapply Permutation_in; [apply js_sort_perm|].
    destruct (0 <=? limit o); eapply firstn_In, Hin. }
  apply filter_In in Hf as [Hs Hp]. split; [exact Hs|].
  unfold DataStorage.event_passes in Hp.
  destruct (Z.ltb_spec (se_cached r) (now - maxAge o)); [discriminate|lia].
Qed.

Lemma getCachedData_held `{JsRuntime} e type w item :
  In item (DataSyncManager.getCachedData e type w) ->
  exists db, storage w = Some db /\
    match item with
    | ItemStoredEvent r =>
        type = events /\ In r (events_store db) /\
        now_read e - CONFIG.CACHE_DURATION_EVENTS <= se_cached r
    | ItemStoredStation r =>
        type = stations /\ In r (stations_store db) /\
        now_read e - CONFIG.CACHE_DURATION_STATIONS <= ss_cached r
    | _ => False
    end.
Proof.
  unfold DataSyncManager.getCachedData.
  destruct (storage w) as [db|]; [|intros []].
  destruct (negb (idb_read_ok e)); [intros []|].
  intros Hin. exists db. split; [reflexivity|].
  destruct type; [| |destruct Hin].
  - apply in_map_iff in Hin as (r & <- & Hr).
    apply getEvents_held in Hr as [Hs Hc]. auto.
  - apply in_map_iff in Hin as (r & <- & Hr).
    unfold DataStorage.getStations in Hr. apply filter_In in Hr as [Hs Hc].
    apply Z.leb_le in Hc. auto.
Qed.

(** With its default options [getEvents] keeps the records cached within
    two hours, sorts them and returns the first 1000. *)
Lemma getEvents_default `{JsRuntime} now db :
  DataStorage.getEvents now DataStorage.default_options db =
    firstn 1000
      (js_sort (fun a b => time_desc (se_timeMs a) (se_timeMs b))
         (List.filter
            (fun r => cached_within now CONFIG.CACHE_DURATION_EVENTS (se_cached r))
            (events_store db))).
Proof.
  unfold DataStorage.getEvents, slice0. cbn [limit maxAge DataStorage.default_options].
  change (0 <=? 1000) with true. cbv iota. change (Z.to_nat 1000) with 1000%nat.
  f_equal. f_equal. apply List.filter_ext. intros r.
  unfold DataStorage.event_passes, cached_within.
  cbn [severityLevel city exactLocation DataStorage.default_options].
  destruct (Z.ltb_spec (se_cached r) (now - CONFIG.CACHE_DURATION_EVENTS));
    symmetry; [apply Z.leb_gt|apply Z.leb_le]; assumption.
Qed.

(** C1, as the code has it: offline and without [force], [syncDataType]
    changes nothing, starts no remote read and returns the read of the
    store. For the events the read holds stored events cached within the
    last two hours: with [n] of them in the store it returns [min 1000 n],
    each once. For the stations it returns the stored stations cached
    within the last 24 hours, in the order of the store. For the feeds, for
    a page without store and for a read that fails it returns the empty
    list. *)
Theorem syncDataType_offline `{JsRuntime} `{SyncHelpers}
    (e : Env) (type : EntityType) (options : Options) (w : World) :
  isOnline w = false -> force options = false ->
  fst (DataSyncManager.syncDataType e type options w) = w /\
  exists data,
    snd (DataSyncManager.syncDataType e type options w) = Returned data /\
    match type, storage w with
    | events, Some db =>
        if idb_read_ok e then
          exists l rest,
            data = map ItemStoredEvent l /\
            Permutation (l ++ rest)
              (List.filter
                 (fun r => cached_within (now_read e) (2 * 60 * 60 * 1000)
                             (se_cached r))
                 (events_store db)) /\
            length l = Nat.min 1000 (length (l ++ rest))
        else data = []
    | stations, Some db =>
        if idb_read_ok e then
          data =
            map ItemStoredStation
              (List.filter
                 (fun s => cached_within (now_read e) (24 * 60 * 60 * 1000)
                             (ss_cached s))
                 (stations_store db))
        else data = []
    | _, _ => data = []
    end.
Proof.
  intros Hoff Hforce. unfold DataSyncManager.syncDataType.
  rewrite Hoff, Hforce. cbn [negb andb fst snd]. split; [reflexivity|].
  eexists. split; [reflexivity|].
  unfold DataSyncManager.getCachedData.
  destruct type, (storage w) as [db|]; try reflexivity;
    destruct (idb_read_ok e); cbn [negb]; try reflexivity.
  rewrite getEvents_default.
  set (sorted := js_sort _ _).
  exists (firstn 1000 sorted), (skipn 1000 sorted).
  split; [reflexivity|]. rewrite firstn_skipn.
  split; [apply js_sort_perm|apply length_take].
Qed.

Lemma syncDataType_offline_witness :
  fst (DataSyncManager.syncDataType (env_healthy example_now) events
         DataSyncManager.default_call world_offline) = world_offline /\
  exists data,
    snd (DataSyncManager.syncDataType (env_healthy example_now) events
           DataSyncManager.default_call world_offline) = Returned data /\
    exists l rest,
      data = map ItemStoredEvent l /\
      Permutation (l ++ rest)
        (List.filter
           (fun r => cached_within (now_read (env_healthy example_now))
                       (2 * 60 * 60 * 1000) (se_cached r))
           (events_store example_db)) /\
      length l = Nat.min 1000 (length (l ++ rest)).
Proof.
  exact (syncDataType_offline (env_healthy example_now) events
           DataSyncManager.default_call world_offline eq_refl eq_refl).
Defined.

(** C1, as stated, fails: offline, the store holds two events and the call
    returns one of them, the one cached within the last two hours. *)
Lemma offline_read_is_filtered :
  isOnline world_offline = false /\ force DataSyncManager.default_call = false /\
  storage world_offline =
    Some {| events_store :=
              [ example_stored 1 (example_now - 8 * DAY);
                example_stored 2 (example_now - 60 * 60 * 1000) ];
            stations_store := [] |} /\
  snd (DataSyncManager.syncDataType (env_healthy example_now) events
         DataSyncManager.default_call world_offline) =
    Returned [ItemStoredEvent (example_stored 2 (example_now - 60 * 60 * 1000))].
Proof. repeat split. Qed.

(** C2, as the code has it: without [force], when the last sync of the type
    is less than [interval] of its configuration ago, [syncDataType]
    changes nothing, requests nothing from the network and returns the read
    of the store. *)
Theorem syncDataType_too_recent `{JsRuntime} `{SyncHelpers}
    (e : Env) (type : EntityType) (options : Options) (w : World) :
  force options = false ->
  now e - DataSyncManager.lastSync type w <
    interval (DataSyncManager.syncConfig type) ->
  DataSyncManager.syncDataType e type options w =
    (w, Returned (DataSyncManager.getCachedData e type w)) /\
  requests (fst (DataSyncManager.syncDataType e type options w)) = requests w.
Proof.
  intros Hforce Hrecent. unfold DataSyncManager.syncDataType.
  rewrite Hforce. apply Z.ltb_lt in Hrecent. rewrite Hrecent.
  destruct (negb (isOnline w)); simpl; split; reflexivity.
Qed.

Lemma syncDataType_too_recent_witness :
  force DataSyncManager.default_call = false /\
  now (env_healthy (example_now - 6 * 60 * 1000)) -
    DataSyncManager.lastSync events world_recent <
    interval (DataSyncManager.syncConfig events) /\
  DataSyncManager.syncDataType (env_healthy (example_now - 6 * 60 * 1000)) events
    DataSyncManager.default_call world_recent =
    (world_recent,
     Returned (DataSyncManager.getCachedData
                 (env_healthy (example_now - 6 * 60 * 1000)) events world_recent)) /\
  requests (fst (DataSyncManager.syncDataType
                   (env_healthy (example_now - 6 * 60 * 1000)) events
                   DataSyncManager.default_call world_recent)) =
    requests world_recent.
Proof.
  assert (Hr : now (env_healthy (example_now - 6 * 60 * 1000)) -
               DataSyncManager.lastSync events world_recent <
               interval (DataSyncManager.syncConfig events)) by (vm_compute; reflexivity).
  split; [reflexivity|]. split; [exact Hr|].
  exact (syncDataType_too_recent (env_healthy (example_now - 6 * 60 * 1000)) events
           DataSyncManager.default_call world_recent eq_refl Hr).
Defined.

(** C2, as stated, fails: with the page hidden the timer of the events runs
    at the passive interval of fifteen minutes, and a call ten minutes
    after the last sync still requests the collection, because the test of
    [syncDataType] is against the active interval of five minutes. *)
Lemma passive_interval_not_consulted :
  force DataSyncManager.default_call = false /\
  now (env_healthy example_now) - DataSyncManager.lastSync events world_recent <
    DataSyncManager.scheduled_interval true events /\
  requests (fst (DataSyncManager.syncDataType (env_healthy example_now) events
                   DataSyncManager.default_call world_recent)) =
    [CONFIG.API_EVENTS].
Proof. split; [reflexivity|]. split; vm_compute; reflexivity. Qed.

(** The delays that [scheduleRetry] computes for the attempts 1, 2 and 3,
    and its refusal of a fourth attempt. *)
Lemma scheduleRetry_policy type options w :
  DataSyncManager.retry_delay 1 = 1000 /\ DataSyncManager.retry_delay 2 = 2000 /\
  DataSyncManager.retry_delay 3 = 4000 /\
  DataSyncManager.scheduleRetry type options 4 w = w.
Proof. repeat split. Qed.

(** [scheduleRetry] sets one timer with the delay
    [min(baseDelay * 2^(attempt-1), maxDelay)] for an attempt up to
    [maxRetries], and nothing beyond. *)
Lemma scheduleRetry_timers type options attempt w :
  timers (DataSyncManager.scheduleRetry type options attempt w) =
    if attempt >? 3 then timers w
    else timers w ++
           [{| rt_delay := Z.min (1000 * 2 ^ (attempt - 1)) 30000; rt_type := type;
               rt_options := options; rt_attempt := attempt |}].
Proof.
  unfold DataSyncManager.scheduleRetry. cbn [maxRetries DataSyncManager.retryConfig].
  destruct (attempt >? 3); reflexivity.
Qed.

(** The callback of a retry timer moves to the next attempt only when
    [syncDataType] throws; when it returns, the timers it leaves are those
    it found, with at most the timer of a first retry added. *)
Lemma retry_callback_restarts `{JsRuntime} `{SyncHelpers} e t w :
  (DataSyncManager.retry_callback e t w =
     DataSyncManager.scheduleRetry (rt_type t) (rt_options t) (rt_attempt t + 1) w) \/
  timers (DataSyncManager.retry_callback e t w) = timers w \/
  timers (DataSyncManager.retry_callback e t w) =
    timers w ++ [first_retry (rt_type t)
                   (DataSyncManager.with_retry (rt_options t) (rt_attempt t))].
Proof.
  unfold DataSyncManager.retry_callback.
  destruct (syncDataType_timers e (rt_type t)
              (DataSyncManager.with_retry (rt_options t) (rt_attempt t)) w)
    as [->|(w' & data & -> & [Ht|Ht])]; auto.
Qed.

(** C3 at its failing input: the remote read succeeds and the write to the
    store fails. The call takes the failure path (it sets a retry timer and
    returns the read of the store, which is still empty), and the last sync
    time has moved from an hour ago to the clock of the call. The retry it
    set then finds the sync too recent and requests nothing. *)
Theorem failed_save_moves_last_sync :
  DataSyncManager.lastSync events world_stale = example_now - 60 * 60 * 1000 /\
  DataSyncManager.syncDataType env_write_fails events DataSyncManager.default_call
    world_stale = (world_failed_save, Returned []) /\
  timers world_failed_save = [first_retry events DataSyncManager.default_call] /\
  storage world_failed_save = storage world_stale /\
  DataSyncManager.lastSync events world_failed_save = example_now /\
  requests (DataSyncManager.fire_timer (env_healthy (example_now + 1000))
              world_failed_save) = requests world_failed_save.
Proof. repeat split; vm_compute; reflexivity. Qed.

(** C5 at its failing input: the network stays down. Every failure sets
    the timer of a first attempt, a second after the failure: the delays
    are 1000, 1000, 1000, 1000 and not 1000, 2000, 4000, and after the
    fourth failure a retry is still pending. *)
Theorem retries_restart_at_first_attempt :
  pending_delays (world_failure 0) = [1000] /\
  pending_delays (world_failure 1) = [1000] /\
  pending_delays (world_failure 2) = [1000] /\
  pending_delays (world_failure 3) = [1000] /\
  pending_attempts (world_failure 3) = [1] /\
  length (requests (world_failure 3)) = 4%nat.
Proof. repeat split; vm_compute; reflexivity. Qed.

(** ** The service worker *)

Section RouterFacts.
Import ServiceWorker.
Variable html : string.

(** For a request to an API endpoint the fall-back is the empty JSON
    array with status 200. *)
Lemma createOfflineFallback_api request :
  isApiRequest (url request) = true ->
  createOfflineFallback html request =
    Some {| status := 200; statusText := "OK (Offline)";
            headers := {[ "Content-Type" := "application/json";
                          "sw-cache-status" := "offline-fallback" ]};
            body := "[]" |}.
Proof. intros Hapi. unfold createOfflineFallback. rewrite Hapi. reflexivity. Qed.

(** For other requests it is the offline page when the request accepts
    HTML, and status 503 when it accepts something else. *)
Lemma createOfflineFallback_other request a :
  isApiRequest (url request) = false -> accept request = Some a ->
  exists r, createOfflineFallback html request = Some r /\
    cache_status r = Some "offline-fallback" /\
    if Str.includes a "text/html"
    then status r = 200 /\ body r = html
    else status r = 503.
Proof.
  intros Hapi Ha. unfold createOfflineFallback. rewrite Hapi, Ha.
  destruct (Str.includes a "text/html"); eexists; (split; [reflexivity|]);
    split; try reflexivity. split; reflexivity.
Qed.

Lemma networkFirstStrategy_failure now net request c :
  network_failed net ->
  networkFirstStrategy html now net request c =
    match data_cache c !! url request with
    | Some cachedResponse =>
        (c, Some (with_header "sw-cache-status"
                    (if age_gt now cachedResponse CACHE_DURATION_API_DATA
                     then "cache-stale" else "cache-fresh") cachedResponse))
    | None => (c, createOfflineFallback html request)
    end.
Proof.
  unfold networkFirstStrategy, network_failed. destruct net as [r|]; [|reflexivity].
  intros Hs. apply Z.eqb_neq in Hs. rewrite Hs. reflexivity.
Qed.

(** When the network fails and the data cache has an entry for the
    request, the router answers with the body and the status of the entry,
    whatever its age, and labels it by comparing the age that its
    [sw-cache-timestamp] header gives with the 30 minutes of the API
    data. *)
Lemma networkFirstStrategy_serves_cache now net request c entry :
  network_failed net -> data_cache c !! url request = Some entry ->
  exists r, networkFirstStrategy html now net request c = (c, Some r) /\
    body r = body entry /\ status r = status entry /\
    cache_status r =
      Some (if age_gt now entry CACHE_DURATION_API_DATA
            then "cache-stale" else "cache-fresh").
Proof.
  intros Hnet Hc. rewrite networkFirstStrategy_failure, Hc by exact Hnet.
  eexists. split; [reflexivity|]. repeat split.
  unfold cache_status, with_header. cbn [headers]. apply lookup_insert_eq.
Qed.

(** When the network fails on a request to an API endpoint, the router
    does not reject: without an entry it answers with the empty JSON
    array. *)
Lemma networkFirstStrategy_never_rejects now net request c :
  network_failed net -> isApiRequest (url request) = true ->
  exists r, snd (networkFirstStrategy html now net request c) = Some r.
Proof.
  intros Hnet Hapi. rewrite networkFirstStrategy_failure by exact Hnet.
  destruct (data_cache c !! url request); [eexists; reflexivity|].
  rewrite createOfflineFallback_api by exact Hapi. eexists; reflexivity.
Qed.

(** The entry that [networkFirstStrategy] puts into the data cache is the
    response as the network gave it; [cacheFirstStrategy] stamps the entry
    it puts with [sw-cache-timestamp]. *)
Lemma cache_put_stamps now online r request c :
  status r = 200 ->
  data_cache (fst (networkFirstStrategy html now (Some r) request c)) !! url request
    = Some r /\
  (static_cache c !! url request = None ->
   static_cache (fst (cacheFirstStrategy html now online (Some r) request c))
     !! url request = Some (with_header "sw-cache-timestamp" (pretty now) r)).
Proof.
  intros Hs. apply Z.eqb_eq in Hs. split.
  - unfold networkFirstStrategy. rewrite Hs. cbn [fst data_cache].
    apply lookup_insert_eq.
  - intros Hc. unfold cacheFirstStrategy. rewrite Hc, Hs. cbn [fst static_cache].
    apply lookup_insert_eq.
Qed.

(** An entry without [sw-cache-timestamp] counts as cached at time 0: once
    the clock is past the TTL it is labelled stale, whenever it was put. *)
Lemma unstamped_entry_stale now entry :
  headers entry !! "sw-cache-timestamp" = None ->
  CACHE_DURATION_API_DATA < now ->
  age_gt now entry CACHE_DURATION_API_DATA = true.
Proof.
  intros Hh Hnow. unfold age_gt, cache_timestamp. rewrite Hh.
  change (ParseInt.parseInt (or_else None "0")) with (Some 0).
  apply Z.ltb_lt. lia.
Qed.

End RouterFacts.

(** The sweep of the data cache keeps an entry exactly when the age that
    its [sw-cache-timestamp] header gives is not above seven days. *)
Lemma cleanupExpiredCaches_lookup now c k r :
  data_cache (fst (ServiceWorker.cleanupExpiredCaches now c)) !! k = Some r <->
  data_cache c !! k = Some r /\ ServiceWorker.age_gt now r RETENTION = false.
Proof.
  unfold ServiceWorker.cleanupExpiredCaches. cbn [fst data_cache].
  rewrite map_lookup_filter_Some. reflexivity.
Qed.

(** C7 at its failing input: a request to the events endpoint is answered
    by the network and cached; a minute later the network is down. The
    router answers from the cache, and labels the entry of a minute ago
    [cache-stale] although the TTL is 30 minutes: the entry was cached
    without [sw-cache-timestamp], so its age is computed from 0. *)
Theorem network_first_entry_labelled_stale (html : string) :
  exists c r1 r2,
    ServiceWorker.networkFirstStrategy html example_now (Some ok_response)
      api_request empty_caches = (c, Some r1) /\
    cache_status r1 = Some "network-fresh" /\
    ServiceWorker.networkFirstStrategy html (example_now + 60 * 1000) None
      api_request c = (c, Some r2) /\
    body r2 = body ok_response /\
    cache_status r2 = Some "cache-stale" /\
    60 * 1000 < ServiceWorker.CACHE_DURATION_API_DATA.
Proof.
  eexists _, _, _. split; [vm_compute; reflexivity|].
  split; [vm_compute; reflexivity|].
  split; [vm_compute; reflexivity|].
  repeat split; vm_compute; reflexivity.
Qed.

(** C9 at its failing input: a request to the events endpoint is answered
    by the network and cached by [networkFirstStrategy]; a second later
    [cleanupExpiredCaches] runs. The entry is one second old, far from the
    seven days of the sweep, and the sweep deletes it and counts it: the
    entry was cached without [sw-cache-timestamp], so its age is computed
    from 0. *)
Theorem sweep_deletes_entry_of_a_second_ago (html : string) :
  exists c,
    fst (ServiceWorker.networkFirstStrategy html example_now (Some ok_response)
           api_request empty_caches) = c /\
    data_cache c !! url api_request = Some ok_response /\
    (example_now + 1000) - example_now < RETENTION /\
    data_cache (fst (ServiceWorker.cleanupExpiredCaches (example_now + 1000) c))
      !! url api_request = None /\
    snd (ServiceWorker.cleanupExpiredCaches (example_now + 1000) c) = 1.
Proof.
  eexists. split; [reflexivity|]. repeat split; vm_compute; reflexivity.
Qed.

(** ** Sequences of syncs *)

Section Runs.
Context `{JsRuntime} `{SyncHelpers}.

Lemma syncDataType_bounded e type options w t :
  (forall ty, DataSyncManager.lastSync ty w <= t) -> t <= now e ->
  forall ty, DataSyncManager.lastSync ty
               (fst (DataSyncManager.syncDataType e type options w)) <= now e.
Proof.
  intros Hb Ht ty. unfold DataSyncManager.lastSync at 1.
  destruct (syncDataType_timestamps e type options w) as [->| ->].
  - specialize (Hb ty). unfold DataSyncManager.lastSync in Hb. lia.
  - destruct (decide (type_key type = type_key ty)) as [Heq|Hne].
    + rewrite Heq, lookup_insert_eq. simpl. lia.
    + rewrite lookup_insert_ne by exact Hne.
      specialize (Hb ty). unfold DataSyncManager.lastSync in Hb. lia.
Qed.

(** X19. Over a sequence of calls that run one after the other, each
    settled before the next starts, whose clock readings do not go
    backwards and start at or after every last sync time, no last sync time
    decreases, whether the syncs succeed or fail. *)
Lemma run_monotone calls w t ty :
  (forall ty', DataSyncManager.lastSync ty' w <= t) -> clock_from t calls ->
  DataSyncManager.lastSync ty w <= DataSyncManager.lastSync ty (run calls w).
Proof.
  revert w t. induction calls as [|[[e type] options] calls IH]; intros w t Hb Hc.
  - reflexivity.
  - destruct Hc as [Ht Hc]. cbn [run].
    etransitivity; [|eapply IH; [|exact Hc]].
    + apply syncDataType_monotone. specialize (Hb type). lia.
    + eapply syncDataType_bounded; eassumption.
Qed.

(** A record that a read with a [maxAge] within the retention ceiling
    returns is kept by a sweep at the same time. *)
Lemma getEvents_survive_cleanup now o db r :
  stamped db -> maxAge o <= RETENTION ->
  In r (DataStorage.getEvents now o db) ->
  In r (events_store (fst (DataStorage.cleanup now db))).
Proof.
  intros [He Hs] Hage Hin. apply getEvents_held in Hin as [Hin Hc].
  unfold DataStorage.cleanup. cbn [fst events_store].
  apply cleanup_store_In; [exact He|]. split; [exact Hin|].
  unfold older_than. lia.
Qed.

End Runs.

(** ** Utils.fetchWithRetry, Utils.throttle and Utils.generateStableId *)

Section RetryFacts.
Import Retry.
Variables (outcome : nat -> FetchAttempt) (jitter : nat -> Z).

Lemma loop_success remaining i lastError k r :
  (k < remaining)%nat ->
  outcome (i + k) = AttemptResponse r -> response_ok r = true ->
  (forall j, (j < k)%nat -> attempt_error (outcome (i + j)) <> None) ->
  fr_result (loop outcome jitter remaining i lastError) = inl r /\
  fr_attempts (loop outcome jitter remaining i lastError) = S k /\
  length (fr_delays (loop outcome jitter remaining i lastError)) = k.
Proof.
  revert remaining i lastError.
  induction k as [|k IH]; intros remaining i lastError Hk Hok Hr Hfail.
  - destruct remaining as [|remaining]; [lia|]. cbn [loop].
    rewrite Nat.add_0_r in Hok. rewrite Hok. cbn [attempt_error]. rewrite Hr.
    repeat split.
  - destruct remaining as [|remaining]; [lia|]. cbn [loop].
    assert (Herr : attempt_error (outcome i) <> None).
    { specialize (Hfail 0%nat). rewrite Nat.add_0_r in Hfail. apply Hfail. lia. }
    destruct (IH remaining (S i) (attempt_error (outcome i))) as (H1 & H2 & H3).
    + lia.
    + rewrite <- Hok. f_equal. lia.
    + exact Hr.
    + intros j Hj. replace (S i + j)%nat with (i + S j)%nat by lia. apply Hfail. lia.
    + destruct (outcome i) as [r0|m] eqn:Ho.
      * destruct (attempt_error (AttemptResponse r0)) eqn:He; [|contradiction].
        cbn [fr_result fr_attempts fr_delays]. rewrite H1, H2.
        destruct remaining; [lia|]. cbn [length]. rewrite H3. repeat split.
      * cbn [attempt_error fr_result fr_attempts fr_delays] in *. rewrite H1, H2.
        destruct remaining; [lia|]. cbn [length]. rewrite H3. repeat split.
Qed.

Lemma loop_exhausted remaining i lastError :
  (forall j, (j < remaining)%nat -> attempt_error (outcome (i + j)) <> None) ->
  fr_result (loop outcome jitter remaining i lastError) =
    inr (match remaining with
         | O => lastError
         | S n => attempt_error (outcome (i + n))
         end) /\
  fr_attempts (loop outcome jitter remaining i lastError) = remaining /\
  length (fr_delays (loop outcome jitter remaining i lastError)) = pred remaining.
Proof.
  revert i lastError. induction remaining as [|remaining IH]; intros i lastError Hfail.
  - repeat split.
  - cbn [loop].
    assert (Herr : attempt_error (outcome i) <> None).
    { specialize (Hfail 0%nat). rewrite Nat.add_0_r in Hfail. apply Hfail. lia. }
    destruct (IH (S i) (attempt_error (outcome i))) as (H1 & H2 & H3).
    { intros j Hj. replace (S i + j)%nat with (i + S j)%nat by lia. apply Hfail. lia. }
    assert (Hres : fr_result (loop outcome jitter remaining (S i)
                               (attempt_error (outcome i))) =
                   inr (attempt_error (outcome (i + remaining)))).
    { rewrite H1. destruct remaining as [|n].
      - rewrite Nat.add_0_r. reflexivity.
      - do 2 f_equal. f_equal. lia. }
    destruct (outcome i) as [r0|m] eqn:Ho.
    + destruct (attempt_error (AttemptResponse r0)) eqn:He; [|contradiction].
      cbn [fr_result fr_attempts fr_delays]. rewrite Hres, H2.
      split; [reflexivity|]. split; [reflexivity|].
      destruct remaining; [reflexivity|]. cbn [length pred] in *. lia.
    + cbn [attempt_error fr_result fr_attempts fr_delays] in *. rewrite Hres, H2.
      split; [reflexivity|]. split; [reflexivity|].
      destruct remaining; [reflexivity|]. cbn [length pred] in *. lia.
Qed.

Lemma loop_bounds remaining i lastError :
  jitter_ok jitter ->
  (Nat.min 1 remaining <= fr_attempts (loop outcome jitter remaining i lastError)
     <= remaining)%nat /\
  length (fr_delays (loop outcome jitter remaining i lastError)) =
    pred (fr_attempts (loop outcome jitter remaining i lastError)) /\
  Forall (fun d => 1000 <= d <= 10000)
    (fr_delays (loop outcome jitter remaining i lastError)).
Proof.
  intros Hj. revert i lastError.
  induction remaining as [|remaining IH]; intros i lastError.
  - cbn. split; [lia|]. split; [reflexivity|constructor].
  - cbn [loop]. destruct (IH (S i) (attempt_error (outcome i))) as (H1 & H2 & H3).
    assert (Hb : 1000 <= backoff i (jitter i) <= 10000).
    { unfold backoff. specialize (Hj i).
      pose proof (Z.pow_pos_nonneg 2 (Z.of_nat i)). lia. }
    assert (Hfail :
      (Nat.min 1 (S remaining) <=
         S (fr_attempts (loop outcome jitter remaining (S i)
                           (attempt_error (outcome i)))) <= S remaining)%nat /\
      length (match remaining with
              | O => fr_delays (loop outcome jitter remaining (S i)
                                  (attempt_error (outcome i)))
              | S _ => backoff i (jitter i) ::
                       fr_delays (loop outcome jitter remaining (S i)
                                    (attempt_error (outcome i)))
              end) =
        pred (S (fr_attempts (loop outcome jitter remaining (S i)
                                (attempt_error (outcome i))))) /\
      Forall (fun d => 1000 <= d <= 10000)
        (match remaining with
         | O => fr_delays (loop outcome jitter remaining (S i)
                             (attempt_error (outcome i)))
         | S _ => backoff i (jitter i) ::
                  fr_delays (loop outcome jitter remaining (S i)
                               (attempt_error (outcome i)))
         end)).
    { split; [lia|]. destruct remaining as [|n].
      - split; [lia|exact H3].
      - split; [cbn [length]; lia|constructor; assumption]. }
    destruct (outcome i) as [r0|m] eqn:Ho.
    + destruct (attempt_error (AttemptResponse r0)) eqn:He.
      * cbn [fr_attempts fr_delays]. exact Hfail.
      * cbn. split; [lia|]. split; [reflexivity|constructor].
    + cbn [fr_attempts fr_delays]. exact Hfail.
Qed.

End RetryFacts.

(** X1. When the request of round [k] is the first one answered with an [ok]
    response, and [k] is below [maxRetries], [fetchWithRetry] returns that
    response after exactly [k + 1] requests and [k] waits. *)
Theorem fetchWithRetry_first_success (outcome : nat -> FetchAttempt)
    (jitter : nat -> Z) (maxRetries k : nat) (r : Response) :
  (k < maxRetries)%nat -> outcome k = AttemptResponse r -> response_ok r = true ->
  fails_before outcome k ->
  fr_result (Retry.fetchWithRetry outcome jitter maxRetries) = inl r /\
  fr_attempts (Retry.fetchWithRetry outcome jitter maxRetries) = S k /\
  length (fr_delays (Retry.fetchWithRetry outcome jitter maxRetries)) = k.
Proof.
  intros Hk Hok Hr Hfail. unfold Retry.fetchWithRetry.
  apply loop_success; try assumption.
Qed.

Lemma fails_before_third : fails_before outcome_third_ok 2.
Proof.
  intros [|[|j]] Hj; [discriminate|discriminate|lia].
Defined.

Lemma fetchWithRetry_first_success_witness :
  (2 < 3)%nat /\ outcome_third_ok 2 = AttemptResponse ok_response /\
  response_ok ok_response = true /\ fails_before outcome_third_ok 2 /\
  fr_result (Retry.fetchWithRetry outcome_third_ok jitter_half 3) = inl ok_response /\
  fr_attempts (Retry.fetchWithRetry outcome_third_ok jitter_half 3) = 3%nat /\
  length (fr_delays (Retry.fetchWithRetry outcome_third_ok jitter_half 3)) = 2%nat.
Proof.
  assert (H23 : (2 < 3)%nat) by lia.
  split; [exact H23|]. split; [reflexivity|]. split; [reflexivity|].
  split; [exact fails_before_third|].
  exact (fetchWithRetry_first_success outcome_third_ok jitter_half 3 2 ok_response
           H23 eq_refl eq_refl fails_before_third).
Defined.

(** X2. When none of the first [maxRetries] requests is answered with an
    [ok] response, [fetchWithRetry] throws the error of the last of them,
    after exactly [maxRetries] requests and [maxRetries - 1] waits: it does
    not wait after the last failure. *)
Theorem fetchWithRetry_exhausted (outcome : nat -> FetchAttempt)
    (jitter : nat -> Z) (maxRetries : nat) :
  fails_before outcome (S maxRetries) ->
  fr_result (Retry.fetchWithRetry outcome jitter (S maxRetries)) =
    inr (Retry.attempt_error (outcome maxRetries)) /\
  fr_attempts (Retry.fetchWithRetry outcome jitter (S maxRetries)) = S maxRetries /\
  length (fr_delays (Retry.fetchWithRetry outcome jitter (S maxRetries))) = maxRetries.
Proof.
  intros Hfail. unfold Retry.fetchWithRetry.
  apply (loop_exhausted outcome jitter (S maxRetries) 0 None). exact Hfail.
Qed.

Lemma fails_before_down k : fails_before outcome_down k.
Proof. intros j _. discriminate. Defined.

Lemma fetchWithRetry_exhausted_witness :
  fails_before outcome_down 3 /\
  fr_result (Retry.fetchWithRetry outcome_down jitter_half 3) =
    inr (Some "Failed to fetch") /\
  fr_attempts (Retry.fetchWithRetry outcome_down jitter_half 3) = 3%nat /\
  length (fr_delays (Retry.fetchWithRetry outcome_down jitter_half 3)) = 2%nat.
Proof.
  split; [exact (fails_before_down 3)|].
  exact (fetchWithRetry_exhausted outcome_down jitter_half 2 (fails_before_down 3)).
Defined.

(** X3. Whatever the requests give, [fetchWithRetry] makes at most
    [maxRetries] requests, waits once between two requests and not after the
    last, and every wait is between one and ten seconds. *)
Theorem fetchWithRetry_waits (outcome : nat -> FetchAttempt) (jitter : nat -> Z)
    (maxRetries : nat) :
  jitter_ok jitter ->
  (fr_attempts (Retry.fetchWithRetry outcome jitter maxRetries) <= maxRetries)%nat /\
  length (fr_delays (Retry.fetchWithRetry outcome jitter maxRetries)) =
    pred (fr_attempts (Retry.fetchWithRetry outcome jitter maxRetries)) /\
  Forall (fun d => 1000 <= d <= 10000)
    (fr_delays (Retry.fetchWithRetry outcome jitter maxRetries)).
Proof.
  intros Hj. unfold Retry.fetchWithRetry.
  destruct (loop_bounds outcome jitter maxRetries 0 None Hj) as ([_ H1] & H2 & H3).
  auto.
Qed.

Lemma jitter_half_ok : jitter_ok jitter_half.
Proof. intros i. unfold jitter_half. lia. Defined.

Lemma fetchWithRetry_waits_witness :
  jitter_ok jitter_half /\
  (fr_attempts (Retry.fetchWithRetry outcome_down jitter_half 3) <= 3)%nat /\
  length (fr_delays (Retry.fetchWithRetry outcome_down jitter_half 3)) =
    pred (fr_attempts (Retry.fetchWithRetry outcome_down jitter_half 3)) /\
  Forall (fun d => 1000 <= d <= 10000)
    (fr_delays (Retry.fetchWithRetry outcome_down jitter_half 3)).
Proof.
  split; [exact jitter_half_ok|].
  exact (fetchWithRetry_waits outcome_down jitter_half 3 jitter_half_ok).
Defined.

(** The waits of the default three attempts with half a second of jitter. *)
Example fetchWithRetry_delays_example :
  fr_delays (Retry.fetchWithRetry outcome_down jitter_half 3) = [1500; 2500].
Proof. reflexivity. Qed.

(** X4. The function that [throttle] returns runs [func] only when at least
    [delay] has passed since the last run: the runs are at least [delay]
    apart, and they happen at readings of the calls, in their order. *)
Theorem throttle_spaced (delay lastCall : Z) (calls : list Z) :
  spaced delay lastCall (Retry.throttle_runs delay lastCall calls) /\
  sublist (Retry.throttle_runs delay lastCall calls) calls.
Proof.
  revert lastCall. induction calls as [|now calls IH]; intros lastCall.
  - split; [exact I|constructor].
  - cbn [Retry.throttle_runs]. unfold Retry.throttled.
    destruct (Z.leb_spec delay (now - lastCall)) as [Hle|Hlt]; cbn [fst snd].
    + destruct (IH now) as [Hs Hl]. split.
      * cbn [spaced]. split; [exact Hle|exact Hs].
      * apply sublist_skip, Hl.
    + destruct (IH lastCall) as [Hs Hl]. split; [exact Hs|].
      apply sublist_cons, Hl.
Qed.

Section HashFacts.
Import StableId.

Lemma toInt32_mod x : toInt32 x mod 2 ^ 32 = x mod 2 ^ 32.
Proof.
  unfold toInt32. destruct (x mod 2 ^ 32 <? 2 ^ 31).
  - apply Z.mod_mod. lia.
  - rewrite <- (Z.mod_mod x (2 ^ 32)) at 2 by lia.
    rewrite <- (Z_mod_plus_full (x mod 2 ^ 32 - 2 ^ 32) 1 (2 ^ 32)).
    f_equal. lia.
Qed.

Lemma toInt32_congr a b : a mod 2 ^ 32 = b mod 2 ^ 32 -> toInt32 a = toInt32 b.
Proof. unfold toInt32. intros ->. reflexivity. Qed.

Lemma toInt32_range x : - 2 ^ 31 <= toInt32 x < 2 ^ 31.
Proof.
  unfold toInt32. pose proof (Z.mod_pos_bound x (2 ^ 32) ltac:(lia)).
  destruct (Z.ltb_spec (x mod 2 ^ 32) (2 ^ 31)); lia.
Qed.

Lemma hash_step_31 hash char : hash_step hash char = toInt32 (31 * hash + char).
Proof.
  unfold hash_step. apply toInt32_congr.
  rewrite Zplus_mod, Zminus_mod, toInt32_mod, <- Zminus_mod, <- Zplus_mod.
  f_equal. lia.
Qed.

Lemma poly31_congr a b codes :
  a mod 2 ^ 32 = b mod 2 ^ 32 ->
  poly31 a codes mod 2 ^ 32 = poly31 b codes mod 2 ^ 32.
Proof.
  revert a b. induction codes as [|c codes IH]; intros a b Hab; cbn [poly31].
  - exact Hab.
  - apply IH. rewrite Zplus_mod, Zmult_mod, Hab, <- Zmult_mod, <- Zplus_mod.
    reflexivity.
Qed.

Lemma fold_hash_poly codes x :
  fold_left hash_step codes (toInt32 x) = toInt32 (poly31 x codes).
Proof.
  revert x. induction codes as [|c codes IH]; intros x; cbn [fold_left poly31].
  - reflexivity.
  - rewrite hash_step_31, IH. apply toInt32_congr, poly31_congr.
    rewrite Zplus_mod, Zmult_mod, toInt32_mod, <- Zmult_mod, <- Zplus_mod.
    reflexivity.
Qed.

End HashFacts.

(** X5. The hash that [generateStableId] computes round by round in 32-bit
    arithmetic is the polynomial in 31 of the code units, reduced to a
    signed 32-bit integer. *)
Theorem generateStableId_hash (codes : list Z) :
  StableId.hash_codes codes = StableId.toInt32 (StableId.poly31 0 codes) /\
  - 2 ^ 31 <= StableId.hash_codes codes < 2 ^ 31.
Proof.
  assert (StableId.hash_codes codes = StableId.toInt32 (StableId.poly31 0 codes)) as ->.
  { unfold StableId.hash_codes. apply (fold_hash_poly codes 0). }
  split; [reflexivity|apply toInt32_range].
Qed.

(** X6. The identifier that [generateStableId] gives the same content
    changes with the clock: at two different readings it is different. *)
Theorem generateStableId_not_stable (codes : list Z) (now1 now2 : Z) :
  now1 <> now2 ->
  StableId.generateStableId codes now1 <> StableId.generateStableId codes now2.
Proof.
  intros Hne Heq. unfold StableId.generateStableId in Heq.
  apply Hne.
  repeat apply String.app_inj in Heq.
  apply (inj pretty). exact Heq.
Qed.

Lemma generateStableId_not_stable_witness :
  example_now <> example_now + 1 /\
  StableId.generateStableId [123; 125] example_now <>
    StableId.generateStableId [123; 125] (example_now + 1).
Proof.
  assert (Hne : example_now <> example_now + 1) by (unfold example_now; lia).
  split; [exact Hne|].
  exact (generateStableId_not_stable [123; 125] example_now (example_now + 1) Hne).
Defined.

(** The identifier of the empty object [{}] at the worked clock reading. *)
Example generateStableId_example :
  StableId.generateStableId [123; 125] example_now = "id_31e_1700000000000".
Proof. vm_compute. reflexivity. Qed.

(** ** Keys of the object stores *)

Lemma string_compare_refl s : (s ?= s)%string = Eq.
Proof.
  induction s as [|a s IH]; simpl; [reflexivity|].
  unfold Ascii.compare. rewrite N.compare_refl. exact IH.
Qed.

Lemma string_ltb_trans a b c :
  String.ltb a b = true -> String.ltb b c = true -> String.ltb a c = true.
Proof.
  unfold String.ltb. intros Hab Hbc.
  destruct (a ?= b)%string eqn:Eab; try discriminate.
  destruct (b ?= c)%string eqn:Ebc; try discriminate.
  assert (Hle : String.le a c).
  { transitivity b; unfold String.le, String.leb; [rewrite Eab|rewrite Ebc]; exact I. }
  unfold String.le, String.leb in Hle.
  destruct (a ?= c)%string eqn:Eac; [|reflexivity|destruct Hle].
  apply String.compare_eq_iff in Eac. subst c.
  rewrite String.compare_antisym, Eab in Ebc. discriminate.
Qed.

Lemma id_eqb_eq a b : id_eqb a b = true <-> a = b.
Proof.
  destruct a as [x|x], b as [y|y]; simpl; split; try discriminate.
  - intros H. apply Z.eqb_eq in H. congruence.
  - intros [= ->]. apply Z.eqb_refl.
  - intros H. apply String.eqb_eq in H. congruence.
  - intros [= ->]. apply String.eqb_refl.
Qed.

Lemma id_ltb_irrefl a : id_ltb a a = false.
Proof.
  destruct a as [x|x]; simpl; [apply Z.ltb_irrefl|].
  unfold String.ltb. rewrite string_compare_refl. reflexivity.
Qed.

Lemma id_ltb_trans a b c : id_lt a b -> id_lt b c -> id_lt a c.
Proof.
  unfold id_lt. destruct a as [x|x], b as [y|y], c as [z|z]; simpl;
    try discriminate; try reflexivity.
  - rewrite !Z.ltb_lt. lia.
  - apply string_ltb_trans.
Qed.

Lemma id_ltb_total a b : id_ltb a b = false -> id_eqb a b = false -> id_lt b a.
Proof.
  unfold id_lt. destruct a as [x|x], b as [y|y]; simpl; try discriminate; try reflexivity.
  - rewrite Z.ltb_ge, Z.eqb_neq, Z.ltb_lt. lia.
  - unfold String.ltb. intros Hlt Hne.
    rewrite String.compare_antisym.
    destruct (x ?= y)%string eqn:E; try discriminate; [|reflexivity].
    apply String.compare_eq_iff in E. subst. rewrite String.eqb_refl in Hne.
    discriminate.
Qed.

Section PutFacts.
Context {A : Type} (key : A -> Id).

Lemma idb_put_mem (r : A) store : In r (idb_put key r store).
Proof.
  induction store as [|x store IH]; simpl; [left; reflexivity|].
  destruct (id_ltb (key r) (key x)); [left; reflexivity|].
  destruct (id_eqb (key r) (key x)); [left; reflexivity|right; exact IH].
Qed.

Lemma idb_put_keeps (r x : A) store :
  In x store -> key x <> key r -> In x (idb_put key r store).
Proof.
  intros Hin Hne. induction store as [|y store IH]; simpl; [destruct Hin|].
  destruct (id_ltb (key r) (key y)); [right; exact Hin|].
  destruct (id_eqb (key r) (key y)) eqn:He.
  - apply id_eqb_eq in He. destruct Hin as [->|Hin]; [congruence|right; exact Hin].
  - destruct Hin as [->|Hin]; [left; reflexivity|right; auto].
Qed.

Lemma idb_put_sorted (r : A) store :
  keys_sorted key store -> keys_sorted key (idb_put key r store).
Proof.
  unfold keys_sorted. induction 1 as [|x store Hs IH Hx]; simpl.
  - constructor; constructor.
  - destruct (id_ltb (key r) (key x)) eqn:Hlt.
    + constructor; [constructor; assumption|].
      constructor; [exact Hlt|].
      rewrite List.Forall_forall in *. intros y Hy.
      eapply id_ltb_trans; [exact Hlt|auto].
    + destruct (id_eqb (key r) (key x)) eqn:He.
      * apply id_eqb_eq in He. constructor; [exact Hs|]. rewrite He. exact Hx.
      * constructor; [exact IH|].
        rewrite List.Forall_forall in *. intros y Hy.
        destruct (idb_put_In key r y store Hy) as [->|Hin]; [|auto].
        apply id_ltb_total; assumption.
Qed.

Lemma keys_sorted_unique store (x y : A) :
  keys_sorted key store -> In x store -> In y store -> key x = key y -> x = y.
Proof.
  unfold keys_sorted. induction 1 as [|z store Hs IH Hz]; [intros []|].
  rewrite List.Forall_forall in Hz.
  intros [<-|Hx] [<-|Hy] Hk; auto.
  - specialize (Hz y Hy). unfold id_lt in Hz. rewrite Hk, id_ltb_irrefl in Hz.
    discriminate.
  - specialize (Hz x Hx). unfold id_lt in Hz. rewrite Hk, id_ltb_irrefl in Hz.
    discriminate.
Qed.

Lemma keys_sorted_NoDup store : keys_sorted key store -> NoDup (map key store).
Proof.
  unfold keys_sorted. induction 1 as [|z store Hs IH Hz]; simpl; constructor.
  - rewrite List.Forall_forall in Hz. intros Hin.
    apply list_elem_of_In, in_map_iff in Hin as (y & Hk & Hy).
    specialize (Hz y Hy). unfold id_lt in Hz. rewrite Hk, id_ltb_irrefl in Hz.
    discriminate.
  - exact IH.
Qed.

Lemma fold_put_sorted {B} (f : B -> A) (l : list B) store :
  keys_sorted key store ->
  keys_sorted key (fold_left (fun s b => idb_put key (f b) s) l store).
Proof.
  revert store. induction l as [|b l IH]; intros store Hs; simpl; [exact Hs|].
  apply IH, idb_put_sorted, Hs.
Qed.

Lemma fold_put_keeps {B} (f : B -> A) (l : list B) store x :
  In x store -> (forall b, In b l -> key (f b) <> key x) ->
  In x (fold_left (fun s b => idb_put key (f b) s) l store).
Proof.
  revert store. induction l as [|b l IH]; intros store Hin Hne; simpl; [exact Hin|].
  apply IH.
  - apply idb_put_keeps; [exact Hin|]. intros Hk. apply (Hne b); [left; reflexivity|].
    symmetry. exact Hk.
  - intros b' Hb'. apply Hne. right. exact Hb'.
Qed.

End PutFacts.

(** ** Writes and reads of the event store *)

(** X7. [saveEvents] keeps the event store in key order: after it no two
    stored events have the same id. *)
Theorem saveEvents_unique_ids (now : Z) (events : list ProcessedEvent) (db : Idb) :
  keys_sorted se_id (events_store db) ->
  keys_sorted se_id (events_store (DataStorage.saveEvents now events db)) /\
  NoDup (map se_id (events_store (DataStorage.saveEvents now events db))).
Proof.
  intros Hs.
  assert (keys_sorted se_id (events_store (DataStorage.saveEvents now events db))) as H.
  { unfold DataStorage.saveEvents. cbn [events_store].
    apply (fold_put_sorted se_id (DataStorage.event_record now)), Hs. }
  split; [exact H|apply keys_sorted_NoDup, H].
Qed.

Lemma empty_store_sorted : keys_sorted se_id (events_store empty_db).
Proof. constructor. Defined.

Lemma saveEvents_unique_ids_witness :
  keys_sorted se_id (events_store empty_db) /\
  keys_sorted se_id
    (events_store (DataStorage.saveEvents example_now
                     [example_event 7 "first"; example_event 7 "second"] empty_db)) /\
  NoDup (map se_id
           (events_store (DataStorage.saveEvents example_now
                            [example_event 7 "first"; example_event 7 "second"]
                            empty_db))).
Proof.
  split; [exact empty_store_sorted|].
  exact (saveEvents_unique_ids example_now
           [example_event 7 "first"; example_event 7 "second"] empty_db
           empty_store_sorted).
Defined.

Lemma saveEvents_sorted_for_last now events e db :
  keys_sorted se_id (events_store db) ->
  keys_sorted se_id (events_store (DataStorage.saveEvents now (events ++ [e]) db)) /\
  In (DataStorage.event_record now e)
    (events_store (DataStorage.saveEvents now (events ++ [e]) db)).
Proof.
  intros Hs. split.
  - unfold DataStorage.saveEvents. cbn [events_store].
    apply (fold_put_sorted se_id (DataStorage.event_record now)), Hs.
  - unfold DataStorage.saveEvents. cbn [events_store].
    rewrite fold_left_app. cbn [fold_left]. apply idb_put_mem.
Qed.

(** X8. The last write wins: after [saveEvents], the record stored under
    the id of the last event written is the record of that event with the
    time of this write, whatever the store held under that id before. *)
Theorem saveEvents_last_write_wins (now : Z) (events : list ProcessedEvent)
    (e : ProcessedEvent) (db : Idb) (x : StoredEvent) :
  keys_sorted se_id (events_store db) ->
  In x (events_store (DataStorage.saveEvents now (events ++ [e]) db)) ->
  se_id x = ev_id e ->
  x = DataStorage.event_record now e.
Proof.
  intros Hs Hin Hid.
  destruct (saveEvents_sorted_for_last now events e db Hs) as [Hsorted Hmem].
  apply (keys_sorted_unique se_id _ _ _ Hsorted Hin Hmem). exact Hid.
Qed.

Lemma db_first_write_sorted : keys_sorted se_id (events_store db_first_write).
Proof. repeat constructor. Defined.

Lemma saveEvents_last_write_wins_witness :
  keys_sorted se_id (events_store db_first_write) /\
  In (DataStorage.event_record example_now (example_event 7 "second"))
    (events_store (DataStorage.saveEvents example_now
                     ([] ++ [example_event 7 "second"]) db_first_write)) /\
  se_id (DataStorage.event_record example_now (example_event 7 "second")) =
    ev_id (example_event 7 "second") /\
  DataStorage.event_record example_now (example_event 7 "second") =
    DataStorage.event_record example_now (example_event 7 "second").
Proof.
  assert (Hin : In (DataStorage.event_record example_now (example_event 7 "second"))
                  (events_store (DataStorage.saveEvents example_now
                                   ([] ++ [example_event 7 "second"]) db_first_write)))
    by (left; reflexivity).
  split; [exact db_first_write_sorted|]. split; [exact Hin|]. split; [reflexivity|].
  exact (saveEvents_last_write_wins example_now [] (example_event 7 "second")
           db_first_write _ db_first_write_sorted Hin eq_refl).
Defined.

(** After the second write of the event with id 7 the store holds one
    record, the second. *)
Example saveEvents_twice_example :
  events_store (DataStorage.saveEvents example_now [example_event 7 "second"]
                  db_first_write) =
    [DataStorage.event_record example_now (example_event 7 "second")].
Proof. reflexivity. Qed.

(** X9. [saveEvents] leaves the records of other ids as they are: a stored
    event whose id is not among the events written is still stored, and
    every record stored afterwards was stored before or is the record of one
    of the events written. *)
Theorem saveEvents_keeps_others (now : Z) (events : list ProcessedEvent) (db : Idb)
    (x : StoredEvent) :
  (In x (events_store db) -> (forall e, In e events -> ev_id e <> se_id x) ->
   In x (events_store (DataStorage.saveEvents now events db))) /\
  (In x (events_store (DataStorage.saveEvents now events db)) ->
   In x (events_store db) \/
   exists e, In e events /\ x = DataStorage.event_record now e).
Proof.
  unfold DataStorage.saveEvents. cbn [events_store]. split.
  - intros Hin Hne. apply (fold_put_keeps se_id (DataStorage.event_record now)).
    + exact Hin.
    + intros b Hb. cbn [DataStorage.event_record se_id]. apply Hne, Hb.
  - intros Hin. apply fold_put_In in Hin as [Hex|Hold]; [right; exact Hex|left; exact Hold].
Qed.

Lemma list_filter_partition {A} (f : A -> bool) (l : list A) :
  (length (List.filter f l) + length (List.filter (fun x => negb (f x)) l) = length l)%nat.
Proof.
  induction l as [|x l IH]; simpl; [reflexivity|].
  destruct (f x); simpl; lia.
Qed.

Lemma list_filter_twice {A} (f : A -> bool) (l : list A) :
  List.filter f (List.filter f l) = List.filter f l /\
  List.filter (fun x => negb (f x)) (List.filter f l) = [].
Proof.
  induction l as [|x l [IH1 IH2]]; simpl; [split; reflexivity|].
  destruct (f x) eqn:Hf; simpl; [rewrite Hf; simpl; rewrite IH1|]; auto.
Qed.

Lemma cleanup_store_count {A} (cached : A -> Z) cutoff (store : list A) :
  snd (DataStorage.cleanup_store cached cutoff store) =
    Z.of_nat (length store) -
    Z.of_nat (length (fst (DataStorage.cleanup_store cached cutoff store))).
Proof.
  unfold DataStorage.cleanup_store. cbn [fst snd].
  pose proof (list_filter_partition
                (fun r => DataStorage.expired cutoff (cached r)) store).
  lia.
Qed.

(** X10. The numbers that [cleanup] reports are the numbers of records that
    left each store. *)
Theorem cleanup_accounts (now : Z) (db : Idb) :
  snd (DataStorage.cleanup now db) =
    [ Z.of_nat (length (events_store db)) -
        Z.of_nat (length (events_store (fst (DataStorage.cleanup now db))));
      Z.of_nat (length (stations_store db)) -
        Z.of_nat (length (stations_store (fst (DataStorage.cleanup now db)))) ].
Proof.
  unfold DataStorage.cleanup. cbn [fst snd events_store stations_store].
  rewrite !cleanup_store_count. reflexivity.
Qed.

Lemma cleanup_store_twice {A} (cached : A -> Z) cutoff (store : list A) :
  DataStorage.cleanup_store cached cutoff
    (fst (DataStorage.cleanup_store cached cutoff store)) =
    (fst (DataStorage.cleanup_store cached cutoff store), 0).
Proof.
  unfold DataStorage.cleanup_store. cbn [fst].
  destruct (list_filter_twice (fun r => negb (DataStorage.expired cutoff (cached r)))
              store) as [H1 H2].
  rewrite H1. f_equal.
  erewrite filter_ext; [rewrite H2; reflexivity|].
  intros r. cbv beta. rewrite negb_involutive. reflexivity.
Qed.

(** X11. A second [cleanup] at the same time finds nothing to delete: it
    leaves the stores as the first one left them and reports zero twice. *)
Theorem cleanup_idempotent (now : Z) (db : Idb) :
  DataStorage.cleanup now (fst (DataStorage.cleanup now db)) =
    (fst (DataStorage.cleanup now db), [0; 0]).
Proof.
  unfold DataStorage.cleanup. cbn [fst snd events_store stations_store].
  rewrite !cleanup_store_twice. reflexivity.
Qed.

Lemma slice0_length {A} (n : Z) (l : list A) :
  0 <= n -> Z.of_nat (length (slice0 n l)) <= n.
Proof.
  intros Hn. unfold slice0. apply Z.leb_le in Hn as Hb. rewrite Hb.
  rewrite length_take. lia.
Qed.

Lemma slice0_In {A} (n : Z) (l : list A) x : In x (slice0 n l) -> In x l.
Proof. unfold slice0. destruct (0 <=? n); apply firstn_In. Qed.

Lemma event_passes_filters `{JsRuntime} cutoff o r :
  DataStorage.event_passes cutoff o r = true -> matches_filters o r.
Proof.
  unfold DataStorage.event_passes, matches_filters.
  destruct (se_cached r <? cutoff); [discriminate|].
  destruct (severityLevel o) as [l|].
  - destruct (Z.eqb_spec l 0) as [->|Hl]; simpl.
    + intros Hp. split; [left; reflexivity|]. revert Hp.
      destruct (city o) as [c|].
      * destruct (String.eqb_spec c "") as [->|Hc]; simpl.
        -- destruct (exactLocation o) as [b|]; [|auto].
           destruct (Bool.eqb_spec (se_exactLocation r) b); [auto|discriminate].
        -- destruct (Str.includes _ _); simpl; [|discriminate].
           destruct (exactLocation o) as [b|]; [|auto].
           destruct (Bool.eqb_spec (se_exactLocation r) b); [auto|discriminate].
      * destruct (exactLocation o) as [b|]; [|auto].
        destruct (Bool.eqb_spec (se_exactLocation r) b); [auto|discriminate].
    + destruct (Z.eqb_spec (se_severityLevel r) l) as [Hs|Hs]; simpl; [|discriminate].
      intros Hp. split; [right; exact Hs|]. revert Hp.
      destruct (city o) as [c|].
      * destruct (String.eqb_spec c "") as [->|Hc]; simpl.
        -- destruct (exactLocation o) as [b|]; [|auto].
           destruct (Bool.eqb_spec (se_exactLocation r) b); [auto|discriminate].
        -- destruct (Str.includes _ _); simpl; [|discriminate].
           destruct (exactLocation o) as [b|]; [|auto].
           destruct (Bool.eqb_spec (se_exactLocation r) b); [auto|discriminate].
      * destruct (exactLocation o) as [b|]; [|auto].
        destruct (Bool.eqb_spec (se_exactLocation r) b); [auto|discriminate].
  - intros Hp. split; [exact I|]. revert Hp.
    destruct (city o) as [c|].
    + destruct (String.eqb_spec c "") as [->|Hc]; simpl.
      * destruct (exactLocation o) as [b|]; [|auto].
        destruct (Bool.eqb_spec (se_exactLocation r) b); [auto|discriminate].
      * destruct (Str.includes _ _); simpl; [|discriminate].
        destruct (exactLocation o) as [b|]; [|auto].
        destruct (Bool.eqb_spec (se_exactLocation r) b); [auto|discriminate].
    + destruct (exactLocation o) as [b|]; [|auto].
      destruct (Bool.eqb_spec (se_exactLocation r) b); [auto|discriminate].
Qed.

(** X12. [getEvents] returns at most [limit] records, and every record it
    returns passes all the filters that are set (severity level, city
    substring, exact-location flag): the filters are conjunctive. A level
    of 0 and an empty city count as not set. *)
Theorem getEvents_filters `{JsRuntime} (now : Z) (o : GetOptions) (db : Idb)
    (r : StoredEvent) :
  0 <= limit o -> In r (DataStorage.getEvents now o db) ->
  Z.of_nat (length (DataStorage.getEvents now o db)) <= limit o /\
  matches_filters o r.
Proof.
  intros Hl Hin. unfold DataStorage.getEvents in *. split.
  - apply slice0_length, Hl.
  - apply slice0_In in Hin.
    eapply Permutation_in in Hin; [|apply js_sort_perm].
    apply filter_In in Hin as [_ Hp]. eapply event_passes_filters, Hp.
Qed.

Lemma getEvents_filters_witness :
  0 <= limit example_options /\
  In (example_stored 2 (example_now - 60 * 60 * 1000))
    (@DataStorage.getEvents example_runtime example_now example_options example_db) /\
  Z.of_nat (length (@DataStorage.getEvents example_runtime example_now
                      example_options example_db)) <= limit example_options /\
  @matches_filters example_runtime example_options
    (example_stored 2 (example_now - 60 * 60 * 1000)).
Proof.
  assert (Hl : 0 <= limit example_options) by (vm_compute; discriminate).
  assert (Hin : In (example_stored 2 (example_now - 60 * 60 * 1000))
                  (@DataStorage.getEvents example_runtime example_now example_options
                     example_db)) by (left; reflexivity).
  split; [exact Hl|]. split; [exact Hin|].
  exact (@getEvents_filters example_runtime example_now example_options example_db
           (example_stored 2 (example_now - 60 * 60 * 1000)) Hl Hin).
Defined.

Lemma sort_insert_ext {A} (cmp1 cmp2 : A -> A -> Z) x l :
  (forall y, In y l -> cmp1 x y = cmp2 x y) ->
  sort_insert cmp1 x l = sort_insert cmp2 x l.
Proof.
  induction l as [|y l IH]; intros Heq; simpl; [reflexivity|].
  rewrite (Heq y) by (left; reflexivity).
  destruct (cmp2 x y <=? 0); [reflexivity|].
  f_equal. apply IH. intros z Hz. apply Heq. right. exact Hz.
Qed.

Lemma js_sort_ext {A} (cmp1 cmp2 : A -> A -> Z) l :
  (forall x y, In x l -> In y l -> cmp1 x y = cmp2 x y) ->
  js_sort cmp1 l = js_sort cmp2 l.
Proof.
  induction l as [|x l IH]; intros Heq; simpl; [reflexivity|].
  rewrite IH by (intros; apply Heq; right; assumption).
  apply sort_insert_ext. intros y Hy. apply Heq; [left; reflexivity|].
  right. eapply Permutation_in; [apply js_sort_perm|exact Hy].
Qed.

(** X13. When every stored event has a numeric [timeMs], [getEvents]
    returns its records newest first, in descending order of [timeMs]. *)
Theorem getEvents_newest_first `{JsRuntime} (now : Z) (o : GetOptions) (db : Idb) :
  times_numeric db ->
  descending stored_time (DataStorage.getEvents now o db).
Proof.
  intros Hnum. unfold DataStorage.getEvents, slice0.
  assert (Hs : descending stored_time
                 (js_sort (fun a b => time_desc (se_timeMs a) (se_timeMs b))
                    (List.filter (DataStorage.event_passes (now - maxAge o) o)
                       (events_store db)))).
  { rewrite (js_sort_ext _ (fun a b => stored_time b - stored_time a)).
    - apply js_sort_descending.
    - intros x y Hx Hy. apply filter_In in Hx as [Hx _]. apply filter_In in Hy as [Hy _].
      apply Hnum in Hx. apply Hnum in Hy. unfold time_desc, stored_time.
      destruct (se_timeMs x), (se_timeMs y); try contradiction. reflexivity. }
  destruct (0 <=? limit o); apply firstn_descending, Hs.
Qed.

Lemma example_db_numeric : times_numeric example_db.
Proof. intros r [<-|[<-|[]]]; discriminate. Defined.

(** A read that reaches back thirty days returns both worked records; the
    store holds the older one first, the read returns the newer one
    first. *)
Lemma getEvents_newest_first_witness :
  times_numeric example_db /\
  map se_id (events_store example_db) = [IdNum 1; IdNum 2] /\
  map se_id (@DataStorage.getEvents example_runtime example_now month_options
               example_db) = [IdNum 2; IdNum 1] /\
  descending stored_time
    (@DataStorage.getEvents example_runtime example_now month_options example_db).
Proof.
  split; [exact example_db_numeric|]. split; [reflexivity|]. split; [reflexivity|].
  exact (@getEvents_newest_first example_runtime example_now month_options example_db
           example_db_numeric).
Defined.

(** A read of the stations within the retention ceiling returns only
    records that a sweep at the same time keeps. *)
Lemma getStations_survive_cleanup now age db r :
  stamped db -> age <= RETENTION ->
  In r (DataStorage.getStations now age db) ->
  In r (stations_store (fst (DataStorage.cleanup now db))).
Proof.
  intros [He Hs] Hage Hin. unfold DataStorage.getStations in Hin.
  apply filter_In in Hin as [Hin Hc]. apply Z.leb_le in Hc.
  unfold DataStorage.cleanup. cbn [fst stations_store].
  apply cleanup_store_In; [exact Hs|]. split; [exact Hin|].
  unfold older_than. lia.
Qed.

(** ** More of the sync manager *)

Section MoreSyncFacts.
Context `{JsRuntime} `{SyncHelpers}.
Import DataSyncManager.

Lemma log_requests_urls urls w :
  requests (fold_left (fun w source => log_request source w) urls w) =
    rev urls ++ requests w.
Proof.
  revert w. induction urls as [|u urls IH]; intros w; simpl; [reflexivity|].
  rewrite IH. simpl. rewrite <- app_assoc. reflexivity.
Qed.

Lemma fetch_type_requests e type since w :
  requests (fst (fetch_type e type since w)) = endpoint_urls type ++ requests w.
Proof.
  destruct type; unfold fetch_type; cbn [fst].
  - unfold syncEvents. destruct (http_events e); reflexivity.
  - unfold syncStations. destruct (http_stations e); reflexivity.
  - unfold syncRSSFeeds. cbn [fst]. apply log_requests_urls.
Qed.

Lemma reaches_network_checks e type options w :
  reaches_network e type options w ->
  negb (isOnline w) && negb (force options) = false /\
  negb (force options) &&
    (now e - lastSync type w <? interval (syncConfig type)) = false /\
  showLoader options && negb (dom_ok e) = false.
Proof.
  intros [Hgo Hload]. split; [|split].
  - destruct Hgo as [Hf|[Ho _]]; [rewrite Hf; apply andb_false_r|rewrite Ho; reflexivity].
  - destruct Hgo as [Hf|[_ Hi]]; [rewrite Hf; reflexivity|].
    apply andb_false_iff. right. apply Z.ltb_ge. exact Hi.
  - destruct Hload as [Hl|Hd]; [rewrite Hl; reflexivity|rewrite Hd; apply andb_false_r].
Qed.

Lemma syncDataType_requests e type options w :
  reaches_network e type options w ->
  requests (fst (syncDataType e type options w)) = endpoint_urls type ++ requests w.
Proof.
  intros Hr. apply reaches_network_checks in Hr as (H1 & H2 & H3).
  unfold syncDataType. rewrite H1, H2, H3.
  pose proof (fetch_type_requests e type (lastSync type w) w) as Hreq.
  destruct (fetch_type e type (lastSync type w) w) as [w1 [data|]]; cbn [fst] in Hreq.
  - destruct (saveDataWithMetadata _ _ _ _ _) as [w2|] eqn:Hsave.
    + apply saveDataWithMetadata_frame in Hsave as (_ & _ & _ & Hq).
      cbn [fst]. rewrite Hq. exact Hreq.
    + cbn [fst]. unfold scheduleRetry. cbn. exact Hreq.
  - cbn [fst]. unfold scheduleRetry. cbn. exact Hreq.
Qed.

End MoreSyncFacts.

(** X14. What a read with a [maxAge] within the retention ceiling returns,
    of events or of stations, is kept by a sweep at the same time: the sweep
    never deletes a record that such a read still serves. *)
Theorem reads_survive_cleanup `{JsRuntime} (now age : Z) (o : GetOptions) (db : Idb) :
  stamped db -> maxAge o <= RETENTION -> age <= RETENTION ->
  (forall r, In r (DataStorage.getEvents now o db) ->
             In r (events_store (fst (DataStorage.cleanup now db)))) /\
  (forall r, In r (DataStorage.getStations now age db) ->
             In r (stations_store (fst (DataStorage.cleanup now db)))).
Proof.
  intros Hst Ho Hage. split; intros r Hin.
  - eapply getEvents_survive_cleanup; eassumption.
  - eapply getStations_survive_cleanup; eassumption.
Qed.

Lemma default_maxAge_within : maxAge DataStorage.default_options <= RETENTION.
Proof. vm_compute. discriminate. Defined.

Lemma stations_maxAge_within : CONFIG.CACHE_DURATION_STATIONS <= RETENTION.
Proof. vm_compute. discriminate. Defined.

Lemma reads_survive_cleanup_witness :
  stamped example_db /\ maxAge DataStorage.default_options <= RETENTION /\
  CONFIG.CACHE_DURATION_STATIONS <= RETENTION /\
  (forall r, In r (@DataStorage.getEvents example_runtime example_now
                     DataStorage.default_options example_db) ->
             In r (events_store (fst (DataStorage.cleanup example_now example_db)))) /\
  (forall r, In r (DataStorage.getStations example_now CONFIG.CACHE_DURATION_STATIONS
                     example_db) ->
             In r (stations_store (fst (DataStorage.cleanup example_now example_db)))).
Proof.
  split; [exact example_db_stamped|]. split; [exact default_maxAge_within|].
  split; [exact stations_maxAge_within|].
  exact (@reads_survive_cleanup example_runtime example_now
           CONFIG.CACHE_DURATION_STATIONS DataStorage.default_options example_db
           example_db_stamped default_maxAge_within stations_maxAge_within).
Defined.

(** X15. A forced call without loading indicator starts the remote reads of
    its type whatever the connectivity flag and the last sync time are: one
    read of the endpoint of the events or of the stations (a call of
    [Utils.fetchWithRetry], which sends up to three requests), or one
    [fetch] for each feed. *)
Theorem forced_sync_requests `{JsRuntime} `{SyncHelpers}
    (e : Env) (type : EntityType) (options : Options) (w : World) :
  force options = true -> showLoader options = false ->
  requests (fst (DataSyncManager.syncDataType e type options w)) =
    endpoint_urls type ++ requests w.
Proof.
  intros Hf Hl. apply syncDataType_requests. split; [left; exact Hf|left; exact Hl].
Qed.

Lemma forced_sync_requests_witness :
  force forced_call = true /\ showLoader forced_call = false /\
  requests (fst (DataSyncManager.syncDataType (env_healthy example_now) events
                   forced_call world_offline)) =
    endpoint_urls events ++ requests world_offline.
Proof.
  split; [reflexivity|]. split; [reflexivity|].
  exact (forced_sync_requests (env_healthy example_now) events forced_call
           world_offline eq_refl eq_refl).
Defined.



(** Nothing is written for the feeds. *)
Lemma save_rss_nothing `{JsRuntime} e l t prio w :
  DataSyncManager.saveDataWithMetadata e (FetchedRss l) t prio w = Some w.
Proof.
  unfold DataSyncManager.saveDataWithMetadata. destruct (storage w); reflexivity.
Qed.

(** X17. A sync of the feeds cannot fail: when the call gets past its
    checks it returns the items of the feeds that answered, sets the last
    sync time of the feeds to its clock, schedules no retry and leaves the
    store as it is, even when every feed is down. *)
Theorem rss_sync_never_fails `{JsRuntime} `{SyncHelpers}
    (e : Env) (options : Options) (w : World) :
  reaches_network e rss options w ->
  snd (DataSyncManager.syncDataType e rss options w) =
    Returned (map ItemRss (DataSyncManager.feeds e CONFIG.RSS_SOURCES 0)) /\
  DataSyncManager.lastSync rss (fst (DataSyncManager.syncDataType e rss options w)) =
    now e /\
  timers (fst (DataSyncManager.syncDataType e rss options w)) = timers w /\
  storage (fst (DataSyncManager.syncDataType e rss options w)) = storage w.
Proof.
  intros Hr. apply reaches_network_checks in Hr as (H1 & H2 & H3).
  unfold DataSyncManager.syncDataType. rewrite H1, H2, H3.
  cbn [DataSyncManager.fetch_type DataSyncManager.syncRSSFeeds fst snd].
  pose proof (log_requests_same_state CONFIG.RSS_SOURCES w) as (_ & Hl & Ht & Hs).
  rewrite save_rss_nothing. cbn [fst snd fetched_items].
  split; [reflexivity|]. split; [|split].
  - unfold DataSyncManager.lastSync, DataSyncManager.set_timestamp.
    cbn [lastSyncTimestamps]. rewrite lookup_insert_eq. reflexivity.
  - exact Ht.
  - exact Hs.
Qed.

Lemma forced_reaches_network e type w : reaches_network e type forced_call w.
Proof. split; left; reflexivity. Defined.

Lemma rss_sync_never_fails_witness :
  reaches_network (env_down example_now) rss forced_call world_offline /\
  snd (DataSyncManager.syncDataType (env_down example_now) rss forced_call
         world_offline) =
    Returned (map ItemRss (DataSyncManager.feeds (env_down example_now)
                             CONFIG.RSS_SOURCES 0)) /\
  DataSyncManager.lastSync rss
    (fst (DataSyncManager.syncDataType (env_down example_now) rss forced_call
            world_offline)) = now (env_down example_now) /\
  timers (fst (DataSyncManager.syncDataType (env_down example_now) rss forced_call
                 world_offline)) = timers world_offline /\
  storage (fst (DataSyncManager.syncDataType (env_down example_now) rss forced_call
                  world_offline)) = storage world_offline.
Proof.
  split; [exact (forced_reaches_network (env_down example_now) rss world_offline)|].
  exact (rss_sync_never_fails (env_down example_now) forced_call world_offline
           (forced_reaches_network (env_down example_now) rss world_offline)).
Defined.

(** X18. A call of [syncDataType] for one type never changes the last sync
    time of another type. *)
Theorem syncDataType_other_types `{JsRuntime} `{SyncHelpers}
    (e : Env) (type other : EntityType) (options : Options) (w : World) :
  other <> type ->
  DataSyncManager.lastSync other (fst (DataSyncManager.syncDataType e type options w)) =
    DataSyncManager.lastSync other w.
Proof.
  intros Hne. unfold DataSyncManager.lastSync.
  destruct (syncDataType_timestamps e type options w) as [->| ->]; [reflexivity|].
  rewrite lookup_insert_ne; [reflexivity|].
  intros Hk. apply Hne. destruct type, other; simpl in Hk; congruence.
Qed.

Lemma syncDataType_other_types_witness :
  events <> stations /\
  DataSyncManager.lastSync events
    (fst (DataSyncManager.syncDataType (env_healthy example_now) stations forced_call
            world_stale)) =
    DataSyncManager.lastSync events world_stale.
Proof.
  assert (Hne : events <> stations) by discriminate.
  split; [exact Hne|].
  exact (syncDataType_other_types (env_healthy example_now) stations events
           forced_call world_stale Hne).
Defined.

Lemma world_stale_bounded :
  forall ty, DataSyncManager.lastSync ty world_stale <= example_now - 60 * 60 * 1000.
Proof. intros []; vm_compute; discriminate. Defined.

Lemma example_calls_clock : clock_from (example_now - 60 * 60 * 1000) example_calls.
Proof.
  cbn. split; [vm_compute; discriminate|]. split; [vm_compute; discriminate|exact I].
Defined.

Lemma run_monotone_witness :
  (forall ty, DataSyncManager.lastSync ty world_stale <=
              example_now - 60 * 60 * 1000) /\
  clock_from (example_now - 60 * 60 * 1000) example_calls /\
  DataSyncManager.lastSync events world_stale <=
    DataSyncManager.lastSync events (run example_calls world_stale).
Proof.
  split; [exact world_stale_bounded|]. split; [exact example_calls_clock|].
  exact (run_monotone example_calls world_stale (example_now - 60 * 60 * 1000) events
           world_stale_bounded example_calls_clock).
Defined.

(** What a remote read gives does not depend on the state of the manager. *)
Lemma fetch_type_answer `{JsRuntime} `{SyncHelpers} e type since w w' :
  snd (DataSyncManager.fetch_type e type since w') =
  snd (DataSyncManager.fetch_type e type since w).
Proof.
  destruct type; unfold DataSyncManager.fetch_type; cbn [snd].
  - unfold DataSyncManager.syncEvents. destruct (http_events e); reflexivity.
  - unfold DataSyncManager.syncStations. destruct (http_stations e); reflexivity.
  - reflexivity.
Qed.

(** A call that no other call overlaps is its start followed by its
    settling. *)
Lemma syncDataType_in_two_steps `{JsRuntime} `{SyncHelpers} e type options w :
  DataSyncManager.syncDataType e type options w =
    match DataSyncManager.syncDataType_start e type options w with
    | (w', inl outcome) => (w', outcome)
    | (w', inr call) => DataSyncManager.syncDataType_settle e call w'
    end.
Proof.
  unfold DataSyncManager.syncDataType, DataSyncManager.syncDataType_start.
  destruct (negb (isOnline w) && negb (force options)); [reflexivity|].
  destruct (negb (force options) && _); [reflexivity|].
  destruct (showLoader options && negb (dom_ok e)); [reflexivity|].
  unfold DataSyncManager.syncDataType_settle.
  cbn [DataSyncManager.fl_type DataSyncManager.fl_options
       DataSyncManager.fl_lastSync DataSyncManager.fl_now].
  rewrite (fetch_type_answer e type (DataSyncManager.lastSync type w) w).
  destruct (DataSyncManager.fetch_type e type (DataSyncManager.lastSync type w) w)
    as [w1 [data|]]; reflexivity.
Qed.

(** Two calls that overlap: a sync of the events starts an hour after the
    last one and waits for its read; a second later a forced sync of the
    events starts, and its read settles first; then the read of the first
    call settles. No clock reading goes backwards, and the last sync time
    of the events moves back from the start of the second call to the start
    of the first. *)
Example overlapping_calls_move_back :
  exists first second w1 w2 w3 w4 outcome3 outcome4,
    DataSyncManager.syncDataType_start (env_healthy example_now) events
      DataSyncManager.default_call world_stale = (w1, inr first) /\
    DataSyncManager.syncDataType_start (env_healthy (example_now + 1000)) events
      forced_call w1 = (w2, inr second) /\
    DataSyncManager.syncDataType_settle (env_healthy (example_now + 1500)) second w2 =
      (w3, outcome3) /\
    DataSyncManager.lastSync events w3 = example_now + 1000 /\
    DataSyncManager.syncDataType_settle (env_healthy (example_now + 2000)) first w3 =
      (w4, outcome4) /\
    DataSyncManager.lastSync events w4 = example_now.
Proof.
  eexists _, _, _, _, _, _, _, _.
  split; [vm_compute; reflexivity|]. split; [vm_compute; reflexivity|].
  split; [vm_compute; reflexivity|]. split; [vm_compute; reflexivity|].
  split; [vm_compute; reflexivity|]. vm_compute. reflexivity.
Qed.






(** A record without [id] cannot be processed: the sync of the events
    fails, nothing is stored, the last sync time stays and a retry is
    set. *)
Example sync_without_id_fails :
  let e :=
    {| now := example_now; now_process := example_now; now_write := example_now;
       now_read := example_now; dom_ok := true;
       http_events :=
         Some [ {| raw_id := None; raw_datetime := Text "1970-01-01T00:00:01Z";
                   raw_name := Text "Brand"; raw_title := Absent;
                   raw_summary := Absent; raw_description := Absent;
                   raw_type := Text "Brand"; raw_url := Absent;
                   raw_location := None |} ];
       http_stations := None; http_rss := fun _ => None;
       idb_read_ok := true; idb_write_ok := true |} in
  let r := DataSyncManager.syncDataType e events DataSyncManager.default_call
             world_online in
  snd r = Returned [] /\
  lastSyncTimestamps (fst r) = lastSyncTimestamps world_online /\
  timers (fst r) = [first_retry events DataSyncManager.default_call] /\
  storage (fst r) = storage world_online.
Proof. repeat split; vm_compute; reflexivity. Qed.

(** X21. The score of [assessDataQuality] and the issues it lists agree:
    the score is 100 minus the points of the listed issues, so it lies
    between 0 and 100, and it is 100 exactly when no issue is listed. *)
Theorem assessDataQuality_consistent (title description : option string)
    (exact : bool) (type timestamp : option string) :
  q_score (DataSyncManager.assessDataQuality title description exact type timestamp) +
    issues_weight
      (q_issues (DataSyncManager.assessDataQuality title description exact type
                   timestamp)) = 100 /\
  0 <= q_score (DataSyncManager.assessDataQuality title description exact type
                  timestamp) <= 100 /\
  (q_issues (DataSyncManager.assessDataQuality title description exact type timestamp)
     = [] <->
   q_score (DataSyncManager.assessDataQuality title description exact type timestamp)
     = 100).
Proof.
  unfold DataSyncManager.assessDataQuality. cbn [q_score q_issues].
  destruct (truthy title && _), (truthy description), exact, (truthy type && _),
    (truthy timestamp); cbn; (split; [reflexivity|]); (split; [lia|]);
    split; intros Hx; try discriminate; try reflexivity.
Qed.

(** ** The periodic timers *)

Section TimerFacts.
Import Periodic.

Lemma type_key_inj a b : type_key a = type_key b -> a = b.
Proof. destruct a, b; simpl; congruence. Qed.

Lemma initial_recorded : timers_recorded initial.
Proof.
  split; [|split]; unfold initial; cbn.
  - intros id v Hl. rewrite lookup_empty in Hl. discriminate.
  - intros k id Hl. rewrite lookup_empty in Hl. discriminate.
  - intros k k' id Hl. rewrite lookup_empty in Hl. discriminate.
Qed.

Lemma cleared_lookup (s : Scheduler) type id v :
  match syncIntervals s !! type_key type with
  | Some old => delete old (live s)
  | None => live s
  end !! id = Some v ->
  live s !! id = Some v /\ syncIntervals s !! type_key type <> Some id.
Proof.
  destruct (syncIntervals s !! type_key type) as [old|] eqn:Ho.
  - intros Hl. apply lookup_delete_Some in Hl as [Hne Hl]. split; [exact Hl|].
    intros [= ->]. contradiction.
  - intros Hl. split; [exact Hl|discriminate].
Qed.

Lemma schedule_recorded hidden type s :
  timers_recorded s -> timers_recorded (schedulePeriodicSync hidden type s).
Proof.
  intros (H1 & H2 & H3). unfold schedulePeriodicSync.
  split; [|split]; cbn [syncIntervals live next_id].
  - intros id v Hl. apply lookup_insert_Some in Hl as [[<- <-]|[Hne Hl]].
    + cbn [fst]. apply lookup_insert_eq.
    + apply cleared_lookup in Hl as [Hl Hold]. specialize (H1 id v Hl).
      rewrite lookup_insert_ne; [exact H1|].
      intros Hk. apply Hold. rewrite Hk. exact H1.
  - intros k id Hl. apply lookup_insert_Some in Hl as [[_ <-]|[_ Hl]]; [lia|].
    specialize (H2 k id Hl). lia.
  - intros k k' id Hk Hk'.
    apply lookup_insert_Some in Hk as [[<- <-]|[Hne Hk]];
      apply lookup_insert_Some in Hk' as [[<- Hid]|[Hne' Hk']]; try reflexivity.
    + specialize (H2 k' _ Hk'). lia.
    + subst id. specialize (H2 k _ Hk). lia.
    + exact (H3 k k' id Hk Hk').
Qed.

Lemma start_recorded hidden s :
  timers_recorded s -> timers_recorded (startPeriodicSync hidden s).
Proof.
  intros Hs. unfold startPeriodicSync. cbn [fold_left].
  repeat apply schedule_recorded. exact Hs.
Qed.

Lemma fold_delete_lookup (entries : list (string * Z)) (running : gmap Z (EntityType * Z))
    id v :
  fold_right (fun entry running => delete (snd entry) running) running entries !! id
    = Some v ->
  running !! id = Some v /\ forall k, ~ In (k, id) entries.
Proof.
  induction entries as [|[k0 id0] entries IH]; cbn [fold_right snd].
  - intros Hl. split; [exact Hl|]. intros k [].
  - intros Hl. apply lookup_delete_Some in Hl as [Hne Hl].
    destruct (IH Hl) as [Hr Hn]. split; [exact Hr|].
    intros k [[= _ Heq]|Hin]; [congruence|exact (Hn k Hin)].
Qed.

Lemma pause_stops_all s : timers_recorded s -> live (pauseSync s) = ∅.
Proof.
  intros (H1 & _ & _). apply map_empty. intros id.
  destruct (live (pauseSync s) !! id) as [v|] eqn:Hl; [|reflexivity].
  unfold pauseSync in Hl. cbn [live] in Hl.
  apply fold_delete_lookup in Hl as [Hl Hn]. exfalso.
  apply (Hn (type_key (fst v))). apply list_elem_of_In, elem_of_map_to_list.
  exact (H1 id v Hl).
Qed.

Lemma pause_recorded s : timers_recorded s -> timers_recorded (pauseSync s).
Proof.
  intros Hs. pose proof (pause_stops_all s Hs) as He.
  split; [|split].
  - intros id v Hl. rewrite He, lookup_empty in Hl. discriminate.
  - intros k id Hl. cbn in Hl. rewrite lookup_empty in Hl. discriminate.
  - intros k k' id Hl. cbn in Hl. rewrite lookup_empty in Hl. discriminate.
Qed.

Lemma after_recorded ops : timers_recorded (after ops).
Proof.
  unfold after. generalize initial_recorded. generalize initial.
  induction ops as [|op ops IH]; intros s Hs; cbn [fold_left]; [exact Hs|].
  apply IH. destruct op; [apply start_recorded|apply pause_recorded]; exact Hs.
Qed.

Lemma schedule_sets hidden type s :
  syncIntervals (schedulePeriodicSync hidden type s) !! type_key type =
    Some (next_id s) /\
  live (schedulePeriodicSync hidden type s) !! next_id s =
    Some (type, DataSyncManager.scheduled_interval hidden type).
Proof. unfold schedulePeriodicSync. cbn. rewrite !lookup_insert_eq. auto. Qed.

Lemma schedule_keeps hidden type s other id v :
  timers_recorded s -> other <> type ->
  syncIntervals s !! type_key other = Some id -> live s !! id = Some v ->
  syncIntervals (schedulePeriodicSync hidden type s) !! type_key other = Some id /\
  live (schedulePeriodicSync hidden type s) !! id = Some v.
Proof.
  intros (H1 & H2 & H3) Hne Hk Hl. unfold schedulePeriodicSync.
  cbn [syncIntervals live].
  assert (Hkey : type_key type <> type_key other).
  { intros Heq. apply Hne. symmetry. apply type_key_inj, Heq. }
  split.
  - rewrite lookup_insert_ne by exact Hkey. exact Hk.
  - rewrite lookup_insert_ne by (specialize (H2 _ _ Hk); lia).
    destruct (syncIntervals s !! type_key type) as [old|] eqn:Ho; [|exact Hl].
    rewrite lookup_delete_ne; [exact Hl|].
    intros ->. apply Hkey. exact (H3 _ _ _ Ho Hk).
Qed.

Lemma start_sets hidden s type :
  timers_recorded s ->
  exists id,
    syncIntervals (startPeriodicSync hidden s) !! type_key type = Some id /\
    live (startPeriodicSync hidden s) !! id =
      Some (type, DataSyncManager.scheduled_interval hidden type).
Proof.
  intros Hs. unfold startPeriodicSync. cbn [fold_left].
  pose proof (schedule_recorded hidden events s Hs) as Hs1.
  pose proof (schedule_recorded hidden stations _ Hs1) as Hs2.
  destruct type.
  - destruct (schedule_sets hidden events s) as [Hk Hl].
    destruct (schedule_keeps hidden stations _ events _ _ Hs1 ltac:(discriminate) Hk Hl)
      as [Hk1 Hl1].
    eexists.
    exact (schedule_keeps hidden rss _ events _ _ Hs2 ltac:(discriminate) Hk1 Hl1).
  - destruct (schedule_sets hidden stations (schedulePeriodicSync hidden events s))
      as [Hk Hl].
    eexists.
    exact (schedule_keeps hidden rss _ stations _ _ Hs2 ltac:(discriminate) Hk Hl).
  - eexists. apply schedule_sets.
Qed.

End TimerFacts.

(** X22. No interval leaks: after any sequence of starts and pauses,
    [pauseSync] leaves no periodic timer running. *)
Theorem pauseSync_stops_every_timer (ops : list Periodic.Op) :
  live (Periodic.pauseSync (Periodic.after ops)) = ∅.
Proof. apply pause_stops_all, after_recorded. Qed.

(** X23. After any sequence of starts and pauses, [startPeriodicSync] leaves
    exactly one running interval for every type, with the active interval of
    the type when the page is visible and the passive one when it is
    hidden. *)
Theorem startPeriodicSync_one_timer_per_type (ops : list Periodic.Op) (hidden : bool)
    (type : EntityType) :
  exists id,
    live (Periodic.startPeriodicSync hidden (Periodic.after ops)) !! id =
      Some (type, DataSyncManager.scheduled_interval hidden type) /\
    forall id' v,
      live (Periodic.startPeriodicSync hidden (Periodic.after ops)) !! id' = Some v ->
      fst v = type -> id' = id.
Proof.
  pose proof (after_recorded ops) as Hs.
  destruct (start_sets hidden _ type Hs) as (id & Hk & Hl).
  exists id. split; [exact Hl|].
  intros id' v Hl' Hv.
  destruct (start_recorded hidden _ Hs) as (H1 & _ & _).
  specialize (H1 id' v Hl'). rewrite Hv, Hk in H1. congruence.
Qed.

(** Hiding the page after the start leaves three intervals, with the passive
    periods. *)
Example timers_example :
  live (Periodic.after [Periodic.Start false; Periodic.Start true]) =
    list_to_map [ (4, (events, 900000)); (5, (stations, 86400000)); (6, (rss, 1800000)) ].
Proof. vm_compute. reflexivity. Qed.

(** ** Cache time stamps *)

Section StampFacts.
Import ParseInt.

Lemma is_decimal_digit c :
  is_decimal c = true -> digit 10 c = Some (Z.of_nat (nat_of_ascii c) - 48).
Proof.
  destruct c as [[] [] [] [] [] [] [] []]; intros Hc; try discriminate Hc;
    reflexivity.
Qed.

Lemma pretty_N_char_decimal (x : N) :
  (x < 10)%N ->
  is_decimal (pretty_N_char x) = true /\
  Z.of_nat (nat_of_ascii (pretty_N_char x)) - 48 = Z.of_N x.
Proof.
  intros Hx.
  assert (Hc : x = 0%N \/ x = 1%N \/ x = 2%N \/ x = 3%N \/ x = 4%N \/ x = 5%N \/
               x = 6%N \/ x = 7%N \/ x = 8%N \/ x = 9%N) by lia.
  destruct Hc as [->|[->|[->|[->|[->|[->|[->|[->|[->| ->]]]]]]]]];
    split; reflexivity.
Qed.

Lemma pretty_N_go_decimal (x : N) : forall s,
  all_decimal s = true -> all_decimal (pretty_N_go x s) = true.
Proof.
  induction (N.lt_wf_0 x) as [x _ IH]. intros s Hs.
  destruct (decide (x = 0)%N) as [->|Hx]; [rewrite pretty_N_go_0; exact Hs|].
  rewrite pretty_N_go_step by lia. apply IH.
  - apply N.div_lt; lia.
  - cbn [all_decimal]. rewrite Hs.
    destruct (pretty_N_char_decimal (x `mod` 10)) as [-> _]; [|reflexivity].
    apply N.mod_lt. lia.
Qed.

Lemma digits_pretty (x : N) : forall s,
  (0 < x)%N ->
  digits 10 (pretty_N_go x s) None = digits 10 s (Some (Z.of_N x)).
Proof.
  induction (N.lt_wf_0 x) as [x _ IH]. intros s Hx.
  rewrite pretty_N_go_step by exact Hx.
  assert (Hm : (x `mod` 10 < 10)%N) by (apply N.mod_lt; lia).
  destruct (pretty_N_char_decimal _ Hm) as [Hd Hv].
  pose proof (N.div_mod x 10 ltac:(lia)) as Hdm.
  destruct (decide (x `div` 10 = 0)%N) as [H0|H0].
  - rewrite H0, pretty_N_go_0. cbn [digits]. rewrite (is_decimal_digit _ Hd), Hv.
    cbn [default]. f_equal. f_equal. lia.
  - rewrite IH; [|apply N.div_lt; lia|lia].
    cbn [digits]. rewrite (is_decimal_digit _ Hd), Hv. cbn [default].
    f_equal. f_equal. clear IH Hd Hv H0.
    set (q := (x `div` 10)%N) in *. set (m := (x `mod` 10)%N) in *.
    clearbody q m. unfold id. lia.
Qed.

Lemma unsigned_decimal s : all_decimal s = true -> unsigned s = digits 10 s None.
Proof.
  destruct s as [|c s]; [reflexivity|].
  destruct c as [[] [] [] [] [] [] [] []]; try reflexivity.
  destruct s as [|c2 s]; [reflexivity|].
  destruct c2 as [[] [] [] [] [] [] [] []]; try reflexivity; intros Hs;
    discriminate Hs.
Qed.

Lemma parseInt_decimal s : all_decimal s = true -> parseInt s = digits 10 s None.
Proof.
  intros Hs. rewrite <- (unsigned_decimal s Hs).
  destruct s as [|c s]; [reflexivity|].
  destruct c as [[] [] [] [] [] [] [] []]; try discriminate Hs; reflexivity.
Qed.

(** [parseInt] reads back the decimal text of an integer. *)
Lemma parseInt_pretty (t : Z) : parseInt (pretty t) = Some t.
Proof.
  destruct t as [|p|p].
  - reflexivity.
  - change (pretty (Z.pos p)) with (pretty_N_go (N.pos p) "").
    rewrite parseInt_decimal by (apply pretty_N_go_decimal; reflexivity).
    rewrite digits_pretty by lia. reflexivity.
  - change (pretty (Z.neg p)) with (String "-" (pretty_N_go (N.pos p) "")).
    change (parseInt (String "-" (pretty_N_go (N.pos p) "")))
      with (Z.opp <$> unsigned (pretty_N_go (N.pos p) "")).
    rewrite unsigned_decimal by (apply pretty_N_go_decimal; reflexivity).
    rewrite digits_pretty by lia. reflexivity.
Qed.

End StampFacts.

Lemma cache_timestamp_stamped (t : Z) (r : Response) :
  ServiceWorker.cache_timestamp
    (ServiceWorker.with_header "sw-cache-timestamp" (pretty t) r) = Some t.
Proof.
  unfold ServiceWorker.cache_timestamp, ServiceWorker.with_header. cbn [headers].
  rewrite lookup_insert_eq. cbn [or_else].
  pose proof (parseInt_pretty t) as Hp.
  destruct (String.eqb_spec (pretty t) "") as [He|_]; [|exact Hp].
  rewrite He in Hp. discriminate Hp.
Qed.

(** ** More of the router and the sweep *)

Section CacheFacts.
Import ServiceWorker BackgroundSync.
Variable html : string.

Lemma age_lt_stamped now t r ttl :
  age_lt now (with_header "sw-cache-timestamp" (pretty t) r) ttl = (now - t <? ttl).
Proof. unfold age_lt. rewrite cache_timestamp_stamped. reflexivity. Qed.

Lemma age_gt_stamped now t r ttl :
  age_gt now (with_header "sw-cache-timestamp" (pretty t) r) ttl = (ttl <? now - t).
Proof. unfold age_gt. rewrite cache_timestamp_stamped. reflexivity. Qed.

Lemma age_gt_unstamped now r ttl :
  headers r !! "sw-cache-timestamp" = None -> age_gt now r ttl = (ttl <? now).
Proof.
  intros Hh. unfold age_gt, cache_timestamp. rewrite Hh.
  change (ParseInt.parseInt (or_else None "0")) with (Some 0).
  cbv beta iota. rewrite Z.sub_0_r. reflexivity.
Qed.

Lemma sync_url_other fetch c u k :
  k <> u -> data_cache (sync_url fetch c u) !! k = data_cache c !! k.
Proof.
  intros Hne. unfold sync_url. destruct (fetch u) as [now [response|]]; [|reflexivity].
  destruct (response_ok response); [|reflexivity].
  cbn [data_cache]. apply lookup_insert_ne. congruence.
Qed.

Lemma sync_url_put fetch c u now response :
  fetch u = (now, Some response) -> response_ok response = true ->
  data_cache (sync_url fetch c u) !! u =
    Some (with_header "sw-cache-timestamp" (pretty now) response).
Proof.
  intros Hf Hok. unfold sync_url. rewrite Hf, Hok. cbn [data_cache].
  apply lookup_insert_eq.
Qed.

Lemma syncPoliceData_put fetch c u now response :
  In u apiUrls -> fetch u = (now, Some response) -> response_ok response = true ->
  data_cache (syncPoliceData fetch c) !! u =
    Some (with_header "sw-cache-timestamp" (pretty now) response).
Proof.
  intros Hin Hf Hok. unfold syncPoliceData, apiUrls in *. cbn [fold_left].
  destruct Hin as [<-|[<-|[]]].
  - rewrite sync_url_other by discriminate. apply sync_url_put; assumption.
  - apply sync_url_put; assumption.
Qed.

Lemma syncPoliceData_static fetch c :
  static_cache (syncPoliceData fetch c) = static_cache c.
Proof.
  unfold syncPoliceData. generalize apiUrls as urls. intros urls. revert c.
  induction urls as [|u urls IH]; intros c; cbn [fold_left]; [reflexivity|].
  rewrite IH. unfold sync_url. destruct (fetch u) as [now [response|]]; [|reflexivity].
  destruct (response_ok response); reflexivity.
Qed.

Lemma sweep_sizes now (c : Caches) :
  size (data_cache c) =
    (size (filter (fun kv : string * Response =>
                     age_gt now (snd kv) (7 * 24 * 60 * 60 * 1000) = true)
             (data_cache c)) +
     size (filter (fun kv : string * Response =>
                     age_gt now (snd kv) (7 * 24 * 60 * 60 * 1000) = false)
             (data_cache c)))%nat.
Proof.
  set (P := fun kv : string * Response =>
              age_gt now (snd kv) (7 * 24 * 60 * 60 * 1000) = true).
  rewrite <- (map_filter_union_complement P (data_cache c)) at 1.
  rewrite map_size_disj_union by apply map_disjoint_filter_complement.
  f_equal. f_equal. apply map_filter_ext. intros k r _. unfold P.
  destruct (age_gt now (snd (k, r)) (7 * 24 * 60 * 60 * 1000)); split; congruence.
Qed.

End CacheFacts.

(** X24. The time stamp of the static cache round-trips: an asset that
    [cacheFirstStrategy] fetched and cached at [t0] is answered from the
    cache, labelled [cache-hit], by every call less than seven days after
    [t0], whatever the network would answer, and the caches stay as they
    are. *)
Theorem cached_asset_served_without_network (html : string) (t0 now : Z)
    (online0 online : bool) (response : Response) (net : option Response)
    (request : Request) (c : Caches) :
  status response = 200 ->
  static_cache c !! url request = None ->
  now - t0 < ServiceWorker.CACHE_DURATION_STATIC ->
  let c' := fst (ServiceWorker.cacheFirstStrategy html t0 online0 (Some response)
                   request c) in
  ServiceWorker.cacheFirstStrategy html now online net request c' =
    (c', Some (ServiceWorker.with_header "sw-cache-status" "cache-hit"
                 (ServiceWorker.with_header "sw-cache-timestamp" (pretty t0)
                    response))).
Proof.
  intros Hs Hmiss Hage c'.
  assert (Hc' : static_cache c' !! url request =
                Some (ServiceWorker.with_header "sw-cache-timestamp" (pretty t0)
                        response)).
  { unfold c', ServiceWorker.cacheFirstStrategy. rewrite Hmiss, Hs.
    cbn [fst static_cache Z.eqb Pos.eqb]. apply lookup_insert_eq. }
  unfold ServiceWorker.cacheFirstStrategy at 1. rewrite Hc'.
  rewrite age_lt_stamped.
  destruct (Z.ltb_spec (now - t0) ServiceWorker.CACHE_DURATION_STATIC) as [_|Hge];
    [reflexivity|lia].
Qed.

Lemma cached_asset_served_without_network_witness :
  ServiceWorker.cacheFirstStrategy "" (example_now + 1000) true None static_request
    (fst (ServiceWorker.cacheFirstStrategy "" example_now true (Some ok_response)
            static_request empty_caches)) =
  (fst (ServiceWorker.cacheFirstStrategy "" example_now true (Some ok_response)
          static_request empty_caches),
   Some (ServiceWorker.with_header "sw-cache-status" "cache-hit"
           (ServiceWorker.with_header "sw-cache-timestamp" (pretty example_now)
              ok_response))).
Proof.
  apply (cached_asset_served_without_network "" example_now (example_now + 1000)
           true true ok_response None static_request empty_caches).
  - reflexivity.
  - reflexivity.
  - vm_compute. reflexivity.
Defined.

(** X25. What the background sync caches carries its time: when the
    network fails, [networkFirstStrategy] answers an endpoint that
    [syncPoliceData] refreshed at [t0] from the cache, and labels it
    [cache-stale] exactly when more than 30 minutes have passed since [t0]. *)
Theorem synced_entry_labelled_by_age (html : string)
    (fetch : string -> Z * option Response) (t0 now : Z) (response : Response)
    (net : option Response) (request : Request) (c : Caches) :
  In (url request) BackgroundSync.apiUrls ->
  fetch (url request) = (t0, Some response) ->
  response_ok response = true ->
  network_failed net ->
  exists r,
    snd (ServiceWorker.networkFirstStrategy html now net request
           (BackgroundSync.syncPoliceData fetch c)) = Some r /\
    body r = body response /\
    cache_status r =
      Some (if ServiceWorker.CACHE_DURATION_API_DATA <? now - t0
            then "cache-stale" else "cache-fresh").
Proof.
  intros Hin Hf Hok Hnet.
  rewrite networkFirstStrategy_failure by exact Hnet.
  rewrite (syncPoliceData_put fetch c _ t0 response Hin Hf Hok).
  eexists. split; [reflexivity|]. split; [reflexivity|].
  rewrite age_gt_stamped. unfold cache_status, ServiceWorker.with_header.
  cbn [headers]. apply lookup_insert_eq.
Qed.

Lemma synced_entry_labelled_by_age_witness :
  exists r,
    snd (ServiceWorker.networkFirstStrategy "" (example_now + 60 * 1000) None
           api_request (BackgroundSync.syncPoliceData example_fetch empty_caches))
      = Some r /\
    body r = body ok_response /\
    cache_status r =
      Some (if ServiceWorker.CACHE_DURATION_API_DATA <?
                 example_now + 60 * 1000 - example_now
            then "cache-stale" else "cache-fresh").
Proof.
  apply (synced_entry_labelled_by_age "" example_fetch example_now
           (example_now + 60 * 1000) ok_response None api_request empty_caches).
  - left. reflexivity.
  - reflexivity.
  - reflexivity.
  - exact I.
Defined.

(** X26. The sweep deletes what [networkFirstStrategy] cached, however
    recent: the entry is the network's response without
    [sw-cache-timestamp], so its age is the clock itself, which is past
    seven days. *)
Theorem sweep_removes_network_first_entries (html : string) (t0 now : Z)
    (response : Response) (request : Request) (c : Caches) :
  status response = 200 ->
  headers response !! "sw-cache-timestamp" = None ->
  RETENTION < now ->
  data_cache
    (fst (ServiceWorker.cleanupExpiredCaches now
            (fst (ServiceWorker.networkFirstStrategy html t0 (Some response)
                    request c)))) !! url request = None.
Proof.
  intros Hs Hh Hnow.
  destruct (cache_put_stamps html t0 true response request c Hs) as [Hput _].
  destruct (data_cache (fst (ServiceWorker.cleanupExpiredCaches now _)) !! url request)
    as [r|] eqn:Hl; [|reflexivity].
  apply cleanupExpiredCaches_lookup in Hl as [Hl Hage].
  rewrite Hput in Hl. injection Hl as <-.
  rewrite age_gt_unstamped in Hage by exact Hh.
  apply Z.ltb_ge in Hage. lia.
Qed.

Lemma sweep_removes_network_first_entries_witness :
  data_cache
    (fst (ServiceWorker.cleanupExpiredCaches (example_now + 1000)
            (fst (ServiceWorker.networkFirstStrategy "" example_now
                    (Some ok_response) api_request empty_caches))))
    !! url api_request = None.
Proof.
  apply (sweep_removes_network_first_entries "" example_now (example_now + 1000)
           ok_response api_request empty_caches).
  - reflexivity.
  - reflexivity.
  - vm_compute. reflexivity.
Defined.

(** X27. The sweep keeps what [syncPoliceData] cached for seven days from
    the time of the refresh, and deletes it after. *)
Theorem sweep_keeps_synced_entries (fetch : string -> Z * option Response)
    (t0 now : Z) (response : Response) (u : string) (c : Caches) :
  In u BackgroundSync.apiUrls ->
  fetch u = (t0, Some response) ->
  response_ok response = true ->
  data_cache
    (fst (ServiceWorker.cleanupExpiredCaches now
            (BackgroundSync.syncPoliceData fetch c))) !! u =
    if RETENTION <? now - t0 then None
    else Some (ServiceWorker.with_header "sw-cache-timestamp" (pretty t0) response).
Proof.
  intros Hin Hf Hok.
  pose proof (syncPoliceData_put fetch c u t0 response Hin Hf Hok) as Hput.
  pose proof (age_gt_stamped now t0 response RETENTION) as Hage.
  destruct (RETENTION <? now - t0) eqn:Hcmp.
  - destruct (data_cache (fst (ServiceWorker.cleanupExpiredCaches now _)) !! u)
      as [r|] eqn:Hl; [|reflexivity].
    apply cleanupExpiredCaches_lookup in Hl as [Hl Hr].
    rewrite Hput in Hl. injection Hl as <-. congruence.
  - apply cleanupExpiredCaches_lookup. split; assumption.
Qed.

Lemma sweep_keeps_synced_entries_witness :
  data_cache
    (fst (ServiceWorker.cleanupExpiredCaches (example_now + 1000)
            (BackgroundSync.syncPoliceData example_fetch empty_caches)))
    !! "https://polisen.se/api/policestations" =
    if RETENTION <? example_now + 1000 - example_now then None
    else Some (ServiceWorker.with_header "sw-cache-timestamp" (pretty example_now)
                 ok_response).
Proof.
  apply (sweep_keeps_synced_entries example_fetch example_now (example_now + 1000)
           ok_response "https://polisen.se/api/policestations" empty_caches).
  - right. left. reflexivity.
  - reflexivity.
  - reflexivity.
Defined.

(** X28. The sweep accounts for every entry of the data cache: the count it
    returns and the entries it leaves add up to the entries before, what it
    leaves was there before, and the static cache is not touched. *)
Theorem cleanupExpiredCaches_accounts (now : Z) (c : Caches) :
  Z.of_nat (size (data_cache c)) =
    snd (ServiceWorker.cleanupExpiredCaches now c) +
    Z.of_nat (size (data_cache (fst (ServiceWorker.cleanupExpiredCaches now c)))) /\
  data_cache (fst (ServiceWorker.cleanupExpiredCaches now c)) ⊆ data_cache c /\
  static_cache (fst (ServiceWorker.cleanupExpiredCaches now c)) = static_cache c.
Proof.
  unfold ServiceWorker.cleanupExpiredCaches. cbn [fst snd data_cache static_cache].
  split; [|split].
  - rewrite (sweep_sizes now c). lia.
  - apply map_filter_subseteq.
  - reflexivity.
Qed.

(** X29. The [fetch] listener answers every request it takes that goes to
    an API endpoint or carries an [Accept] header: whatever the network and
    the caches hold, its promise resolves with a response. *)
Theorem handled_request_answered (html : string) (now : Z) (online : bool)
    (net : option Response) (request : Request) (c c' : Caches)
    (answer : option Response) :
  ServiceWorker.on_fetch html now online net request c = Some (c', answer) ->
  ServiceWorker.isApiRequest (url request) = true \/ accept request <> None ->
  exists r, answer = Some r.
Proof.
  unfold ServiceWorker.on_fetch. intros Hf Hreq.
  destruct (negb (String.eqb (method request) "GET") ||
            String.prefix "chrome-extension:" (url request)); [discriminate Hf|].
  assert (Hfb : exists r, ServiceWorker.createOfflineFallback html request = Some r).
  { destruct (ServiceWorker.isApiRequest (url request)) eqn:Hapi.
    - rewrite createOfflineFallback_api by exact Hapi. eexists; reflexivity.
    - destruct Hreq as [Habs|Ha]; [discriminate Habs|].
      destruct (accept request) as [a|] eqn:Hacc; [|contradiction].
      destruct (createOfflineFallback_other html request a Hapi Hacc) as (r & -> & _).
      eexists; reflexivity. }
  destruct Hfb as [fb Hfb].
  destruct (ServiceWorker.isApiRequest (url request)).
  - injection Hf as Hf. replace answer with (snd (c', answer)) by reflexivity.
    rewrite <- Hf. unfold ServiceWorker.networkFirstStrategy. rewrite Hfb.
    destruct net as [r|]; [destruct (status r =? 200)|];
      destruct (data_cache c !! url request); eexists; reflexivity.
  - injection Hf as Hf. replace answer with (snd (c', answer)) by reflexivity.
    rewrite <- Hf. unfold ServiceWorker.cacheFirstStrategy. rewrite Hfb.
    destruct (static_cache c !! url request) as [cached|];
      [destruct (ServiceWorker.age_lt now cached ServiceWorker.CACHE_DURATION_STATIC
                 || negb online)|];
      destruct net as [r|]; try destruct (status r =? 200); eexists; reflexivity.
Qed.

Lemma handled_request_answered_witness :
  exists r,
    snd (ServiceWorker.networkFirstStrategy "" example_now None api_request
           empty_caches) = Some r.
Proof.
  apply (handled_request_answered "" example_now true None api_request empty_caches
           (fst (ServiceWorker.networkFirstStrategy "" example_now None api_request
                   empty_caches))).
  - reflexivity.
  - left. reflexivity.
Defined.

(** ** The categories of a station's services *)

Section ServiceFacts.
Import PoliceStationServices.
Context `{JsRuntime}.

Lemma get_push category placed service categories :
  get category (push placed service categories) =
    get category categories ++
    (if category_eqb placed category then [service] else []).
Proof.
  destruct placed, category; cbn [get push category_eqb emergency administrative
    specialized public]; try reflexivity; symmetry; apply app_nil_r.
Qed.

Lemma fold_push_get category services : forall categories,
  get category
    (fold_left (fun categories service => push (place service) service categories)
       services categories) =
  get category categories ++
  List.filter (fun service => category_eqb (place service) category) services.
Proof.
  induction services as [|service services IH]; intros categories;
    cbn [fold_left List.filter].
  - symmetry. apply app_nil_r.
  - rewrite IH, get_push.
    destruct (category_eqb (place service) category); rewrite <- app_assoc;
      reflexivity.
Qed.

Lemma placed_lengths (services : list string) :
  (length (List.filter (fun s => category_eqb (place s) Emergency) services) +
   length (List.filter (fun s => category_eqb (place s) Administrative) services) +
   length (List.filter (fun s => category_eqb (place s) Specialized) services) +
   length (List.filter (fun s => category_eqb (place s) Public) services))%nat =
  length services.
Proof.
  induction services as [|service services IH]; [reflexivity|].
  cbn [List.filter]. destruct (place service); cbn [category_eqb length]; lia.
Qed.

End ServiceFacts.

(** X30. [categorizeServices] splits the services: each category holds, in
    the order of the station's list, exactly the services whose first
    matching group of keywords is that category (the public one when no
    keyword matches), so every service is in one category and the four
    lists together are as long as the list of services. *)
Theorem categorizeServices_partition `{JsRuntime} (services : list string) :
  (forall category,
     PoliceStationServices.get category
       (PoliceStationServices.categorizeServices services) =
     List.filter
       (fun service =>
          category_eqb (PoliceStationServices.place service) category) services) /\
  (length (emergency (PoliceStationServices.categorizeServices services)) +
   length (administrative (PoliceStationServices.categorizeServices services)) +
   length (specialized (PoliceStationServices.categorizeServices services)) +
   length (public (PoliceStationServices.categorizeServices services)))%nat =
  length services.
Proof.
  assert (Hget : forall category,
     PoliceStationServices.get category
       (PoliceStationServices.categorizeServices services) =
     List.filter
       (fun service =>
          category_eqb (PoliceStationServices.place service) category) services).
  { intros category. unfold PoliceStationServices.categorizeServices.
    rewrite fold_push_get. destruct category; reflexivity. }
  split; [exact Hget|].
  pose proof (Hget Emergency) as He. pose proof (Hget Administrative) as Ha.
  pose proof (Hget Specialized) as Hs. pose proof (Hget Public) as Hp.
  cbn [PoliceStationServices.get] in He, Ha, Hs, Hp.
  rewrite He, Ha, Hs, Hp. apply placed_lengths.
Qed.

(** A service with keywords of two groups goes to the earlier group. *)
Example categorizeServices_example :
  PoliceStationServices.categorizeServices
    ["Reception"; "Pass och akut hjalp"; "Hittegods"; "Narkotika"] =
  {| emergency := ["Pass och akut hjalp"]; administrative := [];
     specialized := ["Narkotika"]; public := ["Reception"; "Hittegods"] |}.
Proof. vm_compute. reflexivity. Qed.
